(** * Verification of [_tasks/sync-proposal-data.ts]

    A shallow embedding of the proposal synchronisation task: the string
    helpers, the regular expressions it runs, the per-field resolvers, the
    per-row record assembly and the final write, followed by the properties
    of the natural-language specification that were checked against it.

    JavaScript strings are modelled as [string]; one [ascii] stands for one
    UTF-16 code unit, so the model covers the Latin-1 range. *)

From Stdlib Require Import Ascii String ZArith Lia Bool.
From stdpp Require Import base option list strings gmap.

Local Open Scope Z_scope.
Local Open Scope nat_scope.
Local Open Scope stdpp_scope.

(** ** JavaScript string primitives *)

Module JsString.

Definition LF : ascii := "010"%char.
Definition CR : ascii := "013"%char.
Definition nl : string := String LF EmptyString.

(** Whether [p] is read at the head of [s]. *)
Fixpoint isPrefix (p s : string) : bool :=
  match p, s with
  | EmptyString, _ => true
  | String a p', String b s' => Ascii.eqb a b && isPrefix p' s'
  | String _ _, EmptyString => false
  end.

(** [s.startsWith(p)] *)
Definition startsWith (s p : string) : bool := isPrefix p s.

(** [s.includes(p)] *)
Fixpoint includes (s p : string) : bool :=
  match s with
  | EmptyString => isPrefix p s
  | String _ s' => isPrefix p s || includes s' p
  end.

(** [s.substring(from, to)] for [0 <= from], clamped to the length. *)
Definition sub (s : string) (from to : nat) : string :=
  String.substring from (to - from) s.

(** The relative index of [slice]: a negative index counts from the end,
    and every index is clamped to [0 .. len]. *)
Definition relIndex (len : nat) (i : Z) : nat :=
  if (i <? 0)%Z then Z.to_nat (Z.max (Z.of_nat len + i) 0)
  else Nat.min (Z.to_nat i) len.

(** [s.slice(start)] and [s.slice(start, end)] *)
Definition slice (s : string) (start : Z) (stop : option Z) : string :=
  let len := String.length s in
  let from := relIndex len start in
  let to := match stop with Some e => relIndex len e | None => len end in
  sub s from to.

(** [s.endsWith(p)] *)
Definition endsWith (s p : string) : bool :=
  let ls := String.length s in
  let lp := String.length p in
  if ls <? lp then false else String.eqb (sub s (ls - lp) ls) p.

(** The body of [s.split(sep)] for a separator of at least one character:
    [cur] is the piece being read and [skip] counts the characters of a
    separator occurrence still to be passed over. *)
Fixpoint splitGo (sep : string) (s : string) (cur : string) (skip : nat)
  : list string :=
  match s with
  | EmptyString => [cur]
  | String c s' =>
      match skip with
      | S k => splitGo sep s' cur k
      | O =>
          if isPrefix sep s
          then cur :: splitGo sep s' EmptyString (String.length sep - 1)
          else splitGo sep s' (cur +:+ String c EmptyString) 0
      end
  end.

(** [s.split(sep)]; an empty separator cuts between all code units. *)
Definition split (s sep : string) : list string :=
  match sep with
  | EmptyString => (fun c => String c EmptyString) <$> list_ascii_of_string s
  | _ => splitGo sep s EmptyString 0
  end.

(** [c] lower-cased as [toLowerCase] does in the Latin-1 range. *)
Definition lowerChar (c : ascii) : ascii :=
  let n := nat_of_ascii c in
  if ((65 <=? n) && (n <=? 90)) || ((192 <=? n) && (n <=? 222) && negb (n =? 215))
  then ascii_of_nat (n + 32) else c.

(** [s.toLowerCase()] *)
Fixpoint toLowerCase (s : string) : string :=
  match s with
  | EmptyString => EmptyString
  | String c s' => String (lowerChar c) (toLowerCase s')
  end.

(** [s.replace(pat, rep)] with a string pattern: only the first occurrence
    is replaced. [rep] is taken literally (it holds no [$]). *)
Fixpoint replaceFirst (s pat rep : string) : string :=
  if isPrefix pat s
  then rep +:+ sub s (String.length pat) (String.length s)
  else match s with
       | EmptyString => EmptyString
       | String c s' => String c (replaceFirst s' pat rep)
       end.

End JsString.

Import JsString.

(** ** Regular expressions

    The patterns of the task are kept as the source writes them and parsed
    into the syntax below, which is then run by a backtracking matcher that
    follows the ECMAScript semantics (leftmost match, greedy and lazy
    repetition, captures cleared at each repetition, empty repetitions
    rejected).  The parser covers the syntax the task uses: characters,
    [.], identity and class escapes, character classes, groups, alternation
    and the quantifiers [*], [+], [?] with their lazy forms.  Anchors,
    counted repetitions, back-references and look-around are outside it. *)

Module RegExp.

Inductive citem : Type :=
| CRange (lo hi : ascii)
| CSpace (neg : bool)
| CDigit (neg : bool)
| CWord (neg : bool).

Inductive regex : Type :=
| REmpty
| RChar (c : ascii)
| RSet (neg : bool) (items : list citem)
| RSeq (r1 r2 : regex)
| RAlt (r1 r2 : regex)
| RQuant (min : nat) (max : option nat) (greedy : bool) (r : regex)
| RGroup (i : nat) (r : regex).

Definition between (lo hi : nat) (c : ascii) : bool :=
  (lo <=? nat_of_ascii c) && (nat_of_ascii c <=? hi).

Definition isSpace (c : ascii) : bool :=
  between 9 13 c || between 32 32 c || between 160 160 c.

Definition isDigit (c : ascii) : bool := between 48 57 c.

Definition isWord (c : ascii) : bool :=
  between 97 122 c || between 65 90 c || isDigit c || between 95 95 c.

Definition inItem (c : ascii) (it : citem) : bool :=
  match it with
  | CRange lo hi => between (nat_of_ascii lo) (nat_of_ascii hi) c
  | CSpace neg => xorb neg (isSpace c)
  | CDigit neg => xorb neg (isDigit c)
  | CWord neg => xorb neg (isWord c)
  end.

(** [.] matches everything but a line terminator. *)
Definition RDot : regex := RSet true [CRange LF LF; CRange CR CR].

(** The capture groups that occur in a pattern. *)
Fixpoint groupsOf (r : regex) : list nat :=
  match r with
  | REmpty | RChar _ | RSet _ _ => []
  | RSeq r1 r2 | RAlt r1 r2 => groupsOf r1 ++ groupsOf r2
  | RQuant _ _ _ r' => groupsOf r'
  | RGroup i r' => i :: groupsOf r'
  end.

(** Captures: the most recent binding of a group comes first. *)
Definition caps : Type := list (nat * string).

Definition clearCaps (gs : list nat) (cs : caps) : caps :=
  List.filter (fun p => negb (existsb (Nat.eqb p.1) gs)) cs.

Fixpoint getCap (i : nat) (cs : caps) : option string :=
  match cs with
  | [] => None
  | (j, v) :: cs' => if Nat.eqb i j then Some v else getCap i cs'
  end.

(** What was read from [s] when [s'] is what remains of it. *)
Definition consumed (s s' : string) : string :=
  sub s 0 (String.length s - String.length s').

Definition MatchState : Type := (string * caps)%type.

Definition Continuation : Type := string -> caps -> option MatchState.
Definition Matcher : Type := string -> caps -> Continuation -> option MatchState.

(** The repetition of a matcher [m], after the RepeatMatcher of the
    language definition: the captures [gs] of the atom are cleared at each
    round, a round that reads nothing once [min] is reached is given up,
    and a greedy repetition tries another round before it tries to go on.
    With [min] at 0 every round reads a character, so a [fuel] above the
    length of [s] plus [min] is never used up. *)
Fixpoint repeatMatcher (m : Matcher) (gs : list nat) (greedy : bool)
  (k : Continuation) (fuel min : nat) (max : option nat)
  (s : string) (cs : caps) {struct fuel} : option MatchState :=
  match fuel with
  | O => k s cs
  | S fuel' =>
      if match max with Some O => true | _ => false end then k s cs
      else
        let again :=
          m s (clearCaps gs cs)
            (fun s' cs' =>
               if Nat.eqb min 0 && Nat.eqb (String.length s') (String.length s)
               then None
               else repeatMatcher m gs greedy k fuel' (Nat.pred min)
                      (Nat.pred <$> max) s' cs') in
        if negb (Nat.eqb min 0) then again
        else if greedy
             then match again with Some st => Some st | None => k s cs end
             else match k s cs with Some st => Some st | None => again end
  end.

(** The matcher, in continuation-passing style: [rmatch r s cs k] reads a
    match of [r] at the head of [s] and hands what remains to [k]. *)
Fixpoint rmatch (r : regex) (s : string) (cs : caps) (k : Continuation)
  {struct r} : option MatchState :=
  match r with
  | REmpty => k s cs
  | RChar c =>
      match s with
      | String d s' => if Ascii.eqb c d then k s' cs else None
      | EmptyString => None
      end
  | RSet neg items =>
      match s with
      | String d s' => if xorb neg (existsb (inItem d) items) then k s' cs else None
      | EmptyString => None
      end
  | RSeq r1 r2 => rmatch r1 s cs (fun s' cs' => rmatch r2 s' cs' k)
  | RAlt r1 r2 =>
      match rmatch r1 s cs k with
      | Some st => Some st
      | None => rmatch r2 s cs k
      end
  | RGroup i r' =>
      rmatch r' s cs (fun s' cs' => k s' ((i, consumed s s') :: cs'))
  | RQuant min max greedy r' =>
      repeatMatcher (rmatch r') (groupsOf r') greedy k
        (S (min + String.length s)) min max s cs
  end.

(** A match: where it starts, what it matched, and the captures. *)
Record MatchResult : Type := mkMatch {
  m_index : nat;
  m_text : string;
  m_caps : caps
}.

Definition matchAt (r : regex) (s : string) : option MatchState :=
  rmatch r s [] (fun s' cs' => Some (s', cs')).

(** The leftmost match in [s], which starts [pos] characters into the subject. *)
Fixpoint search (r : regex) (pos : nat) (s : string) : option MatchResult :=
  match matchAt r s with
  | Some (s', cs) => Some (mkMatch pos (consumed s s') cs)
  | None =>
      match s with
      | EmptyString => None
      | String _ s' => search r (S pos) s'
      end
  end.

(** *** Parsing a pattern source *)

Inductive PatternError : Type :=
| BadPattern      (* the engine raises a SyntaxError *)
| OutsideModel.   (* valid or not, the pattern is not covered here *)

Definition Parsed (A : Type) : Type := (PatternError + A)%type.

Definition isAlnum (c : ascii) : bool :=
  between 97 122 c || between 65 90 c || isDigit c.

(** An escape, after its backslash: a class of characters. *)
Definition parseEscape (c : ascii) : Parsed (list citem) :=
  if Ascii.eqb c "n" then inr [CRange LF LF]
  else if Ascii.eqb c "r" then inr [CRange CR CR]
  else if Ascii.eqb c "t" then inr [CRange "009" "009"]
  else if Ascii.eqb c "v" then inr [CRange "011" "011"]
  else if Ascii.eqb c "f" then inr [CRange "012" "012"]
  else if Ascii.eqb c "s" then inr [CSpace false]
  else if Ascii.eqb c "S" then inr [CSpace true]
  else if Ascii.eqb c "d" then inr [CDigit false]
  else if Ascii.eqb c "D" then inr [CDigit true]
  else if Ascii.eqb c "w" then inr [CWord false]
  else if Ascii.eqb c "W" then inr [CWord true]
  else if isAlnum c then inl OutsideModel
  else inr [CRange c c].

(** The members of a character class, up to its closing bracket. *)
Fixpoint parseClass (fuel : nat) (s : string) (acc : list citem)
  : Parsed (list citem * string) :=
  match fuel with
  | O => inl OutsideModel
  | S f =>
      match s with
      | EmptyString => inl BadPattern
      | String "]" rest => inr (acc, rest)
      | String "\" EmptyString => inl BadPattern
      | String "\" (String c rest) =>
          match parseEscape c with
          | inl e => inl e
          | inr its =>
              match rest with
              | String "-" (String d _) =>
                  if Ascii.eqb d "]" then parseClass f rest (acc ++ its)
                  else inl OutsideModel
              | _ => parseClass f rest (acc ++ its)
              end
          end
      | String lo (String "-" (String hi rest)) =>
          if Ascii.eqb hi "]"
          then parseClass f (String "-" (String hi rest)) (acc ++ [CRange lo lo])
          else if Ascii.eqb hi "\" then inl OutsideModel
          else if nat_of_ascii lo <=? nat_of_ascii hi
               then parseClass f rest (acc ++ [CRange lo hi])
               else inl BadPattern
      | String c rest => parseClass f rest (acc ++ [CRange c c])
      end
  end.

(** The quantifier that may follow an atom. *)
Definition parseQuant (atom : regex) (s : string) : Parsed (regex * string) :=
  let lazy (min : nat) (max : option nat) (rest : string) :=
    match rest with
    | String "?" rest' => inr (RQuant min max false atom, rest')
    | _ => inr (RQuant min max true atom, rest)
    end in
  match s with
  | String "*" rest => lazy 0 None rest
  | String "+" rest => lazy 1 None rest
  | String "?" rest => lazy 0 (Some 1) rest
  | String "{" _ => inl OutsideModel
  | _ => inr (atom, s)
  end.

(** Disjunctions, alternatives and atoms; [n] is the number of capture
    groups opened so far. *)
Fixpoint parseDisj (fuel : nat) (s : string) (n : nat)
  : Parsed (regex * string * nat) :=
  match fuel with
  | O => inl OutsideModel
  | S f =>
      match parseAlt f s n with
      | inr (r1, String "|" rest, n1) =>
          match parseDisj f rest n1 with
          | inr (r2, rest2, n2) => inr (RAlt r1 r2, rest2, n2)
          | inl e => inl e
          end
      | other => other
      end
  end
with parseAlt (fuel : nat) (s : string) (n : nat)
  : Parsed (regex * string * nat) :=
  match fuel with
  | O => inl OutsideModel
  | S f =>
      match s with
      | EmptyString => inr (REmpty, s, n)
      | String "|" _ => inr (REmpty, s, n)
      | String ")" _ => inr (REmpty, s, n)
      | _ =>
          match parseAtom f s n with
          | inl e => inl e
          | inr (a, rest, n1) =>
              match parseQuant a rest with
              | inl e => inl e
              | inr (t, rest1) =>
                  match parseAlt f rest1 n1 with
                  | inl e => inl e
                  | inr (more, rest2, n2) => inr (RSeq t more, rest2, n2)
                  end
              end
          end
      end
  end
with parseAtom (fuel : nat) (s : string) (n : nat)
  : Parsed (regex * string * nat) :=
  match fuel with
  | O => inl OutsideModel
  | S f =>
      match s with
      | EmptyString => inl BadPattern
      | String "(" (String "?" (String ":" rest)) =>
          match parseDisj f rest n with
          | inr (r, String ")" rest1, n1) => inr (r, rest1, n1)
          | inr _ => inl BadPattern
          | inl e => inl e
          end
      | String "(" (String "?" _) => inl OutsideModel
      | String "(" rest =>
          match parseDisj f rest (S n) with
          | inr (r, String ")" rest1, n1) => inr (RGroup (S n) r, rest1, n1)
          | inr _ => inl BadPattern
          | inl e => inl e
          end
      | String "[" (String "^" rest) =>
          match parseClass (S (String.length rest)) rest [] with
          | inr (its, rest1) => inr (RSet true its, rest1, n)
          | inl e => inl e
          end
      | String "[" rest =>
          match parseClass (S (String.length rest)) rest [] with
          | inr (its, rest1) => inr (RSet false its, rest1, n)
          | inl e => inl e
          end
      | String "\" EmptyString => inl BadPattern
      | String "\" (String c rest) =>
          if isDigit c || Ascii.eqb c "b" || Ascii.eqb c "B" then inl OutsideModel
          else match parseEscape c with
               | inr its => inr (RSet false its, rest, n)
               | inl e => inl e
               end
      | String "." rest => inr (RDot, rest, n)
      | String "*" _ | String "+" _ | String "?" _ => inl BadPattern
      | String "^" _ | String "$" _ | String "{" _ | String "}" _ => inl OutsideModel
      | String c rest => inr (RChar c, rest, n)
      end
  end.

(** The pattern of a source text, with the number of its capture groups. *)
Definition parse (source : string) : Parsed (regex * nat) :=
  match parseDisj (4 * String.length source + 4) source 0 with
  | inr (r, EmptyString, n) => inr (r, n)
  | inr _ => inl BadPattern
  | inl e => inl e
  end.

(** *** RegExp objects *)

(** A RegExp object: its pattern, its [g] flag and its mutable [lastIndex]. *)
Record RegExpObj : Type := mkRegExp {
  re_pattern : regex;
  re_groups : nat;
  re_global : bool;
  re_lastIndex : nat
}.

(** [new RegExp(source, flags)] for the flags [g] and [gm] ([m] only
    changes anchors, which the modelled patterns do not have). *)
Definition construct (source : string) (global : bool) : Parsed RegExpObj :=
  match parse source with
  | inr (r, n) => inr (mkRegExp r n global 0)
  | inl e => inl e
  end.

(** The array [exec] answers: the match, then one entry for each group,
    [None] being [undefined]. *)
Definition matchArray (n : nat) (m : MatchResult) : list (option string) :=
  Some (m_text m) :: ((fun i => getCap (S i) (m_caps m)) <$> seq 0 n).

(** [re.exec(s)]: the search starts at [lastIndex] when the pattern is
    global, and [lastIndex] is moved behind the match, or back to 0 when
    there is none. *)
Definition exec (re : RegExpObj) (s : string)
  : option (list (option string)) * RegExpObj :=
  let start := if re_global re then re_lastIndex re else 0 in
  let found :=
    if String.length s <? start then None
    else search (re_pattern re) start (sub s start (String.length s)) in
  match found with
  | Some m =>
      (Some (matchArray (re_groups re) m),
       if re_global re
       then mkRegExp (re_pattern re) (re_groups re) true
              (m_index m + String.length (m_text m))
       else re)
  | None =>
      (None, mkRegExp (re_pattern re) (re_groups re) (re_global re) 0)
  end.

(** [s.replace(re, rep)] for a global pattern: every match, left to right
    and without overlap, gives way to [rep], which is taken literally. *)
Fixpoint replaceGo (fuel : nat) (r : regex) (s rep : string) : string :=
  match fuel with
  | O => s
  | S f =>
      let keep :=
        match s with
        | EmptyString => EmptyString
        | String c rest => String c (replaceGo f r rest rep)
        end in
      match matchAt r s with
      | Some (rest, _) =>
          if String.length rest <? String.length s
          then rep +:+ replaceGo f r rest rep
          else rep +:+ keep
      | None => keep
      end
  end.

Definition replace (s : string) (re : RegExpObj) (rep : string) : string :=
  replaceGo (S (String.length s)) (re_pattern re) s rep.

End RegExp.

Import RegExp.

(** ** Values, errors and effects *)

(** The values a field of the local dataset holds once loaded: the declared
    type of [example] and [description] is [string | undefined], and a YAML
    document can also hold [null]. *)
Inductive JsVal : Type :=
| JUndefined
| JNull
| JStr (s : string).

(** [v != null] *)
Definition notNullish (v : JsVal) : bool :=
  match v with JUndefined | JNull => false | JStr _ => true end.

(** [!v] *)
Definition falsy (v : JsVal) : bool :=
  match v with
  | JUndefined | JNull => true
  | JStr s => String.eqb s ""
  end.

(** [v === s] for a string [s] *)
Definition strictEqStr (v : JsVal) (s : string) : bool :=
  match v with JStr t => String.eqb t s | _ => false end.

(** [`${v}`] *)
Definition toStr (v : JsVal) : string :=
  match v with JUndefined => "undefined" | JNull => "null" | JStr s => s end.

(** An object loaded from the dataset, and [hasOwn] and property reads on it. *)
Abbreviation DataRecord := (gmap string JsVal).

Definition hasOwn (o : DataRecord) (key : string) : bool :=
  bool_decide (is_Some (o !! key)).

Definition prop (o : DataRecord) (key : string) : JsVal :=
  default JUndefined (o !! key).

(** What can be thrown, or be the reason of a rejection. *)
Inductive Err : Type :=
| TypeError (what : string)
| SyntaxError (source : string)
| PatternOutsideModel (source : string)
| IoError (what : string)
| YamlError (what : string)
| ErrorOf (reason : Err).   (* [new Error(reason)] *)

(** Synchronous code that may throw. *)
Inductive Result (A : Type) : Type :=
| Ok (a : A)
| Thrown (e : Err).
Arguments Ok {A} a.
Arguments Thrown {A} e.

#[export] Instance result_bind : MBind Result :=
  fun A B f m => match m with Ok a => f a | Thrown e => Thrown e end.
#[export] Instance result_ret : MRet Result := fun A a => Ok a.

(** Modelled from the spec: the answer of [fetchMetadata] is declared nowhere
    in the sources (the task reads it as [any]).  Section 6 of the
    specification describes it as a structure with a file listing and a
    description field: [result.data.forEach] walks the listing, whose
    entries have a [path], and [repoMetadata.data.description] reads the
    description. *)
Record Entry : Type := mkEntry { path : string }.
Record Metadata : Type := mkMetadata {
  data_entries : list Entry;
  data_description : JsVal
}.

(** The tree of effects of an asynchronous function: what it awaits from
    the remote host, what it reads from the disk and what it logs. *)
Inductive Prog (A : Type) : Type :=
| Ret (a : A)
| Throw (e : Err)
| ReadFileSync (file : string) (k : string -> Prog A)
| FetchFileContents (owner repo file : string) (k : string -> Prog A)
| FetchMetadata (owner repo : string) (k : Metadata -> Prog A)
| LogInfo (msg : string) (k : Prog A).
Arguments Ret {A} a.
Arguments Throw {A} e.
Arguments ReadFileSync {A} file k.
Arguments FetchFileContents {A} owner repo file k.
Arguments FetchMetadata {A} owner repo k.
Arguments LogInfo {A} msg k.

Fixpoint progBind {A B : Type} (m : Prog A) (f : A -> Prog B) : Prog B :=
  match m with
  | Ret a => f a
  | Throw e => Throw e
  | ReadFileSync file k => ReadFileSync file (fun x => progBind (k x) f)
  | FetchFileContents o r p k => FetchFileContents o r p (fun x => progBind (k x) f)
  | FetchMetadata o r k => FetchMetadata o r (fun x => progBind (k x) f)
  | LogInfo msg k => LogInfo msg (progBind k f)
  end.

#[export] Instance prog_bind : MBind Prog := fun A B f m => progBind m f.
#[export] Instance prog_ret : MRet Prog := fun A a => Ret a.

(** A synchronous step inside an asynchronous function: a throw rejects. *)
Definition lift {A : Type} (r : Result A) : Prog A :=
  match r with Ok a => Ret a | Thrown e => Throw e end.

(** *** The world a run meets *)

(** How a remote call ends. *)
Inductive Reply (A : Type) : Type :=
| Resolves (a : A)
| Rejects (reason : Err)
| Hangs.
Arguments Resolves {A} a.
Arguments Rejects {A} reason.
Arguments Hangs {A}.

(** The remote host as the run sees it, and the local disk at its start. *)
Record World : Type := mkWorld {
  remoteFile : string -> string -> string -> Reply string;
  remoteMetadata : string -> string -> Reply Metadata;
  disk : gmap string string
}.

Inductive Outcome (A : Type) : Type :=
| Fulfilled (a : A)
| Rejected (e : Err)
| Pending.
Arguments Fulfilled {A} a.
Arguments Rejected {A} e.
Arguments Pending {A}.

Inductive Event : Type :=
| EvRead (file : string)
| EvFetchFile (owner repo file : string)
| EvFetchMetadata (owner repo : string)
| EvLog (msg : string).

Definition isFetch (e : Event) : bool :=
  match e with
  | EvFetchFile _ _ _ | EvFetchMetadata _ _ => true
  | EvRead _ | EvLog _ => false
  end.

(** One asynchronous function run to its end: how it settles and what it
    did on the way. *)
Fixpoint run {A : Type} (w : World) (p : Prog A) : Outcome A * list Event :=
  match p with
  | Ret a => (Fulfilled a, [])
  | Throw e => (Rejected e, [])
  | ReadFileSync file k =>
      match disk w !! file with
      | Some text => let r := run w (k text) in (r.1, EvRead file :: r.2)
      | None => (Rejected (IoError file), [EvRead file])
      end
  | FetchFileContents o r f k =>
      match remoteFile w o r f with
      | Resolves text => let x := run w (k text) in (x.1, EvFetchFile o r f :: x.2)
      | Rejects e => (Rejected e, [EvFetchFile o r f])
      | Hangs => (Pending, [EvFetchFile o r f])
      end
  | FetchMetadata o r k =>
      match remoteMetadata w o r with
      | Resolves md => let x := run w (k md) in (x.1, EvFetchMetadata o r :: x.2)
      | Rejects e => (Rejected e, [EvFetchMetadata o r])
      | Hangs => (Pending, [EvFetchMetadata o r])
      end
  | LogInfo msg k => let x := run w k in (x.1, EvLog msg :: x.2)
  end.

Definition settle {A : Type} (w : World) (p : Prog A) : Outcome A := (run w p).1.

(** The remote calls a function issues. *)
Definition fetches {A : Type} (w : World) (p : Prog A) : list Event :=
  filter (fun e => isFetch e) (run w p).2.

(** ** The task *)

(** *** Typedefs *)

Record PresenceObj : Type := mkPresenceObj {
  date : string;          (* The date the proposal was last presented. *)
  url : option string     (* The URL of the presentation. Optional. *)
}.

Record ProposalRecord : Type := mkProposalRecord {
  id : string;
  authors : list string;
  champions : list string;
  description : JsVal;
  example : JsVal;
  has_specification : bool;
  presented : list PresenceObj;
  title : string;
  tests : option (list (option string))
}.

(** A row of the stage table; [tests] is the one cell the task looks for
    with [hasOwn] before it reads it. *)
Record ProposalStageTableRecord : Type := mkRow {
  proposal : string;
  author : string;
  champion : string;
  row_tests : option string;
  last_presented : string
}.

(** *** Requirements

    The packages the task imports.  Their code is not part of the
    repository, so the task is verified for every implementation of them. *)
Class Libs : Type := mkLibs {
  (** [sanitizeHtml(html, { allowedTags })] *)
  sanitizeHtml : string -> list string -> string;
  (** [mdTbl2json(table, cellFn, headerFn)] *)
  mdTbl2json : string -> (string -> string) -> (string -> string)
               -> list ProposalStageTableRecord;
  mdCodeSpans2html : string -> string;
  curlyQuote : string -> string;
  (** [yaml.load(text) as Array<ProposalRecord>]; [Thrown] when the text is
      no YAML document *)
  yaml_load : string -> Result (list DataRecord);
  (** [JSON.stringify], [JSON.parse] and [yaml.dump] *)
  Json : Type;
  JSON_stringify : list ProposalRecord -> string;
  JSON_parse : string -> Json;
  yaml_dump : Json -> string
}.

(** [toArray] of [@openinf/util-types]: the elements of an array-like value
    as an array, and the empty array for [null]. *)
Definition toArray {A : Type} (arrayLike : option (list A)) : list A :=
  match arrayLike with Some l => l | None => [] end.

(** [pathResolve(dir, file)], relative to the working directory. *)
Definition pathResolve (dir file : string) : string := dir +:+ "/" +:+ file.

Definition DIR_DATA : string := "_data".
Definition FILE_PROPOSAL_DATA : string := pathResolve DIR_DATA "stage3.yml".

(** [new RegExp(source, 'g')] as synchronous code. *)
Definition newRegExp (source : string) : Result RegExpObj :=
  match construct source true with
  | inr re => Ok re
  | inl BadPattern => Thrown (SyntaxError source)
  | inl OutsideModel => Thrown (PatternOutsideModel source)
  end.

Section Task.

Context {L : Libs}.

(** The upstream README, fetched once when the module is loaded. *)
Variable proposalsReadmeMd : string.

(** *** Helpers *)

Definition isFullRefLink (cellContents : string) : bool :=
  startsWith cellContents "[".

Definition getFullRefLinkContent (fullRefLink : string) (index : nat)
  : Result string :=
  let array := split fullRefLink "][" in
  match array !! index with
  | None => Thrown (TypeError "array[index] is undefined")
  | Some part =>
      if Nat.eqb index 0 then Ok (slice part 1 None)
      else Ok (slice part 0 (Some (-1)%Z))
  end.

(** The answer is the first capture of the first match; [None] is the
    [undefined] of a group that took no part in the match. *)
Definition getUrlFromDoc (linkTextLike : string) : Result (option string) :=
  linkTextLikeRegex ← newRegExp ("\[" +:+ linkTextLike +:+ ".*\]: (.*)");
  match (exec linkTextLikeRegex proposalsReadmeMd).1 with
  | None => Thrown (TypeError "null[1]")
  | Some array => Ok (default None (array !! 1))
  end.

(** [yaml.load(readFileSync(FILE_PROPOSAL_DATA, 'utf8'))] *)
Definition loadProposalData : Prog (list DataRecord) :=
  ReadFileSync FILE_PROPOSAL_DATA (fun text => lift (yaml_load text)).

(** The [forEach] of [getCodeSample]: [codeSample] starts as [null] and is
    overwritten at every record of the identifier. *)
Definition scanCodeSample (prpslData : list DataRecord) (prpslId : string)
  : JsVal :=
  foldl (fun codeSample value =>
           if hasOwn value "id" && strictEqStr (prop value "id") prpslId
           then if hasOwn value "example" then prop value "example"
                else JUndefined
           else codeSample)
        JNull prpslData.

Definition codeBlockSource : string := "```[a-z]*\n[\s\S]*?\n```\n".
Definition fenceSource : string := "```(.?)*?\n+".

Definition getCodeSample (prpslId : string) : Prog JsVal :=
  prpslData ← loadProposalData;
  let codeSample := scanCodeSample prpslData prpslId in
  if notNullish codeSample then Ret codeSample
  else
    FetchFileContents "tc39" prpslId "README.md" (fun contents =>
      codeBlockRegex ← lift (newRegExp codeBlockSource);
      let codeBlocks := toArray (exec codeBlockRegex contents).1 in
      if 0 <? length codeBlocks
      then match mjoin (last codeBlocks) with
           | Some block =>
               fenceRegex ← lift (newRegExp fenceSource);
               Ret (JStr (replace block fenceRegex ""))
           | None => Ret JUndefined
           end
      else Ret JUndefined).

Definition getPrpslId (linkTextLike : string) : Result string :=
  prpslUrl ← getUrlFromDoc linkTextLike;
  match prpslUrl with
  | None => Thrown (TypeError "undefined.endsWith")
  | Some prpslUrl =>
      let prpslUrl :=
        if endsWith prpslUrl "/" then slice prpslUrl 0 (Some (-1)%Z)
        else prpslUrl in
      Ok (match last (split prpslUrl "/") with
          | Some segment => toLowerCase segment
          | None => "undefined"
          end)
  end.

(** The [forEach] of [hasSpec] over the file listing. *)
Definition scanSpec (entries : list Entry) : bool :=
  foldl (fun isFound value =>
           if String.eqb (path value) "spec.html" then true else isFound)
        false entries.

Definition hasSpec (prpslId : string) : Prog bool :=
  FetchMetadata "tc39" prpslId (fun result =>
    Ret (scanSpec (data_entries result))).

Definition json2yaml (buffer : string) : string :=
  let src := JSON_parse buffer in
  yaml_dump src.

(** The [forEach] of [getShortDescription]: [description] starts out
    [undefined]. *)
Definition scanDescription (prpslData : list DataRecord) (prpslId : string)
  : JsVal :=
  foldl (fun description value =>
           if hasOwn value "id" && strictEqStr (prop value "id") prpslId
           then if hasOwn value "description" then prop value "description"
                else JUndefined
           else description)
        JUndefined prpslData.

Definition descriptionLine (prpslId : string) (description : JsVal) : string :=
  "Description for " +:+ curlyQuote prpslId +:+ ": " +:+ toStr description.

Definition getShortDescription (prpslId : string) : Prog JsVal :=
  prpslData ← loadProposalData;
  let description := scanDescription prpslData prpslId in
  description ←
    (if falsy description
     then FetchMetadata "tc39" prpslId (fun repoMetadata =>
            Ret (data_description repoMetadata))
     else Ret description);
  LogInfo (descriptionLine prpslId description) (Ret description).

Definition presenceObjFrom (valObj : ProposalStageTableRecord)
  : Result PresenceObj :=
  let lastPresentedVal := last_presented valObj in
  let lastPresentedVal := sanitizeHtml lastPresentedVal [] in
  if isFullRefLink lastPresentedVal
  then
    date ← getFullRefLinkContent lastPresentedVal 0;
    label ← getFullRefLinkContent lastPresentedVal 1;
    url ← getUrlFromDoc label;
    Ok (mkPresenceObj date url)
  else Ok (mkPresenceObj lastPresentedVal None).

(** *** Main *)

Definition tblSource : string :=
  "(### Stage 3\n\n)([.+?\s\S]+)(\n\n### Stage 2)".

(** The callbacks handed to [mdTbl2json] for the cells and for the headers. *)
Definition cellFn (val : string) : string := sanitizeHtml val ["code"; "br"].

Definition headerFn (val : string) : string :=
  sanitizeHtml (replaceFirst (toLowerCase val) " " "_") [].

Definition jsonTbl : Result (list ProposalStageTableRecord) :=
  tblRegex ← newRegExp tblSource;
  match (exec tblRegex proposalsReadmeMd).1 with
  | None => Thrown (TypeError "null[2]")
  | Some array =>
      match mjoin (array !! 2) with
      | Some markdownTbl => Ok (mdTbl2json markdownTbl cellFn headerFn)
      | None => Thrown (TypeError "no table")
      end
  end.

(** The [tests] property of a record. *)
Definition testsOf (value : ProposalStageTableRecord)
  : Result (option (list (option string))) :=
  match row_tests value with
  | Some cell =>
      if isFullRefLink cell
      then
        label ← getFullRefLinkContent cell 1;
        url ← getUrlFromDoc label;
        Ok (Some [url])
      else Ok None
  | None => Ok None
  end.

(** The asynchronous function mapped over the rows: the properties of the
    record are computed in the order the object literal lists them. *)
Definition prpslRcrdPromise (value : ProposalStageTableRecord)
  : Prog ProposalRecord :=
  label ← lift (getFullRefLinkContent (proposal value) 1);
  prpslRcrdId ← lift (getPrpslId label);
  let authors := split (author value) "<br />" in
  let champions := split (champion value) "<br />" in
  description ← getShortDescription prpslRcrdId;
  example ← getCodeSample prpslRcrdId;
  has_specification ← hasSpec prpslRcrdId;
  presence ← lift (presenceObjFrom value);
  text ← lift (getFullRefLinkContent (proposal value) 0);
  let title := mdCodeSpans2html text in
  tests ← lift (testsOf value);
  Ret (mkProposalRecord prpslRcrdId authors champions description example
         has_specification [presence] title tests).

Definition prpslRcrdPromiseArr (rows : list ProposalStageTableRecord)
  : list (Prog ProposalRecord) :=
  prpslRcrdPromise <$> rows.

End Task.

(** *** Settling the rows and writing the file *)

(** One pending operation of an asynchronous function completes. *)
Definition step {A : Type} (w : World) (p : Prog A) : Prog A :=
  match p with
  | Ret _ | Throw _ => p
  | ReadFileSync file k =>
      match disk w !! file with
      | Some text => k text
      | None => Throw (IoError file)
      end
  | FetchFileContents o r f k =>
      match remoteFile w o r f with
      | Resolves text => k text
      | Rejects e => Throw e
      | Hangs => p
      end
  | FetchMetadata o r k =>
      match remoteMetadata w o r with
      | Resolves md => k md
      | Rejects e => Throw e
      | Hangs => p
      end
  | LogInfo _ k => k
  end.

(** The promises after the operations completed in the given order:
    [order] names, one completion at a time, the promise that moves on. *)
Definition completions {A : Type} (w : World) (order : list nat)
  (promises : list (Prog A)) : list (Prog A) :=
  foldl (fun pool i => alter (step w) i pool) promises order.

(** An entry of the array [Promise.allSettled] resolves to. *)
Inductive Settled (A : Type) : Type :=
| SFulfilled (value : A)
| SRejected (reason : Err).
Arguments SFulfilled {A} value.
Arguments SRejected {A} reason.

Definition settledOf {A : Type} (o : Outcome A) : option (Settled A) :=
  match o with
  | Fulfilled a => Some (SFulfilled a)
  | Rejected e => Some (SRejected e)
  | Pending => None
  end.

(** [Promise.allSettled(promises)]: once every promise has settled, the
    results in the order of the promises; [None] when one of them never
    settles.  What [order] left pending completes afterwards. *)
Definition allSettled {A : Type} (w : World) (order : list nat)
  (promises : list (Prog A)) : option (list (Settled A)) :=
  mapM (fun p => settledOf (settle w p)) (completions w order promises).

Section Write.

Context {L : Libs}.

(** The [forEach] of the handler: a fulfilled result is pushed, the first
    rejected one is thrown. *)
Fixpoint collect (results : list (Settled ProposalRecord))
  (data : list ProposalRecord) : Result (list ProposalRecord) :=
  match results with
  | [] => Ok data
  | SFulfilled value :: rest => collect rest (data ++ [value])
  | SRejected reason :: _ => Thrown (ErrorOf reason)
  end.

(** The handler up to its last statement: the buffer it is about to write. *)
Definition onSettled (results : list (Settled ProposalRecord)) : Result string :=
  data ← collect results [];
  let dataBuffer := JSON_stringify data in
  let resultBuffer := json2yaml dataBuffer in
  Ok resultBuffer.

(** A run: the disk it leaves, the calls of [writeFile] it made, and how
    the chain of the handler ended. *)
Record Run : Type := mkRun {
  run_disk : gmap string string;
  run_writes : list (string * string);
  run_outcome : Outcome unit
}.

(** The module once the upstream README is there.  [JSON.stringify],
    [json2yaml] and [writeFile] are taken to succeed: a write that fails is
    not modelled, so nothing here speaks of a handler that is rejected
    after [writeFile] was called. *)
Definition script (proposalsReadmeMd : string) (w : World) (order : list nat)
  : Run :=
  match jsonTbl proposalsReadmeMd with
  | Thrown e => mkRun (disk w) [] (Rejected e)
  | Ok rows =>
      match allSettled w order (prpslRcrdPromiseArr proposalsReadmeMd rows) with
      | None => mkRun (disk w) [] Pending
      | Some results =>
          match onSettled results with
          | Thrown e => mkRun (disk w) [] (Rejected e)
          | Ok resultBuffer =>
              mkRun (<[FILE_PROPOSAL_DATA := resultBuffer]> (disk w))
                [(FILE_PROPOSAL_DATA, resultBuffer)] (Fulfilled ())
          end
      end
  end.

(** The whole task, from the fetch of the upstream README on. *)
Definition main (w : World) (order : list nat) : Run :=
  match remoteFile w "tc39" "proposals" "README.md" with
  | Resolves proposalsReadmeMd => script proposalsReadmeMd w order
  | Rejects e => mkRun (disk w) [] (Rejected e)
  | Hangs => mkRun (disk w) [] Pending
  end.

End Write.

(** ** Stand-ins for the imported packages

    Simple implementations of the imported packages, used to run the task
    on concrete inputs.  The properties below are proved for every
    implementation; these serve the examples only. *)

Module Demo.

(** Tags are dropped unless their name is allowed; text is kept as it is. *)
Fixpoint tagName (s : string) : string :=
  match s with
  | String c rest =>
      if isAlnum c then String c (tagName rest) else EmptyString
  | EmptyString => EmptyString
  end.

Fixpoint stripGo (allowed : list string) (s : string) (tag : option string)
  : string :=
  match s with
  | EmptyString => EmptyString
  | String c rest =>
      match tag with
      | Some t =>
          if Ascii.eqb c ">"
          then
            let whole := String.rev (String c t) in
            let name := tagName (match whole with
                                 | String _ (String "/" r) => r
                                 | String _ r => r
                                 | EmptyString => EmptyString
                                 end) in
            (if bool_decide (name ∈ allowed) then whole else EmptyString)
              +:+ stripGo allowed rest None
          else stripGo allowed rest (Some (String c t))
      | None =>
          if Ascii.eqb c "<" then stripGo allowed rest (Some (String c EmptyString))
          else String c (stripGo allowed rest None)
      end
  end.

Definition stripTags (html : string) (allowedTags : list string) : string :=
  stripGo allowedTags html None.

Fixpoint trimLeft (s : string) : string :=
  match s with
  | String " " rest => trimLeft rest
  | _ => s
  end.

Definition trim (s : string) : string :=
  String.rev (trimLeft (String.rev (trimLeft s))).

(** The cells of a table line [| a | b |]. *)
Definition cellsOf (line : string) : list string :=
  let parts := split (trim line) "|" in
  trim <$> take (length parts - 2) (drop 1 parts).

Definition rowOf (m : gmap string string) : ProposalStageTableRecord :=
  mkRow (default "" (m !! "proposal")) (default "" (m !! "author"))
    (default "" (m !! "champion")) (m !! "tests")
    (default "" (m !! "last_presented")).

(** A pipe table: a header line, a delimiter line, then the rows. *)
Definition tableRows (table : string) (cellFn headerFn : string -> string)
  : list ProposalStageTableRecord :=
  match split table nl with
  | header :: _ :: rows =>
      let keys := headerFn <$> cellsOf header in
      (fun line => rowOf (list_to_map (zip keys (cellFn <$> cellsOf line))))
        <$> rows
  | _ => []
  end.

Definition showRecord (r : ProposalRecord) : string :=
  "- id: " +:+ id r +:+ nl +:+ "  title: " +:+ title r +:+ nl.

Definition showRecords (data : list ProposalRecord) : string :=
  foldr (fun r acc => showRecord r +:+ acc) "" data.

(** The packages, with a YAML loader that answers [dataset] for any text. *)
Definition libs (dataset : list DataRecord) : Libs :=
  {| sanitizeHtml := stripTags;
     mdTbl2json := tableRows;
     mdCodeSpans2html := fun text => text;
     curlyQuote := fun text => "'" +:+ text +:+ "'";
     yaml_load := fun _ => Ok dataset;
     Json := string;
     JSON_stringify := showRecords;
     JSON_parse := fun text => text;
     yaml_dump := fun doc => doc |}.

(** Lines joined by line feeds, each one ended by a line feed. *)
Definition lines (ls : list string) : string :=
  foldr (fun l acc => l +:+ nl +:+ acc) "" ls.

End Demo.

(** ** Vocabulary of the specification *)

(** A record of the dataset is a record of the identifier. *)
Definition isRecordOf (prpslId : string) (value : DataRecord) : bool :=
  hasOwn value "id" && strictEqStr (prop value "id") prpslId.

(** What a record stores under a key; [undefined] when it has no such key. *)
Definition storedField (key : string) (value : DataRecord) : JsVal :=
  if hasOwn value key then prop value key else JUndefined.

(** What the rows of a table settle to, each on its own. *)
Definition settledRows {L : Libs} (proposalsReadmeMd : string) (w : World)
  (rows : list ProposalStageTableRecord)
  : option (list (Settled ProposalRecord)) :=
  mapM (fun value => settledOf (settle w (prpslRcrdPromise proposalsReadmeMd value)))
       rows.

(** Every occurrence of a one-character pattern replaced. *)
Fixpoint replaceEveryChar (s : string) (pat : ascii) (rep : string) : string :=
  match s with
  | EmptyString => EmptyString
  | String c s' =>
      (if Ascii.eqb c pat then rep else String c EmptyString)
        +:+ replaceEveryChar s' pat rep
  end.

(** The header normalisation in the words of the specification: lower-cased,
    spaces replaced with underscores, HTML-stripped. *)
Definition headerFn_asSpecified {L : Libs} (val : string) : string :=
  sanitizeHtml (replaceEveryChar (toLowerCase val) " " "_") [].

(** The last fenced code block of a text, in the words of the
    specification: of all the matches of the block pattern, the last one. *)
Fixpoint allMatches (fuel : nat) (r : regex) (s : string) : list string :=
  match fuel with
  | O => []
  | S f =>
      match search r 0 s with
      | None => []
      | Some m =>
          let stop := m_index m + String.length (m_text m) in
          m_text m ::
            allMatches f r (sub s (Nat.max stop 1) (String.length s))
      end
  end.

(** The two patterns of [getCodeSample], parsed. *)
Definition codeBlockPattern : regex :=
  Eval vm_compute in
    match parse codeBlockSource with inr (r, _) => r | inl _ => REmpty end.

Definition fencePattern : regex :=
  Eval vm_compute in
    match parse fenceSource with inr (r, _) => r | inl _ => REmpty end.

(** The code sample of a README in the words of the specification: the last
    fenced block, its fence markers stripped; absent when there is none. *)
Definition codeSample_asSpecified (contents : string) : JsVal :=
  match construct codeBlockSource true, construct fenceSource true with
  | inr codeBlockRegex, inr fenceRegex =>
      match last (allMatches (S (String.length contents))
                    (re_pattern codeBlockRegex) contents) with
      | Some block => JStr (replace block fenceRegex "")
      | None => JUndefined
      end
  | _, _ => JUndefined
  end.

(** ** Reference definitions, without patterns *)

(** A character that stands for itself in a pattern. *)
Definition plainChar (c : ascii) : bool :=
  negb (existsb (Ascii.eqb c) (list_ascii_of_string "\^$.*+?()[]{}|")).

Fixpoint plainLabel (label : string) : bool :=
  match label with
  | EmptyString => true
  | String c rest => plainChar c && plainLabel rest
  end.

Definition isLineTerminator (c : ascii) : bool := Ascii.eqb c LF || Ascii.eqb c CR.

(** The line a text starts with, and the text from the end of that line. *)
Fixpoint restOfLine (s : string) : string :=
  match s with
  | EmptyString => EmptyString
  | String c s' => if isLineTerminator c then EmptyString else String c (restOfLine s')
  end.

Fixpoint afterLine (s : string) : string :=
  match s with
  | EmptyString => EmptyString
  | String c s' => if isLineTerminator c then s else afterLine s'
  end.

(** [s] without its first [n] characters. *)
Fixpoint dropStr (n : nat) (s : string) : string :=
  match n, s with
  | S n', String _ s' => dropStr n' s'
  | _, _ => s
  end.

(** What follows the last []: ] of the line a text starts with. *)
Fixpoint afterLastMark (s : string) : option string :=
  match s with
  | EmptyString => None
  | String c s' =>
      if isLineTerminator c then None
      else match afterLastMark s' with
           | Some target => Some target
           | None => if isPrefix "]: " s then Some (restOfLine (dropStr 3 s)) else None
           end
  end.

(** The lookup of a link label written out on strings: at the first place
    of the document where [[label] is read and whose line goes on with
    []: ], the text that follows the last []: ] of that line. *)
Fixpoint lookupDefinition (label doc : string) : option string :=
  let here :=
    if isPrefix ("[" +:+ label) doc
    then afterLastMark (dropStr (String.length ("[" +:+ label)) doc)
    else None in
  match here with
  | Some target => Some target
  | None =>
      match doc with
      | EmptyString => None
      | String _ doc' => lookupDefinition label doc'
      end
  end.

(** The characters that start a quantifier, and a text that starts with
    none of them. *)
Definition quantChar (c : ascii) : bool :=
  existsb (Ascii.eqb c) (list_ascii_of_string "*+?{").

Definition headOk (s : string) : bool :=
  match s with
  | EmptyString => true
  | String d _ => negb (quantChar d)
  end.

(** The pattern the lookup searches with when the label is plain. *)
Fixpoint lits (l : string) (r : regex) : regex :=
  match l with
  | EmptyString => r
  | String c l' => RSeq (RChar c) (lits l' r)
  end.

Definition markPattern (k : regex) : regex :=
  RSeq (RSet false [CRange "]" "]"]) (RSeq (RChar ":") (RSeq (RChar " ") k)).

Definition targetPattern : regex :=
  RSeq (RGroup 1 (RSeq (RQuant 0 None true RDot) REmpty)) REmpty.

Definition urlPattern (label : string) : regex :=
  RSeq (RSet false [CRange "[" "["])
    (lits label (RSeq (RQuant 0 None true RDot) (markPattern targetPattern))).

(** The greedy repetition of [.] before a continuation [k]: the longest
    stretch of the line first, then one character less at a time. *)
Fixpoint greedyDot (k : Continuation) (s : string) (cs : caps)
  : option MatchState :=
  match s with
  | EmptyString => k s cs
  | String c s' =>
      if isLineTerminator c then k s cs
      else match greedyDot k s' cs with
           | Some st => Some st
           | None => k s cs
           end
  end.

(** ** Inputs of the examples *)

Module Inputs.

Import Demo.

(** An upstream README with a stage 3 table of two rows. *)
Definition readme : string := lines [
  "# ECMAScript proposals"; "";
  "### Stage 3"; "";
  "| Proposal | Author | Champion | Tests | Last Presented |";
  "|---|---|---|---|---|";
  "| [Foo bar][foo] | A<br />B | C | [Tests][foo-tests] | <sub>[December 2019][foo-notes]</sub> |";
  "| [Baz][baz] | D | E<br />F | none yet | <sub>September 2020</sub> |";
  ""; "### Stage 2"; "";
  "[foo]: https://github.com/tc39/proposal-Foo/";
  "[foo-tests]: https://github.com/tc39/test262/tree/main/test/foo";
  "[foo-notes]: https://github.com/tc39/notes/blob/main/foo.md";
  "[baz]: https://github.com/tc39/proposal-baz"].

(** Its two rows, as the table extraction hands them over. *)
Definition rowFoo : ProposalStageTableRecord :=
  mkRow "[Foo bar][foo]" "A<br />B" "C" (Some "[Tests][foo-tests]")
    "[December 2019][foo-notes]".

Definition rowBaz : ProposalStageTableRecord :=
  mkRow "[Baz][baz]" "D" "E<br />F" (Some "none yet") "September 2020".

(** The same rows with the markup of their last cell still in place. *)
Definition rawRowFoo : ProposalStageTableRecord :=
  mkRow "[Foo bar][foo]" "A<br />B" "C" (Some "[Tests][foo-tests]")
    "<sub>[December 2019][foo-notes]</sub>".

Definition rawRowBaz : ProposalStageTableRecord :=
  mkRow "[Baz][baz]" "D" "E<br />F" (Some "none yet")
    "<sub>September 2020</sub>".

(** The README of a proposal, with two fenced code blocks. *)
Definition proposalReadme : string := lines [
  "# Foo bar"; "";
  "```js"; "first();"; "```"; "";
  "Some prose."; "";
  "```js"; "second();"; "```"].

Definition listing : Metadata :=
  mkMetadata [mkEntry "README.md"; mkEntry "spec.html"]
    (JStr "A description from the host").

Definition oldFile : string := "- id: proposal-foo" +:+ nl.

(** A host that answers every call. *)
Definition world : World :=
  mkWorld
    (fun owner repo file =>
       if String.eqb repo "proposals" then Resolves readme
       else Resolves proposalReadme)
    (fun owner repo => Resolves listing)
    {[ FILE_PROPOSAL_DATA := oldFile ]}.

(** The same host, but the metadata of [proposal-baz] cannot be fetched. *)
Definition worldBazDown : World :=
  mkWorld (remoteFile world)
    (fun owner repo =>
       if String.eqb repo "proposal-baz" then Rejects (IoError "HttpError: Not Found")
       else Resolves listing)
    (disk world).

(** A dataset whose record of [proposal-foo] has neither example nor
    description. *)
Definition bareRecord : DataRecord := {[ "id" := JStr "proposal-foo" ]}.

(** A dataset with two records of [proposal-foo]. *)
Definition olderRecord : DataRecord :=
  <[ "example" := JStr "older();" ]>
    (<[ "description" := JStr "Older text" ]> {[ "id" := JStr "proposal-foo" ]}).

Definition newerRecord : DataRecord :=
  <[ "example" := JStr "" ]>
    (<[ "description" := JStr "Newer text" ]> {[ "id" := JStr "proposal-foo" ]}).

(** A record of [proposal-baz] filled out by hand. *)
Definition bazRecord : DataRecord :=
  <[ "example" := JStr "baz();" ]>
    (<[ "description" := JStr "Baz text" ]> {[ "id" := JStr "proposal-baz" ]}).

(** The records the two rows resolve to in [world] with an empty dataset. *)
Definition recordFoo : ProposalRecord :=
  mkProposalRecord "proposal-foo" ["A"; "B"] ["C"]
    (JStr "A description from the host") (JStr ("first();" +:+ nl)) true
    [mkPresenceObj "December 2019"
       (Some "https://github.com/tc39/notes/blob/main/foo.md")]
    "Foo bar"
    (Some [Some "https://github.com/tc39/test262/tree/main/test/foo"]).

Definition recordBaz : ProposalRecord :=
  mkProposalRecord "proposal-baz" ["D"] ["E"; "F"]
    (JStr "A description from the host") (JStr ("first();" +:+ nl)) true
    [mkPresenceObj "September 2020" None] "Baz" None.

End Inputs.

(** ** Vocabulary of the further properties *)

(** A text without line terminator, and a text at the end of a line. *)
Fixpoint noBreak (s : string) : bool :=
  match s with
  | EmptyString => true
  | String c s' => negb (isLineTerminator c) && noBreak s'
  end.

Definition lineEnd (s : string) : bool :=
  match s with
  | EmptyString => true
  | String c _ => isLineTerminator c
  end.

(** A text whose last character ends a line, and a text after which a
    line starts. *)
Fixpoint endsWithBreak (s : string) : bool :=
  match s with
  | EmptyString => false
  | String c EmptyString => isLineTerminator c
  | String _ s' => endsWithBreak s'
  end.

Definition atLineStart (s : string) : bool :=
  match s with
  | EmptyString => true
  | _ => endsWithBreak s
  end.

(** How often a character occurs in a text. *)
Fixpoint countChar (c : ascii) (s : string) : nat :=
  match s with
  | EmptyString => 0
  | String d s' => (if Ascii.eqb c d then 1 else 0) + countChar c s'
  end.

(** The pattern of the stage 3 table, parsed. *)
Definition tblPattern : regex :=
  Eval vm_compute in
    match parse tblSource with inr (r, _) => r | inl _ => REmpty end.

(** The pattern of a literal text, a line feed being written [\n]. *)
Fixpoint literal (l : string) (r : regex) : regex :=
  match l with
  | EmptyString => r
  | String c l' =>
      RSeq (if Ascii.eqb c LF then RSet false [CRange LF LF] else RChar c)
           (literal l' r)
  end.

(** *** The stage 3 table, without patterns *)

Definition stage3Heading : string :=
  Eval cbv in "### Stage 3" +:+ nl +:+ nl.

Definition stage2Mark : string :=
  Eval cbv in nl +:+ nl +:+ "### Stage 2".

(** The class [[.+?\s\S]]. *)
Definition anyClass : list citem :=
  [CRange "." "."; CRange "+" "+"; CRange "?" "?"; CSpace false; CSpace true].

(** What a text holds before the last place where the stage 2 heading is
    read behind an empty line. *)
Fixpoint tableEnd (s : string) : option string :=
  match s with
  | EmptyString => None
  | String c s' =>
      match tableEnd s' with
      | Some t => Some (String c t)
      | None => if isPrefix stage2Mark s then Some EmptyString else None
      end
  end.

(** The table that starts at the head of a text: behind the stage 3
    heading and its empty line, one character at least and then the text
    up to the last stage 2 heading. *)
Definition tableAt (s : string) : option string :=
  if isPrefix stage3Heading s
  then match dropStr (String.length stage3Heading) s with
       | EmptyString => None
       | String c s' => String c <$> tableEnd s'
       end
  else None.

(** The table of a document: the one at the first place that has one. *)
Fixpoint stage3Table (doc : string) : option string :=
  match tableAt doc with
  | Some t => Some t
  | None =>
      match doc with
      | EmptyString => None
      | String _ doc' => stage3Table doc'
      end
  end.

(** The greedy repetition of a class that takes every character: the
    whole text first, then one character less at a time. *)
Fixpoint greedyAny (k : Continuation) (s : string) (cs : caps)
  : option MatchState :=
  match s with
  | EmptyString => k s cs
  | String c s' =>
      match greedyAny k s' cs with
      | Some st => Some st
      | None => k s cs
      end
  end.

(** *** The code sample, without patterns *)

(** The greedy and the lazy repetition of a class of characters before a
    continuation [k]. *)
Fixpoint greedyWhile (p : ascii -> bool) (k : Continuation) (s : string)
  (cs : caps) : option MatchState :=
  match s with
  | EmptyString => k s cs
  | String c s' =>
      if p c
      then match greedyWhile p k s' cs with
           | Some st => Some st
           | None => k s cs
           end
      else k s cs
  end.

Fixpoint lazyWhile (p : ascii -> bool) (k : Continuation) (s : string)
  (cs : caps) : option MatchState :=
  match k s cs with
  | Some st => Some st
  | None =>
      match s with
      | EmptyString => None
      | String c s' => if p c then lazyWhile p k s' cs else None
      end
  end.

(** The characters of a class as the matcher tests them. *)
Definition inClass (neg : bool) (items : list citem) (c : ascii) : bool :=
  xorb neg (existsb (inItem c) items).

(** A word of lower-case letters. *)
Fixpoint lowerWord (s : string) : bool :=
  match s with
  | EmptyString => true
  | String c s' => between 97 122 c && lowerWord s'
  end.

(** A text without the line feeds it starts with. *)
Fixpoint dropLineFeeds (s : string) : string :=
  match s with
  | EmptyString => EmptyString
  | String c s' => if Ascii.eqb LF c then dropLineFeeds s' else s
  end.

(** What follows the line feeds that end the first line of a text; nothing
    when the line ends otherwise. *)
Fixpoint afterLineFeeds (s : string) : option string :=
  match s with
  | EmptyString => None
  | String c s' =>
      if Ascii.eqb LF c then Some (dropLineFeeds s')
      else if isLineTerminator c then None
      else afterLineFeeds s'
  end.

Definition fenceMark : string := "```".

Definition closingFence : string :=
  Eval cbv in nl +:+ fenceMark +:+ nl.

(** ** More inputs of the examples *)

Module MoreInputs.

Import Demo.

(** The upstream README of [Inputs] up to its reference definitions. *)
Definition readmeHead : string := lines [
  "# ECMAScript proposals"; "";
  "### Stage 3"; "";
  "| Proposal | Author | Champion | Tests | Last Presented |";
  "|---|---|---|---|---|";
  "| [Foo bar][foo] | A<br />B | C | [Tests][foo-tests] | <sub>[December 2019][foo-notes]</sub> |";
  "| [Baz][baz] | D | E<br />F | none yet | <sub>September 2020</sub> |";
  ""; "### Stage 2"; "";
  "[foo]: https://github.com/tc39/proposal-Foo/";
  "[foo-tests]: https://github.com/tc39/test262/tree/main/test/foo"].

(** What follows the definition of [foo-notes] in that README. *)
Definition readmeEnd : string :=
  lines [""; "[baz]: https://github.com/tc39/proposal-baz"].

(** The reference definitions of that README. *)
Definition readmeTail : string := lines [
  "[foo]: https://github.com/tc39/proposal-Foo/";
  "[foo-tests]: https://github.com/tc39/test262/tree/main/test/foo";
  "[foo-notes]: https://github.com/tc39/notes/blob/main/foo.md";
  "[baz]: https://github.com/tc39/proposal-baz"].

(** A row whose last-presented cell is a bracketed note, not a link. *)
Definition rowTbd : ProposalStageTableRecord :=
  mkRow "[Foo bar][foo]" "A" "C" (Some "none yet") "<sub>[TBD]</sub>".

(** Two documents that define [foo] with and without a trailing slash. *)
Definition docSlash : string := "[foo]: https://github.com/tc39/Proposal-Foo/" +:+ nl.
Definition docNoSlash : string := "[foo]: https://github.com/tc39/Proposal-Foo" +:+ nl.

(** A host whose metadata calls reject, each with a reason of its own. *)
Definition worldDown : World :=
  mkWorld (remoteFile Inputs.world)
    (fun owner repo => Rejects (IoError ("HttpError: " +:+ repo)))
    (disk Inputs.world).

(** A host that rejects the metadata call of [proposal-foo] and never
    answers the one of [proposal-baz]. *)
Definition worldHang : World :=
  mkWorld (remoteFile Inputs.world)
    (fun owner repo =>
       if String.eqb repo "proposal-baz" then Hangs
       else Rejects (IoError ("HttpError: " +:+ repo)))
    (disk Inputs.world).


(** A host whose upstream README has no stage 3 section, and whose
    proposals have a README without code. *)
Definition worldPlain : World :=
  mkWorld
    (fun owner repo file =>
       if String.eqb repo "proposals" then Resolves ("# ECMAScript proposals" +:+ nl)
       else Resolves ("# Foo bar" +:+ nl +:+ "No code yet." +:+ nl))
    (remoteMetadata Inputs.world) (disk Inputs.world).

End MoreInputs.

(** * Properties *)

Example slice_demo :
  slice "[abc" 1 None = "abc" /\ slice "abc]" 0 (Some (-1)%Z) = "abc"
  /\ split "[a][b]" "][" = ["[a"; "b]"] /\ split "x<br />y" "<br />" = ["x"; "y"]
  /\ split "abc" "/" = ["abc"] /\ split "" "/" = [""]
  /\ replaceFirst "a b c" " " "_" = "a_b c"
  /\ toLowerCase "Last Presented" = "last presented"
  /\ endsWith "ab/" "/" = true.
Proof. repeat split; reflexivity. Qed.


(** ** Strings *)

Section StringFacts.

Lemma sapp_cons (c : ascii) (a b : string) :
  String c a +:+ b = String c (a +:+ b).
Proof. reflexivity. Qed.

Lemma sapp_nil_l (a : string) : "" +:+ a = a.
Proof. reflexivity. Qed.

Lemma sapp_nil_r (a : string) : a +:+ "" = a.
Proof. induction a as [|c a IH]; [reflexivity|]. rewrite sapp_cons, IH. reflexivity. Qed.

Lemma app_assoc_s (a b c : string) : (a +:+ b) +:+ c = a +:+ (b +:+ c).
Proof.
  induction a as [|x a IH]; [reflexivity|].
  rewrite !sapp_cons, IH. reflexivity.
Qed.

Lemma length_app_s (a b : string) :
  String.length (a +:+ b) = String.length a + String.length b.
Proof.
  induction a as [|x a IH]; [reflexivity|].
  rewrite sapp_cons. simpl. rewrite IH. reflexivity.
Qed.

Lemma substring_all (a : string) : String.substring 0 (String.length a) a = a.
Proof. induction a as [|x a IH]; [reflexivity|]. simpl. rewrite IH. reflexivity. Qed.

Lemma substring_head (a b : string) :
  String.substring 0 (String.length a) (a +:+ b) = a.
Proof.
  induction a as [|x a IH].
  - destruct b; reflexivity.
  - rewrite sapp_cons. simpl. rewrite IH. reflexivity.
Qed.

Lemma relIndex_nonneg (len : nat) (i : Z) :
  (0 <= i)%Z -> relIndex len i = Nat.min (Z.to_nat i) len.
Proof. intros H. unfold relIndex. destruct (Z.ltb_spec i 0); [lia|reflexivity]. Qed.

Lemma relIndex_neg (len : nat) (i : Z) :
  (i < 0)%Z -> relIndex len i = Z.to_nat (Z.max (Z.of_nat len + i) 0).
Proof. intros H. unfold relIndex. destruct (Z.ltb_spec i 0); [reflexivity|lia]. Qed.

(** [s.slice(1)] drops the first character. *)
Lemma slice_tail (c : ascii) (a : string) : slice (String c a) 1 None = a.
Proof.
  unfold slice, sub. rewrite relIndex_nonneg by lia. simpl String.length.
  replace (Nat.min (Z.to_nat 1) (S (String.length a))) with 1 by lia.
  replace (S (String.length a) - 1) with (String.length a) by lia.
  change (String.substring 0 (String.length a) a = a). apply substring_all.
Qed.

(** [s.slice(0, -1)] drops the last character. *)
Lemma slice_init (a : string) (c : ascii) :
  slice (a +:+ String c "") 0 (Some (-1)%Z) = a.
Proof.
  unfold slice, sub. rewrite relIndex_nonneg, relIndex_neg by lia.
  rewrite length_app_s. simpl String.length.
  replace (Nat.min (Z.to_nat 0) (String.length a + 1)) with 0 by lia.
  replace (Z.to_nat (Z.max (Z.of_nat (String.length a + 1) + -1) 0) - 0)
    with (String.length a) by lia.
  apply substring_head.
Qed.

(** Reading a text without separator, when a closing bracket follows it. *)
Lemma splitGo_text (t rest cur : string) :
  includes t "][" = false ->
  splitGo "][" (t +:+ String "]" rest) cur 0
  = splitGo "][" (String "]" rest) (cur +:+ t) 0.
Proof.
  revert cur. induction t as [|c t IH]; intros cur Hsep.
  - rewrite sapp_nil_r. reflexivity.
  - rewrite sapp_cons. cbn [includes] in Hsep.
    apply orb_false_iff in Hsep as [Hhere Htail].
    assert (Hpre : isPrefix "][" (String c (t +:+ String "]" rest)) = false).
    { cbn [isPrefix] in *. destruct (Ascii.eqb "]" c); [|reflexivity].
      destruct t as [|d t]; [reflexivity|].
      rewrite sapp_cons. cbn [isPrefix andb] in *.
      destruct (Ascii.eqb "[" d); [discriminate|reflexivity]. }
    cbn [splitGo]. rewrite Hpre. rewrite IH by exact Htail.
    rewrite app_assoc_s. reflexivity.
Qed.

(** [split] cuts a full reference link into its text and its label. *)
Lemma split_fullRefLink (text label : string) :
  includes text "][" = false -> includes label "][" = false ->
  split ("[" +:+ text +:+ "][" +:+ label +:+ "]") "]["
  = ["[" +:+ text; label +:+ "]"].
Proof.
  intros Ht Hl. unfold split.
  change ("[" +:+ text +:+ "][" +:+ label +:+ "]")
    with (String "[" (text +:+ String "]" (String "[" (label +:+ String "]" "")))).
  cbn [splitGo]. change (isPrefix "][" (String "[" ?x)) with false.
  cbv iota. rewrite splitGo_text by exact Ht.
  cbn [splitGo].
  change (isPrefix "][" (String "]" (String "[" ?x))) with true.
  cbv iota. cbn [String.length Nat.sub splitGo].
  rewrite splitGo_text by exact Hl.
  reflexivity.
Qed.

End StringFacts.


(** ** Effects *)

Section EffectFacts.

Context {A B : Type}.

Lemma settle_bind (w : World) (m : Prog A) (f : A -> Prog B) :
  settle w (m ≫= f)
  = match settle w m with
    | Fulfilled a => settle w (f a)
    | Rejected e => Rejected e
    | Pending => Pending
    end.
Proof.
  unfold settle, mbind, prog_bind.
  induction m as [a|e|file k IH|o r fl k IH|o r k IH|msg k IH]; simpl; try reflexivity.
  - destruct (disk w !! file); simpl; [apply IH|reflexivity].
  - destruct (remoteFile w o r fl); simpl; [apply IH|reflexivity..].
  - destruct (remoteMetadata w o r); simpl; [apply IH|reflexivity..].
  - apply IH.
Qed.

Lemma settle_lift (w : World) (r : Result A) :
  settle w (lift r)
  = match r with Ok a => Fulfilled a | Thrown e => Rejected e end.
Proof. destruct r; reflexivity. Qed.

(** A completion does not change how a promise settles. *)
Lemma settle_step (w : World) (p : Prog A) : settle w (step w p) = settle w p.
Proof.
  unfold settle. destruct p as [a|e|file k|o r fl k|o r k|msg k]; simpl; try reflexivity.
  - destruct (disk w !! file); reflexivity.
  - destruct (remoteFile w o r fl) eqn:E; simpl; rewrite ?E; reflexivity.
  - destruct (remoteMetadata w o r) eqn:E; simpl; rewrite ?E; reflexivity.
Qed.

Lemma mapM_alter (f : Prog A -> option B) (g : Prog A -> Prog A)
  (i : nat) (l : list (Prog A)) :
  (forall p, f (g p) = f p) -> mapM f (alter g i l) = mapM f l.
Proof.
  intros Hfg. revert i. induction l as [|p l IH]; intros [|i]; simpl; try reflexivity.
  - rewrite Hfg. reflexivity.
  - change (mapM f (list_alter g i l)) with (mapM f (alter g i l)).
    rewrite IH. reflexivity.
Qed.

End EffectFacts.

(** The order in which the pending operations complete has no bearing on
    what [Promise.allSettled] resolves to. *)
Lemma allSettled_any_order {A : Type} (w : World) (order : list nat)
  (promises : list (Prog A)) :
  allSettled w order promises
  = mapM (fun p => settledOf (settle w p)) promises.
Proof.
  unfold allSettled, completions. revert promises.
  induction order as [|i order IH]; intros promises; simpl; [reflexivity|].
  rewrite IH. apply mapM_alter. intros p. rewrite settle_step. reflexivity.
Qed.

(** ** The scans of the local dataset *)

Lemma scanCodeSample_app (xs ys : list DataRecord) (prpslId : string) :
  scanCodeSample (xs ++ ys) prpslId
  = foldl (fun codeSample value =>
             if isRecordOf prpslId value then storedField "example" value
             else codeSample)
          (scanCodeSample xs prpslId) ys.
Proof. unfold scanCodeSample. rewrite foldl_app. reflexivity. Qed.

Lemma scanDescription_app (xs ys : list DataRecord) (prpslId : string) :
  scanDescription (xs ++ ys) prpslId
  = foldl (fun description value =>
             if isRecordOf prpslId value then storedField "description" value
             else description)
          (scanDescription xs prpslId) ys.
Proof. unfold scanDescription. rewrite foldl_app. reflexivity. Qed.

(** Records of other identifiers leave the scanned value as it is. *)
Lemma scan_others (key : string) (prpslId : string) (ys : list DataRecord)
  (v : JsVal) :
  Forall (fun value => isRecordOf prpslId value = false) ys ->
  foldl (fun acc value =>
           if isRecordOf prpslId value then storedField key value else acc)
        v ys = v.
Proof.
  intros Hys. revert v. induction Hys as [|y ys Hy _ IH]; intros v; simpl.
  - reflexivity.
  - rewrite Hy. apply IH.
Qed.

Lemma scanCodeSample_last (before after : list DataRecord)
  (value : DataRecord) (prpslId : string) :
  isRecordOf prpslId value = true ->
  Forall (fun v => isRecordOf prpslId v = false) after ->
  scanCodeSample (before ++ value :: after) prpslId = storedField "example" value.
Proof.
  intros Hv Hafter. rewrite scanCodeSample_app. simpl. rewrite Hv.
  apply scan_others. exact Hafter.
Qed.

Lemma scanDescription_last (before after : list DataRecord)
  (value : DataRecord) (prpslId : string) :
  isRecordOf prpslId value = true ->
  Forall (fun v => isRecordOf prpslId v = false) after ->
  scanDescription (before ++ value :: after) prpslId
  = storedField "description" value.
Proof.
  intros Hv Hafter. rewrite scanDescription_app. simpl. rewrite Hv.
  apply scan_others. exact Hafter.
Qed.

Lemma storedField_lookup (key : string) (value : DataRecord) (v : JsVal) :
  value !! key = Some v -> storedField key value = v.
Proof.
  intros H. unfold storedField, hasOwn, prop. rewrite H. reflexivity.
Qed.


(** ** Local values of the dataset *)

(** An earlier record of the identifier does not count, whatever it holds. *)
Example earlier_record_overwritten :
  scanCodeSample [Inputs.olderRecord; Inputs.bareRecord] "proposal-foo"
    = JUndefined
  /\ scanDescription [Inputs.olderRecord; Inputs.bareRecord] "proposal-foo"
    = JUndefined.
Proof. split; reflexivity. Qed.

Section LocalFirst.

Context {L : Libs}.
Variables (w : World) (text : string) (prpslData : list DataRecord).
Hypothesis Hfile : disk w !! FILE_PROPOSAL_DATA = Some text.
Hypothesis Hload : yaml_load text = Ok prpslData.

(** What the two resolvers do once the dataset is loaded. *)
Lemma run_getCodeSample_local (prpslId : string) :
  notNullish (scanCodeSample prpslData prpslId) = true ->
  run w (getCodeSample prpslId)
  = (Fulfilled (scanCodeSample prpslData prpslId), [EvRead FILE_PROPOSAL_DATA]).
Proof.
  intros Hv. unfold getCodeSample, loadProposalData, mbind, prog_bind.
  cbn [progBind run]. rewrite Hfile, Hload. cbn [lift progBind].
  rewrite Hv. reflexivity.
Qed.

Lemma run_getShortDescription_local (prpslId : string) :
  falsy (scanDescription prpslData prpslId) = false ->
  run w (getShortDescription prpslId)
  = (Fulfilled (scanDescription prpslData prpslId),
     [EvRead FILE_PROPOSAL_DATA;
      EvLog (descriptionLine prpslId (scanDescription prpslData prpslId))]).
Proof.
  intros Hv. unfold getShortDescription, loadProposalData, mbind, prog_bind.
  cbn [progBind run]. rewrite Hfile, Hload. cbn [lift progBind].
  rewrite Hv. reflexivity.
Qed.

Lemma run_getShortDescription_remote (prpslId : string) (md : Metadata) :
  falsy (scanDescription prpslData prpslId) = true ->
  remoteMetadata w "tc39" prpslId = Resolves md ->
  run w (getShortDescription prpslId)
  = (Fulfilled (data_description md),
     [EvRead FILE_PROPOSAL_DATA; EvFetchMetadata "tc39" prpslId;
      EvLog (descriptionLine prpslId (data_description md))]).
Proof.
  intros Hv Hmd. unfold getShortDescription, loadProposalData, mbind, prog_bind.
  cbn [progBind run]. rewrite Hfile, Hload. cbn [lift progBind].
  rewrite Hv. cbn [progBind run]. rewrite Hmd. reflexivity.
Qed.

Lemma newRegExp_codeBlock :
  newRegExp codeBlockSource = Ok (mkRegExp codeBlockPattern 0 true 0).
Proof. vm_compute. reflexivity. Qed.

Lemma newRegExp_fence :
  newRegExp fenceSource = Ok (mkRegExp fencePattern 1 true 0).
Proof. vm_compute. reflexivity. Qed.

(** Without a usable local value, the code sample is made of the leftmost
    match of the block pattern in the README, and of nothing else; it is
    absent when the pattern matches nowhere. *)
Lemma run_getCodeSample_remote (prpslId contents : string) :
  notNullish (scanCodeSample prpslData prpslId) = false ->
  remoteFile w "tc39" prpslId "README.md" = Resolves contents ->
  run w (getCodeSample prpslId)
  = (Fulfilled
       match search codeBlockPattern 0 contents with
       | Some m =>
           JStr (replace (m_text m) (mkRegExp fencePattern 1 true 0) "")
       | None => JUndefined
       end,
     [EvRead FILE_PROPOSAL_DATA; EvFetchFile "tc39" prpslId "README.md"]).
Proof.
  intros Hv Hfetch. unfold getCodeSample, loadProposalData, mbind, prog_bind.
  cbn [progBind run]. rewrite Hfile, Hload. cbn [lift progBind].
  rewrite Hv. cbn [run]. rewrite Hfetch.
  rewrite newRegExp_codeBlock. cbn [lift progBind].
  unfold exec. cbn [re_global re_lastIndex re_pattern re_groups].
  change (String.length contents <? 0) with false. cbv iota.
  unfold sub. rewrite Nat.sub_0_r, substring_all.
  destruct (search codeBlockPattern 0 contents) as [m|]; [|reflexivity].
  cbn [fst toArray matchArray]. rewrite newRegExp_fence. reflexivity.
Qed.

End LocalFirst.

(** C1, as amended.  When the last record of an identifier in the local
    dataset stores a string as its example, the empty string included, the
    code sample is exactly that string and nothing is fetched; when it
    stores a non-empty string as its description, the short description is
    exactly that string and nothing is fetched.  When the stored
    description is absent, null or empty, the short description is fetched
    from the metadata of the repository instead. *)
Theorem local_value_wins {L : Libs} (w : World) (text : string)
  (before after : list DataRecord) (value : DataRecord) (prpslId : string) :
  disk w !! FILE_PROPOSAL_DATA = Some text ->
  yaml_load text = Ok (before ++ value :: after) ->
  isRecordOf prpslId value = true ->
  Forall (fun v => isRecordOf prpslId v = false) after ->
  (forall s, value !! "example" = Some (JStr s) ->
     run w (getCodeSample prpslId)
     = (Fulfilled (JStr s), [EvRead FILE_PROPOSAL_DATA]))
  /\ (forall s, value !! "description" = Some (JStr s) -> s <> "" ->
     run w (getShortDescription prpslId)
     = (Fulfilled (JStr s),
        [EvRead FILE_PROPOSAL_DATA; EvLog (descriptionLine prpslId (JStr s))]))
  /\ (forall md, falsy (storedField "description" value) = true ->
     remoteMetadata w "tc39" prpslId = Resolves md ->
     run w (getShortDescription prpslId)
     = (Fulfilled (data_description md),
        [EvRead FILE_PROPOSAL_DATA; EvFetchMetadata "tc39" prpslId;
         EvLog (descriptionLine prpslId (data_description md))])).
Proof.
  intros Hfile Hload Hv Hafter.
  pose proof (scanCodeSample_last before after value prpslId Hv Hafter) as Hex.
  pose proof (scanDescription_last before after value prpslId Hv Hafter) as Hde.
  repeat split.
  - intros s Hs. apply storedField_lookup in Hs.
    rewrite (run_getCodeSample_local w text _ Hfile Hload prpslId);
      rewrite Hex, Hs; reflexivity.
  - intros s Hs Hne. apply storedField_lookup in Hs.
    rewrite (run_getShortDescription_local w text _ Hfile Hload prpslId);
      rewrite Hde, Hs; [reflexivity|].
    simpl. apply String.eqb_neq. exact Hne.
  - intros md Hfalsy Hmd.
    apply (run_getShortDescription_remote w text _ Hfile Hload prpslId md);
      [rewrite Hde; exact Hfalsy | exact Hmd].
Qed.

Lemma local_value_wins_witness :
  run Inputs.world
    (getCodeSample (L := Demo.libs [Inputs.olderRecord; Inputs.newerRecord])
       "proposal-foo")
  = (Fulfilled (JStr ""), [EvRead FILE_PROPOSAL_DATA]).
Proof.
  apply (proj1 (local_value_wins (L := Demo.libs [Inputs.olderRecord; Inputs.newerRecord])
                  Inputs.world Inputs.oldFile [Inputs.olderRecord] []
                  Inputs.newerRecord "proposal-foo"
                  eq_refl eq_refl eq_refl (Forall_nil_2 _))).
  reflexivity.
Defined.

(** C1 as it is stated fails: the record of [proposal-foo] stores no
    description, and the short description is not that absent value but
    the one of the host, which is fetched. *)
Lemma local_value_wins_counterexample :
  isRecordOf "proposal-foo" Inputs.bareRecord = true
  /\ storedField "description" Inputs.bareRecord = JUndefined
  /\ ~ (settle Inputs.world
          (getShortDescription (L := Demo.libs [Inputs.bareRecord]) "proposal-foo")
        = Fulfilled (storedField "description" Inputs.bareRecord)
        /\ fetches Inputs.world
             (getShortDescription (L := Demo.libs [Inputs.bareRecord]) "proposal-foo")
           = []).
Proof.
  split; [reflexivity|]. split; [reflexivity|].
  intros [Hval _]. vm_compute in Hval. discriminate Hval.
Qed.

(** ** The last record of an identifier *)

(** C10. When the dataset holds several records of one identifier, both
    resolvers take their local value from the last such record, whatever
    the records before it hold.  [getCodeSample] answers the example stored
    there when it is neither absent nor null, without a fetch, and takes
    the sample from the README of the proposal otherwise;
    [getShortDescription] answers the description stored there when it is
    not falsy, without a fetch, and takes the one of the host otherwise. *)
Theorem last_matching_record_wins {L : Libs} (w : World) (text : string)
  (before after : list DataRecord) (value : DataRecord) (prpslId : string) :
  disk w !! FILE_PROPOSAL_DATA = Some text ->
  yaml_load text = Ok (before ++ value :: after) ->
  isRecordOf prpslId value = true ->
  Forall (fun v => isRecordOf prpslId v = false) after ->
  (notNullish (storedField "example" value) = true ->
   run w (getCodeSample prpslId)
   = (Fulfilled (storedField "example" value), [EvRead FILE_PROPOSAL_DATA]))
  /\ (forall contents,
        notNullish (storedField "example" value) = false ->
        remoteFile w "tc39" prpslId "README.md" = Resolves contents ->
        run w (getCodeSample prpslId)
        = (Fulfilled
             match search codeBlockPattern 0 contents with
             | Some m =>
                 JStr (replace (m_text m) (mkRegExp fencePattern 1 true 0) "")
             | None => JUndefined
             end,
           [EvRead FILE_PROPOSAL_DATA; EvFetchFile "tc39" prpslId "README.md"]))
  /\ (falsy (storedField "description" value) = false ->
      run w (getShortDescription prpslId)
      = (Fulfilled (storedField "description" value),
         [EvRead FILE_PROPOSAL_DATA;
          EvLog (descriptionLine prpslId (storedField "description" value))]))
  /\ (forall md,
        falsy (storedField "description" value) = true ->
        remoteMetadata w "tc39" prpslId = Resolves md ->
        run w (getShortDescription prpslId)
        = (Fulfilled (data_description md),
           [EvRead FILE_PROPOSAL_DATA; EvFetchMetadata "tc39" prpslId;
            EvLog (descriptionLine prpslId (data_description md))])).
Proof.
  intros Hfile Hload Hv Hafter.
  pose proof (scanCodeSample_last before after value prpslId Hv Hafter) as Hex.
  pose proof (scanDescription_last before after value prpslId Hv Hafter) as Hde.
  split; [|split; [|split]].
  - intros Hlocal.
    rewrite (run_getCodeSample_local w text _ Hfile Hload prpslId);
      rewrite Hex; [reflexivity|exact Hlocal].
  - intros contents Hlocal Hfetch.
    apply (run_getCodeSample_remote w text _ Hfile Hload prpslId contents);
      [rewrite Hex; exact Hlocal|exact Hfetch].
  - intros Hlocal.
    rewrite (run_getShortDescription_local w text _ Hfile Hload prpslId);
      rewrite Hde; [reflexivity|exact Hlocal].
  - intros md Hlocal Hmd.
    apply (run_getShortDescription_remote w text _ Hfile Hload prpslId md);
      [rewrite Hde; exact Hlocal|exact Hmd].
Qed.

Lemma last_matching_record_wins_witness :
  run Inputs.world
    (getCodeSample
       (L := Demo.libs [Inputs.olderRecord; Inputs.bareRecord; Inputs.newerRecord])
       "proposal-foo")
  = (Fulfilled (JStr ""), [EvRead FILE_PROPOSAL_DATA])
  /\ run Inputs.world
       (getShortDescription
          (L := Demo.libs [Inputs.olderRecord; Inputs.bareRecord; Inputs.newerRecord])
          "proposal-foo")
     = (Fulfilled (JStr "Newer text"),
        [EvRead FILE_PROPOSAL_DATA;
         EvLog (descriptionLine
                  (L := Demo.libs [Inputs.olderRecord; Inputs.bareRecord;
                                   Inputs.newerRecord])
                  "proposal-foo" (JStr "Newer text"))]).
Proof.
  destruct (last_matching_record_wins
              (L := Demo.libs [Inputs.olderRecord; Inputs.bareRecord;
                               Inputs.newerRecord])
              Inputs.world Inputs.oldFile
              [Inputs.olderRecord; Inputs.bareRecord] [] Inputs.newerRecord
              "proposal-foo" eq_refl eq_refl eq_refl (Forall_nil_2 _))
    as (Hexample & _ & Hdescription & _).
  split; [exact (Hexample eq_refl)|exact (Hdescription eq_refl)].
Defined.

(** ** Code samples fetched from a README *)

(** The block pattern has no capture group, so the array that [exec]
    answers holds the one match it found and nothing else. *)
Lemma codeBlocks_at_most_one (codeBlockRegex : RegExpObj) (contents : string) :
  newRegExp codeBlockSource = Ok codeBlockRegex ->
  length (toArray (exec codeBlockRegex contents).1) <= 1.
Proof.
  intros Hre. vm_compute in Hre. injection Hre as <-.
  unfold exec. cbn [re_global re_lastIndex re_groups re_pattern].
  destruct (if String.length contents <? 0 then None else search _ 0 _);
    simpl; lia.
Qed.

(** [search] answers the leftmost match: the pattern matches where the
    answer starts and at no place before it. *)
Lemma search_leftmost (r : regex) (s : string) (pos : nat) (m : MatchResult) :
  search r pos s = Some m ->
  pos <= m_index m
  /\ matchAt r (dropStr (m_index m - pos) s) <> None
  /\ forall i, i < m_index m - pos -> matchAt r (dropStr i s) = None.
Proof.
  revert pos. induction s as [|c s IH]; intros pos; cbn [search].
  - destruct (matchAt r "") as [[rest cs]|] eqn:Hm; [|discriminate].
    intros H. injection H as <-. cbn [m_index].
    rewrite Nat.sub_diag. cbn [dropStr]. rewrite Hm.
    split; [lia|]. split; [discriminate|]. intros i Hi. lia.
  - destruct (matchAt r (String c s)) as [[rest cs]|] eqn:Hm.
    + intros H. injection H as <-. cbn [m_index].
      rewrite Nat.sub_diag. cbn [dropStr]. rewrite Hm.
      split; [lia|]. split; [discriminate|]. intros i Hi. lia.
    + intros H. destruct (IH _ H) as (Hle & Hat & Hbefore).
      split; [lia|].
      replace (m_index m - pos) with (S (m_index m - S pos)) by lia.
      cbn [dropStr]. split; [exact Hat|].
      intros [|i] Hi; [exact Hm|]. cbn [dropStr]. apply Hbefore. lia.
Qed.

(** C2. The code at the failing input: the dataset has no record of the
    identifier, the README of the proposal has two fenced code blocks, and
    the code sample is the first block, where the claim (and the comment
    above [getCodeSample]) promise the last one. *)
Theorem getCodeSample_takes_first_block :
  run Inputs.world (getCodeSample (L := Demo.libs []) "proposal-foo")
  = (Fulfilled (JStr ("first();" +:+ nl)),
     [EvRead FILE_PROPOSAL_DATA; EvFetchFile "tc39" "proposal-foo" "README.md"])
  /\ codeSample_asSpecified Inputs.proposalReadme = JStr ("second();" +:+ nl).
Proof. split; vm_compute; reflexivity. Qed.

(** Without any fenced block the code sample is absent, and nothing is
    raised. *)
Example getCodeSample_no_block :
  settle (mkWorld (fun _ _ _ => Resolves "No code here.")
            (remoteMetadata Inputs.world) (disk Inputs.world))
    (getCodeSample (L := Demo.libs []) "proposal-foo")
  = Fulfilled JUndefined.
Proof. vm_compute. reflexivity. Qed.

(** ** Header normalisation *)

(** C4. The code at the failing input: of the two spaces of the header
    [Last Time Presented] only the first becomes an underscore, where the
    claim has every space replaced.  The cells are sanitised with the
    allow-list [code], [br], as claimed. *)
Theorem headerFn_replaces_first_space_only :
  (forall L : Libs,
     headerFn (L := L) "Last Time Presented"
       = sanitizeHtml "last_time presented" []
     /\ headerFn_asSpecified (L := L) "Last Time Presented"
       = sanitizeHtml "last_time_presented" []
     /\ forall val, cellFn (L := L) val = sanitizeHtml val ["code"; "br"])
  /\ headerFn (L := Demo.libs []) "Last Time Presented" = "last_time presented"
  /\ headerFn_asSpecified (L := Demo.libs []) "Last Time Presented"
     = "last_time_presented".
Proof.
  split; [intros L; repeat split|split; vm_compute; reflexivity].
Qed.

(** With at most one space in the header, the code does what is claimed. *)
Example headerFn_one_space :
  headerFn (L := Demo.libs []) "<sub>Last Presented</sub>" = "last_presented".
Proof. vm_compute. reflexivity. Qed.

(** ** Specification presence *)

Lemma scanSpec_fold (entries : list Entry) (isFound : bool) :
  foldl (fun isFound value =>
           if String.eqb (path value) "spec.html" then true else isFound)
        isFound entries
  = isFound || existsb (fun value => String.eqb (path value) "spec.html") entries.
Proof.
  revert isFound. induction entries as [|e entries IH]; intros isFound; simpl.
  - rewrite orb_false_r. reflexivity.
  - rewrite IH. destruct (String.eqb (path e) "spec.html"), isFound; reflexivity.
Qed.

Lemma scanSpec_true (entries : list Entry) :
  scanSpec entries = true
  <-> exists e, In e entries /\ path e = "spec.html".
Proof.
  unfold scanSpec. rewrite scanSpec_fold. simpl. rewrite existsb_exists.
  split; intros [e [Hin He]]; exists e; split; try exact Hin;
    apply String.eqb_eq; exact He.
Qed.

(** C5. Once the file listing of the repository is there, [hasSpec]
    answers true if and only if the listing has an entry whose path is
    exactly [spec.html]. *)
Theorem hasSpec_iff_spec_html (w : World) (prpslId : string) (result : Metadata) :
  remoteMetadata w "tc39" prpslId = Resolves result ->
  exists isFound,
    run w (hasSpec prpslId)
      = (Fulfilled isFound, [EvFetchMetadata "tc39" prpslId])
    /\ (isFound = true
        <-> exists e, In e (data_entries result) /\ path e = "spec.html").
Proof.
  intros Hmd. exists (scanSpec (data_entries result)). split.
  - unfold hasSpec. cbn [run]. rewrite Hmd. reflexivity.
  - apply scanSpec_true.
Qed.

Lemma hasSpec_iff_spec_html_witness :
  exists isFound,
    run Inputs.world (hasSpec "proposal-foo")
      = (Fulfilled isFound, [EvFetchMetadata "tc39" "proposal-foo"])
    /\ (isFound = true
        <-> exists e, In e (data_entries Inputs.listing) /\ path e = "spec.html").
Proof.
  exact (hasSpec_iff_spec_html Inputs.world "proposal-foo" Inputs.listing eq_refl).
Defined.

(** A listing with [spec/index.html] only, and an empty one, have no
    specification. *)
Example hasSpec_other_paths :
  scanSpec [mkEntry "spec/index.html"] = false
  /\ scanSpec [mkEntry "README.md"; mkEntry "Spec.html"] = false
  /\ scanSpec [] = false
  /\ scanSpec [mkEntry "README.md"; mkEntry "spec.html"; mkEntry "LICENSE"] = true.
Proof. repeat split; reflexivity. Qed.

(** ** Identifier resolution *)

(** Every resolution searches with a RegExp object of its own, whose
    [lastIndex] is 0. *)
Lemma newRegExp_fresh (source : string) (re : RegExpObj) :
  newRegExp source = Ok re -> re_lastIndex re = 0 /\ re_global re = true.
Proof.
  unfold newRegExp, construct. destruct (parse source) as [[]|[r n]];
    intros H; inversion H; split; reflexivity.
Qed.

(** C9. Resolving a link-label prefix twice against the same document,
    one resolution after the other, is resolving it once: both resolutions
    end the same way, with the same identifier when they succeed. *)
Theorem getPrpslId_idempotent (proposalsReadmeMd linkTextLike : string) :
  (first ← getPrpslId proposalsReadmeMd linkTextLike;
   second ← getPrpslId proposalsReadmeMd linkTextLike;
   mret (first, second))
  = (first ← getPrpslId proposalsReadmeMd linkTextLike; mret (first, first)).
Proof.
  destruct (getPrpslId proposalsReadmeMd linkTextLike) as [prpslId|e];
    reflexivity.
Qed.

Example getPrpslId_demo :
  getPrpslId Inputs.readme "foo" = Ok "proposal-foo"
  /\ getPrpslId Inputs.readme "baz" = Ok "proposal-baz"
  /\ getPrpslId Inputs.readme "nowhere" = Thrown (TypeError "null[1]")
  /\ getPrpslId Inputs.readme "(" = Thrown (SyntaxError "\[(.*\]: (.*)").
Proof. repeat split; vm_compute; reflexivity. Qed.

(** A RegExp object shared by two searches would not answer twice the
    same: the second search starts where the first one ended. *)
Example shared_regexp_remembers :
  forall re, newRegExp "\[foo.*\]: (.*)" = Ok re ->
  (exec re Inputs.readme).1
    = Some [Some "[foo]: https://github.com/tc39/proposal-Foo/";
            Some "https://github.com/tc39/proposal-Foo/"]
  /\ (exec (exec re Inputs.readme).2 Inputs.readme).1
    = Some [Some "[foo-tests]: https://github.com/tc39/test262/tree/main/test/foo";
            Some "https://github.com/tc39/test262/tree/main/test/foo"].
Proof.
  intros re H. vm_compute in H. injection H as <-. split; vm_compute; reflexivity.
Qed.

(** ** The lookup of a plain label *)

Lemma between_same (a d : ascii) :
  between (nat_of_ascii a) (nat_of_ascii a) d = Ascii.eqb a d.
Proof.
  unfold between. destruct (Ascii.eqb_spec a d) as [->|Hne].
  - rewrite Nat.leb_refl. reflexivity.
  - destruct (Nat.leb_spec (nat_of_ascii a) (nat_of_ascii d)) as [H1|H1];
      [|reflexivity].
    destruct (Nat.leb_spec (nat_of_ascii d) (nat_of_ascii a)) as [H2|H2];
      [|reflexivity].
    exfalso. apply Hne.
    rewrite <- (ascii_nat_embedding a), <- (ascii_nat_embedding d).
    f_equal. lia.
Qed.

Lemma dot_class (c : ascii) :
  existsb (inItem c) [CRange LF LF; CRange CR CR] = isLineTerminator c.
Proof.
  unfold isLineTerminator. simpl. rewrite !between_same, orb_false_r.
  rewrite (Ascii.eqb_sym LF c), (Ascii.eqb_sym CR c). reflexivity.
Qed.

Lemma clearCaps_none (cs : caps) : clearCaps [] cs = cs.
Proof.
  unfold clearCaps. induction cs as [|p cs IH]; [reflexivity|].
  simpl. f_equal. exact IH.
Qed.

(** The repetition of [.] is the greedy walk along the line. *)
Lemma repeat_dot (k : Continuation) (s : string) (cs : caps) (fuel : nat) :
  String.length s < fuel ->
  repeatMatcher (rmatch RDot) [] true k fuel 0 None s cs = greedyDot k s cs.
Proof.
  revert s. induction fuel as [|fuel IH]; intros s Hlen; [lia|].
  cbn [repeatMatcher Nat.eqb negb andb]. rewrite clearCaps_none.
  destruct s as [|c s]; [reflexivity|].
  unfold RDot at 1. cbn [rmatch greedyDot]. rewrite dot_class.
  destruct (isLineTerminator c); [reflexivity|]. cbn [xorb negb].
  replace (String.length s =? String.length (String c s)) with false
    by (symmetry; apply Nat.eqb_neq; simpl; lia).
  cbn [Nat.pred fmap option_fmap option_map].
  rewrite IH by (simpl in Hlen; lia). reflexivity.
Qed.

(** A run of literal characters is read as a prefix. *)
Lemma rmatch_lits (l : string) (r : regex) (s : string) (cs : caps)
  (k : Continuation) :
  rmatch (lits l r) s cs k
  = if isPrefix l s then rmatch r (dropStr (String.length l) s) cs k else None.
Proof.
  revert s. induction l as [|c l IH]; intros s.
  - destruct s; reflexivity.
  - destruct s as [|d s]; [reflexivity|]. cbn [lits rmatch isPrefix].
    destruct (Ascii.eqb c d); [|reflexivity]. rewrite IH. reflexivity.
Qed.

Lemma restOfLine_afterLine (s : string) : restOfLine s +:+ afterLine s = s.
Proof.
  induction s as [|c s IH]; [reflexivity|]. simpl.
  destruct (isLineTerminator c); [reflexivity|].
  rewrite sapp_cons, IH. reflexivity.
Qed.

Lemma consumed_line (s : string) : consumed s (afterLine s) = restOfLine s.
Proof.
  unfold consumed, sub. rewrite <- (restOfLine_afterLine s) at 1 3.
  rewrite length_app_s.
  replace (String.length (restOfLine s) + String.length (afterLine s)
           - String.length (afterLine s) - 0)
    with (String.length (restOfLine s)) by lia.
  apply substring_head.
Qed.

(** When the continuation takes whatever it is given, the repetition reads
    the whole line. *)
Lemma greedyDot_total (f : string -> caps -> MatchState) (s : string) (cs : caps) :
  greedyDot (fun s' cs' => Some (f s' cs')) s cs = Some (f (afterLine s) cs).
Proof.
  induction s as [|c s IH]; [reflexivity|]. simpl.
  destruct (isLineTerminator c); [reflexivity|]. rewrite IH. reflexivity.
Qed.

(** The target of a definition: the group reads the rest of the line. *)
Lemma rmatch_target (s : string) (cs : caps) :
  rmatch targetPattern s cs (fun s' cs' => Some (s', cs'))
  = Some (afterLine s, (1, restOfLine s) :: cs).
Proof.
  unfold targetPattern. cbn [rmatch]. rewrite repeat_dot by lia.
  rewrite (greedyDot_total (fun s' cs' => (s', (1, consumed s s') :: cs'))).
  rewrite consumed_line. reflexivity.
Qed.

Lemma rmatch_mark (s : string) (cs : caps) :
  rmatch (markPattern targetPattern) s cs (fun s' cs' => Some (s', cs'))
  = if isPrefix "]: " s
    then Some (afterLine (dropStr 3 s), (1, restOfLine (dropStr 3 s)) :: cs)
    else None.
Proof.
  unfold markPattern.
  destruct s as [|a s]; [reflexivity|]. cbn [rmatch isPrefix existsb inItem xorb].
  rewrite between_same, orb_false_r.
  destruct (Ascii.eqb "]" a); [|reflexivity].
  destruct s as [|b s]; [reflexivity|]. cbn [rmatch isPrefix].
  destruct (Ascii.eqb ":" b); [|reflexivity].
  destruct s as [|c s]; [reflexivity|]. cbn [rmatch isPrefix].
  destruct (Ascii.eqb " " c); [|reflexivity].
  cbn [andb dropStr]. apply rmatch_target.
Qed.

(** Behind [[label], the pattern finds what follows the last mark of the
    line. *)
Lemma greedyDot_mark (s : string) (cs : caps) :
  match afterLastMark s with
  | Some target =>
      exists rest,
        greedyDot (fun s' cs' =>
                     rmatch (markPattern targetPattern) s' cs'
                       (fun s'' cs'' => Some (s'', cs''))) s cs
        = Some (rest, (1, target) :: cs)
  | None =>
      greedyDot (fun s' cs' =>
                   rmatch (markPattern targetPattern) s' cs'
                     (fun s'' cs'' => Some (s'', cs''))) s cs
      = None
  end.
Proof.
  induction s as [|c s IH]; [reflexivity|].
  cbn [afterLastMark greedyDot].
  destruct (isLineTerminator c) eqn:Hc.
  - rewrite rmatch_mark. cbn [isPrefix].
    destruct (Ascii.eqb_spec "]" c) as [<-|]; [discriminate Hc|reflexivity].
  - destruct (afterLastMark s) as [target|].
    + destruct IH as [rest ->]. exists rest. reflexivity.
    + rewrite IH, rmatch_mark.
      destruct (isPrefix "]: " (String c s)); [eexists; reflexivity|reflexivity].
Qed.

Lemma matchAt_urlPattern (label s : string) :
  match (if isPrefix ("[" +:+ label) s
         then afterLastMark (dropStr (String.length ("[" +:+ label)) s)
         else None) with
  | Some target =>
      exists rest, matchAt (urlPattern label) s = Some (rest, [(1, target)])
  | None => matchAt (urlPattern label) s = None
  end.
Proof.
  unfold matchAt, urlPattern.
  change ("[" +:+ label) with (String "[" label).
  destruct s as [|a s]; [reflexivity|].
  cbn [rmatch isPrefix existsb inItem xorb String.length dropStr].
  rewrite between_same, orb_false_r.
  destruct (Ascii.eqb "[" a); [|reflexivity]. cbn [andb].
  rewrite rmatch_lits. destruct (isPrefix label s); [|reflexivity].
  cbn [rmatch]. rewrite repeat_dot by lia.
  apply greedyDot_mark.
Qed.

(** The search with the pattern is the lookup on strings. *)
Lemma search_urlPattern (label doc : string) (pos : nat) :
  match lookupDefinition label doc with
  | Some target =>
      exists m, search (urlPattern label) pos doc = Some m
                /\ getCap 1 (m_caps m) = Some target
  | None => search (urlPattern label) pos doc = None
  end.
Proof.
  revert pos. induction doc as [|c doc IH]; intros pos.
  - cbn [lookupDefinition search].
    pose proof (matchAt_urlPattern label "") as H.
    destruct (if isPrefix ("[" +:+ label) "" then _ else None) as [target|].
    + destruct H as [rest ->]. eexists. split; reflexivity.
    + rewrite H. reflexivity.
  - cbn [lookupDefinition search].
    pose proof (matchAt_urlPattern label (String c doc)) as H.
    destruct (if isPrefix ("[" +:+ label) (String c doc) then _ else None)
      as [target|].
    + destruct H as [rest ->]. eexists. split; reflexivity.
    + rewrite H. apply IH.
Qed.

(** *** Parsing the pattern of a plain label *)

Ltac each_char c :=
  destruct c as [[] [] [] [] [] [] [] []].

Lemma plain_not_quant (c : ascii) : plainChar c = true -> quantChar c = false.
Proof. each_char c; intros H; first [reflexivity | discriminate H]. Qed.

Lemma parseAtom_plain (f : nat) (c : ascii) (rest : string) (n : nat) :
  plainChar c = true ->
  parseAtom (S f) (String c rest) n = inr (RChar c, rest, n).
Proof. each_char c; intros H; first [reflexivity | discriminate H]. Qed.

Lemma parseQuant_none (a : regex) (d : ascii) (rest : string) :
  quantChar d = false -> parseQuant a (String d rest) = inr (a, String d rest).
Proof. each_char d; intros H; first [reflexivity | discriminate H]. Qed.

Lemma parseAlt_plain (f : nat) (c : ascii) (rest : string) (n : nat) :
  plainChar c = true ->
  parseAlt (S f) (String c rest) n
  = match parseAtom f (String c rest) n with
    | inl e => inl e
    | inr (a, rest1, n1) =>
        match parseQuant a rest1 with
        | inl e => inl e
        | inr (t, rest2) =>
            match parseAlt f rest2 n1 with
            | inl e => inl e
            | inr (more, rest3, n2) => inr (RSeq t more, rest3, n2)
            end
        end
    end.
Proof. each_char c; intros H; first [reflexivity | discriminate H]. Qed.

Lemma parseQuant_headOk (a : regex) (s : string) :
  headOk s = true -> parseQuant a s = inr (a, s).
Proof.
  destruct s as [|d s]; [reflexivity|]. simpl. intros H.
  apply parseQuant_none. destruct (quantChar d); [discriminate H|reflexivity].
Qed.

Lemma headOk_plain (label tail : string) :
  plainLabel label = true -> headOk tail = true -> headOk (label +:+ tail) = true.
Proof.
  destruct label as [|c label]; [intros _ H; exact H|].
  cbn [plainLabel]. intros H _. apply andb_true_iff in H as [Hc _].
  rewrite sapp_cons. simpl. rewrite (plain_not_quant c Hc). reflexivity.
Qed.

Lemma parseAlt_lits (label : string) (f : nat) (tail : string) (n : nat) :
  plainLabel label = true -> headOk tail = true ->
  parseAlt (String.length label + S f) (label +:+ tail) n
  = match parseAlt (S f) tail n with
    | inr (r, rest, n') => inr (lits label r, rest, n')
    | inl e => inl e
    end.
Proof.
  intros Hplain Htail. induction label as [|c label IH].
  - cbn [String.length Nat.add lits]. rewrite sapp_nil_l.
    destruct (parseAlt (S f) tail n) as [e|[[r rest] n']]; reflexivity.
  - cbn [plainLabel] in Hplain. apply andb_true_iff in Hplain as [Hc Hl].
    rewrite sapp_cons. cbn [String.length Nat.add].
    rewrite (parseAlt_plain _ c _ n Hc).
    rewrite Nat.add_succ_r. rewrite (parseAtom_plain _ c _ n Hc).
    rewrite parseQuant_headOk by (apply headOk_plain; assumption).
    rewrite <- Nat.add_succ_r. rewrite (IH Hl).
    destruct (parseAlt (S f) tail n) as [e|[[r rest] n']]; reflexivity.
Qed.

Lemma parse_urlPattern (label : string) :
  plainLabel label = true ->
  parse ("\[" +:+ label +:+ ".*\]: (.*)") = inr (urlPattern label, 1).
Proof.
  intros Hplain. unfold parse.
  replace (4 * String.length ("\[" +:+ label +:+ ".*\]: (.*)") + 4)
    with (S (S (String.length label + S (20 + (3 * String.length label + 29))))).
  2:{ rewrite !length_app_s. simpl String.length. lia. }
  change ("\[" +:+ label +:+ ".*\]: (.*)")
    with (String "\" (String "[" (label +:+ ".*\]: (.*)"))).
  cbn [parseDisj parseAlt].
  rewrite Nat.add_succ_r. cbn [parseAtom].
  change (isDigit "[" || Ascii.eqb "[" "b" || Ascii.eqb "[" "B") with false.
  cbv iota. change (parseEscape "[") with (@inr PatternError _ [CRange "[" "["]).
  cbv iota.
  rewrite parseQuant_headOk by (apply headOk_plain; [assumption|reflexivity]).
  rewrite <- Nat.add_succ_r.
  rewrite (parseAlt_lits label _ ".*\]: (.*)" 0 Hplain eq_refl).
  reflexivity.
Qed.

(** For a plain label the lookup with the pattern is the lookup written
    out on strings: it answers what follows the last []: ] on the first
    line that reads [[label] and then []: ], and throws when there is no
    such line. *)
Lemma getUrlFromDoc_plain (proposalsReadmeMd linkTextLike : string) :
  plainLabel linkTextLike = true ->
  getUrlFromDoc proposalsReadmeMd linkTextLike
  = match lookupDefinition linkTextLike proposalsReadmeMd with
    | Some target => Ok (Some target)
    | None => Thrown (TypeError "null[1]")
    end.
Proof.
  intros Hplain. unfold getUrlFromDoc, newRegExp, construct.
  rewrite (parse_urlPattern _ Hplain). cbn [mbind result_bind].
  unfold exec. cbn [re_global re_lastIndex re_pattern re_groups].
  change (String.length proposalsReadmeMd <? 0) with false. cbv iota.
  unfold sub. rewrite Nat.sub_0_r, substring_all.
  pose proof (search_urlPattern linkTextLike proposalsReadmeMd 0) as H.
  destruct (lookupDefinition linkTextLike proposalsReadmeMd) as [target|].
  - destruct H as (m & -> & Hcap). cbn [fst]. unfold matchArray.
    simpl. rewrite Hcap. reflexivity.
  - rewrite H. reflexivity.
Qed.

(** ** Full reference links *)

Lemma getFullRefLinkContent_fullRefLink (text label : string) :
  includes text "][" = false -> includes label "][" = false ->
  getFullRefLinkContent ("[" +:+ text +:+ "][" +:+ label +:+ "]") 0 = Ok text
  /\ getFullRefLinkContent ("[" +:+ text +:+ "][" +:+ label +:+ "]") 1 = Ok label.
Proof.
  intros Ht Hl. unfold getFullRefLinkContent.
  rewrite split_fullRefLink by assumption. split; simpl.
  - change ("[" +:+ text) with (String "[" text). rewrite slice_tail. reflexivity.
  - change (label +:+ "]") with (label +:+ String "]" "").
    rewrite slice_init. reflexivity.
Qed.

Lemma isFullRefLink_bracket (rest : string) : isFullRefLink ("[" +:+ rest) = true.
Proof. reflexivity. Qed.

(** C7. Once the cell is stripped of its HTML, a full reference link
    [[text][label]] gives the link text as the date and, as the URL, what
    the lookup of the label in the document answers: for a plain label, the
    target of the first line that reads [[label] and then []: ].  A value
    that does not start with an opening bracket is the date as a whole,
    with no URL. *)
Theorem presenceObjFrom_classifies {L : Libs} (proposalsReadmeMd : string)
  (valObj : ProposalStageTableRecord) :
  (forall text label,
     sanitizeHtml (last_presented valObj) []
       = "[" +:+ text +:+ "][" +:+ label +:+ "]" ->
     includes text "][" = false -> includes label "][" = false ->
     presenceObjFrom proposalsReadmeMd valObj
     = (url ← getUrlFromDoc proposalsReadmeMd label;
        Ok (mkPresenceObj text url))
     /\ (plainLabel label = true ->
         presenceObjFrom proposalsReadmeMd valObj
         = match lookupDefinition label proposalsReadmeMd with
           | Some target => Ok (mkPresenceObj text (Some target))
           | None => Thrown (TypeError "null[1]")
           end))
  /\ (isFullRefLink (sanitizeHtml (last_presented valObj) []) = false ->
      presenceObjFrom proposalsReadmeMd valObj
      = Ok (mkPresenceObj (sanitizeHtml (last_presented valObj) []) None)).
Proof.
  split.
  - intros text label Hcell Ht Hl.
    assert (Hlink : presenceObjFrom proposalsReadmeMd valObj
                    = (url ← getUrlFromDoc proposalsReadmeMd label;
                       Ok (mkPresenceObj text url))).
    { unfold presenceObjFrom. rewrite Hcell, isFullRefLink_bracket.
      destruct (getFullRefLinkContent_fullRefLink text label Ht Hl) as [-> ->].
      reflexivity. }
    split; [exact Hlink|]. intros Hplain.
    rewrite Hlink, (getUrlFromDoc_plain _ _ Hplain).
    destruct (lookupDefinition label proposalsReadmeMd); reflexivity.
  - intros Hplain. unfold presenceObjFrom. rewrite Hplain. reflexivity.
Qed.

Lemma presenceObjFrom_classifies_witness :
  presenceObjFrom (L := Demo.libs []) Inputs.readme Inputs.rawRowFoo
  = Ok (mkPresenceObj "December 2019"
          (Some "https://github.com/tc39/notes/blob/main/foo.md"))
  /\ presenceObjFrom (L := Demo.libs []) Inputs.readme Inputs.rawRowBaz
  = Ok (mkPresenceObj "September 2020" None).
Proof.
  split.
  - exact (proj2 (proj1 (presenceObjFrom_classifies (L := Demo.libs [])
                           Inputs.readme Inputs.rawRowFoo)
                    "December 2019" "foo-notes" eq_refl eq_refl eq_refl)
             eq_refl).
  - exact (proj2 (presenceObjFrom_classifies (L := Demo.libs [])
                    Inputs.readme Inputs.rawRowBaz) eq_refl).
Defined.

(** ** The record of a row *)

Ltac invert_chain H :=
  repeat (rewrite settle_bind in H; rewrite ?settle_lift in H;
          match type of H with
          | context [match ?r with Ok _ => _ | Thrown _ => _ end] =>
              destruct r eqn:?; try discriminate H
          | context [match settle ?w ?p with
                     | Fulfilled _ => _ | Rejected _ => _ | Pending => _
                     end] =>
              destruct (settle w p) eqn:?; try discriminate H
          end).

(** A fulfilled record, property by property. *)
Lemma prpslRcrdPromise_fulfilled {L : Libs} (proposalsReadmeMd : string)
  (w : World) (value : ProposalStageTableRecord) (rcrd : ProposalRecord) :
  settle w (prpslRcrdPromise proposalsReadmeMd value) = Fulfilled rcrd ->
  exists label text presence,
    getFullRefLinkContent (proposal value) 1 = Ok label
    /\ getPrpslId proposalsReadmeMd label = Ok (id rcrd)
    /\ authors rcrd = split (author value) "<br />"
    /\ champions rcrd = split (champion value) "<br />"
    /\ settle w (getShortDescription (id rcrd)) = Fulfilled (description rcrd)
    /\ settle w (getCodeSample (id rcrd)) = Fulfilled (example rcrd)
    /\ settle w (hasSpec (id rcrd)) = Fulfilled (has_specification rcrd)
    /\ presenceObjFrom proposalsReadmeMd value = Ok presence
    /\ presented rcrd = [presence]
    /\ getFullRefLinkContent (proposal value) 0 = Ok text
    /\ title rcrd = mdCodeSpans2html text
    /\ testsOf proposalsReadmeMd value = Ok (tests rcrd).
Proof.
  unfold prpslRcrdPromise. intros H. invert_chain H.
  injection H as <-. simpl. eauto 20.
Qed.

Lemma testsOf_fullRefLink {L : Libs} (proposalsReadmeMd : string)
  (value : ProposalStageTableRecord) (text label : string) :
  row_tests value = Some ("[" +:+ text +:+ "][" +:+ label +:+ "]") ->
  includes text "][" = false -> includes label "][" = false ->
  testsOf proposalsReadmeMd value
  = (url ← getUrlFromDoc proposalsReadmeMd label; Ok (Some [url])).
Proof.
  intros Hcell Ht Hl. unfold testsOf. rewrite Hcell, isFullRefLink_bracket.
  destruct (getFullRefLinkContent_fullRefLink text label Ht Hl) as [_ ->].
  reflexivity.
Qed.

(** C8. In the record of a row, [tests] is a list of one element, what the
    lookup of the link label answers (for a plain label, the target of its
    definition line), when the tests cell is a full reference link
    [[text][label]]; it is absent when the cell does not start as a link. *)
Theorem tests_field_of_record {L : Libs} (proposalsReadmeMd : string)
  (w : World) (value : ProposalStageTableRecord) (rcrd : ProposalRecord) :
  settle w (prpslRcrdPromise proposalsReadmeMd value) = Fulfilled rcrd ->
  (forall text label,
     row_tests value = Some ("[" +:+ text +:+ "][" +:+ label +:+ "]") ->
     includes text "][" = false -> includes label "][" = false ->
     exists url, getUrlFromDoc proposalsReadmeMd label = Ok url
                 /\ tests rcrd = Some [url]
                 /\ (plainLabel label = true ->
                     url = lookupDefinition label proposalsReadmeMd))
  /\ (forall cell,
        row_tests value = Some cell -> isFullRefLink cell = false ->
        tests rcrd = None).
Proof.
  intros Hrcrd.
  destruct (prpslRcrdPromise_fulfilled _ _ _ _ Hrcrd)
    as (_ & _ & _ & _ & _ & _ & _ & _ & _ & _ & _ & _ & _ & _ & Htests).
  split.
  - intros text label Hcell Ht Hl.
    rewrite (testsOf_fullRefLink _ _ text label Hcell Ht Hl) in Htests.
    destruct (getUrlFromDoc proposalsReadmeMd label) as [url|e] eqn:Hurl;
      [|discriminate].
    exists url. split; [reflexivity|]. split.
    + injection Htests as <-. reflexivity.
    + intros Hplain. rewrite (getUrlFromDoc_plain _ _ Hplain) in Hurl.
      destruct (lookupDefinition label proposalsReadmeMd); congruence.
  - intros cell Hcell Hplain. unfold testsOf in Htests.
    rewrite Hcell, Hplain in Htests. injection Htests as <-. reflexivity.
Qed.

Lemma tests_field_of_record_witness :
  (exists url, getUrlFromDoc Inputs.readme "foo-tests" = Ok url
               /\ tests Inputs.recordFoo = Some [url]
               /\ (plainLabel "foo-tests" = true ->
                   url = lookupDefinition "foo-tests" Inputs.readme))
  /\ tests Inputs.recordBaz = None.
Proof.
  assert (Hfoo : settle Inputs.world
                   (prpslRcrdPromise (L := Demo.libs []) Inputs.readme Inputs.rowFoo)
                 = Fulfilled Inputs.recordFoo) by (vm_compute; reflexivity).
  assert (Hbaz : settle Inputs.world
                   (prpslRcrdPromise (L := Demo.libs []) Inputs.readme Inputs.rowBaz)
                 = Fulfilled Inputs.recordBaz) by (vm_compute; reflexivity).
  split.
  - exact (proj1 (tests_field_of_record Inputs.readme Inputs.world
                    Inputs.rowFoo Inputs.recordFoo Hfoo)
             "Tests" "foo-tests" eq_refl eq_refl eq_refl).
  - exact (proj2 (tests_field_of_record Inputs.readme Inputs.world
                    Inputs.rowBaz Inputs.recordBaz Hbaz)
             "none yet" eq_refl eq_refl).
Defined.

(** ** Settling and writing *)

Section WriteFacts.

Context {L : Libs}.

Lemma collect_fulfilled (values data : list ProposalRecord) :
  collect (SFulfilled <$> values) data = Ok (data ++ values).
Proof.
  revert data. induction values as [|v values IH]; intros data; simpl.
  - rewrite app_nil_r. reflexivity.
  - rewrite IH, <- app_assoc. reflexivity.
Qed.

Lemma collect_Ok (results : list (Settled ProposalRecord))
  (data data' : list ProposalRecord) :
  collect results data = Ok data' ->
  exists values, results = SFulfilled <$> values /\ data' = data ++ values.
Proof.
  revert data. induction results as [|[v|e] results IH]; intros data H; simpl in H.
  - injection H as <-. exists []. rewrite app_nil_r. split; reflexivity.
  - destruct (IH _ H) as (values & -> & ->). exists (v :: values).
    rewrite <- app_assoc. split; reflexivity.
  - discriminate H.
Qed.

Lemma mapM_fmap {X Y Z : Type} (f : Y -> option Z) (g : X -> Y) (l : list X) :
  mapM f (g <$> l) = mapM (fun x => f (g x)) l.
Proof.
  induction l as [|x l IH]; simpl; [reflexivity|].
  change (mapM f (list_fmap X Y g l)) with (mapM f (g <$> l)).
  rewrite IH. reflexivity.
Qed.

Lemma allSettled_rows (proposalsReadmeMd : string) (w : World)
  (order : list nat) (rows : list ProposalStageTableRecord) :
  allSettled w order (prpslRcrdPromiseArr proposalsReadmeMd rows)
  = settledRows proposalsReadmeMd w rows.
Proof.
  rewrite allSettled_any_order. unfold prpslRcrdPromiseArr, settledRows.
  exact (mapM_fmap (fun p => settledOf (settle w p))
           (prpslRcrdPromise proposalsReadmeMd) rows).
Qed.

Lemma settledRows_Some (proposalsReadmeMd : string) (w : World)
  (rows : list ProposalStageTableRecord)
  (results : list (Settled ProposalRecord)) :
  settledRows proposalsReadmeMd w rows = Some results ->
  Forall2 (fun value result =>
             settledOf (settle w (prpslRcrdPromise proposalsReadmeMd value))
             = Some result) rows results.
Proof. unfold settledRows. intros H. apply mapM_Some_1 in H. exact H. Qed.

(** The three ways the module ends once the table is extracted. *)
Lemma script_cases (proposalsReadmeMd : string) (w : World) (order : list nat)
  (rows : list ProposalStageTableRecord) :
  jsonTbl proposalsReadmeMd = Ok rows ->
  script proposalsReadmeMd w order
  = match settledRows proposalsReadmeMd w rows with
    | None => mkRun (disk w) [] Pending
    | Some results =>
        match collect results [] with
        | Thrown e => mkRun (disk w) [] (Rejected e)
        | Ok data =>
            mkRun (<[FILE_PROPOSAL_DATA := json2yaml (JSON_stringify data)]> (disk w))
              [(FILE_PROPOSAL_DATA, json2yaml (JSON_stringify data))]
              (Fulfilled ())
        end
    end.
Proof.
  intros Hrows. unfold script. rewrite Hrows, allSettled_rows.
  destruct (settledRows proposalsReadmeMd w rows) as [results|]; [|reflexivity].
  unfold onSettled. destruct (collect results []); reflexivity.
Qed.

Lemma fulfilled_rows (proposalsReadmeMd : string) (w : World)
  (rows : list ProposalStageTableRecord) (data : list ProposalRecord) :
  Forall2 (fun value result =>
             settledOf (settle w (prpslRcrdPromise proposalsReadmeMd value))
             = Some result) rows (SFulfilled <$> data) ->
  Forall2 (fun value rcrd =>
             settle w (prpslRcrdPromise proposalsReadmeMd value)
             = Fulfilled rcrd) rows data.
Proof.
  revert rows. induction data as [|rcrd data IH]; intros rows H;
    inversion H as [|value ? rows' ? Hhead Htail]; subst; constructor.
  - destruct (settle w (prpslRcrdPromise proposalsReadmeMd value));
      simpl in Hhead; congruence.
  - apply IH. exact Htail.
Qed.

Lemma fulfilled_not_rejected (proposalsReadmeMd : string) (w : World)
  (rows : list ProposalStageTableRecord) (data : list ProposalRecord) :
  Forall2 (fun value rcrd =>
             settle w (prpslRcrdPromise proposalsReadmeMd value)
             = Fulfilled rcrd) rows data ->
  Exists (fun value =>
            exists e, settle w (prpslRcrdPromise proposalsReadmeMd value)
                      = Rejected e) rows ->
  False.
Proof.
  induction 1 as [|value rcrd rows data Hhead _ IH]; intros Hex.
  - inversion Hex.
  - inversion Hex as [? ? [e He]|? ? Htail]; subst; [congruence|].
    apply IH. exact Htail.
Qed.

Lemma fulfilled_every_row (proposalsReadmeMd : string) (w : World)
  (rows : list ProposalStageTableRecord) (data : list ProposalRecord) :
  Forall2 (fun value rcrd =>
             settle w (prpslRcrdPromise proposalsReadmeMd value)
             = Fulfilled rcrd) rows data ->
  Forall (fun value =>
            exists rcrd, settle w (prpslRcrdPromise proposalsReadmeMd value)
                         = Fulfilled rcrd) rows.
Proof. induction 1; constructor; eauto. Qed.

End WriteFacts.

(** C3. When the row of a table has a resolver chain that fails, [writeFile]
    is not called and the disk is left as it was; and [writeFile] is called
    only when the record of every row is fulfilled. *)
Theorem no_write_unless_every_row_resolves {L : Libs} (w : World)
  (order : list nat) (proposalsReadmeMd : string)
  (rows : list ProposalStageTableRecord) :
  remoteFile w "tc39" "proposals" "README.md" = Resolves proposalsReadmeMd ->
  jsonTbl proposalsReadmeMd = Ok rows ->
  (Exists (fun value =>
             exists e, settle w (prpslRcrdPromise proposalsReadmeMd value)
                       = Rejected e) rows ->
   run_writes (main w order) = [] /\ run_disk (main w order) = disk w)
  /\ (run_writes (main w order) <> [] ->
      Forall (fun value =>
                exists rcrd, settle w (prpslRcrdPromise proposalsReadmeMd value)
                             = Fulfilled rcrd) rows).
Proof.
  intros Hreadme Hrows. unfold main. rewrite Hreadme.
  rewrite (script_cases _ _ _ _ Hrows).
  destruct (settledRows proposalsReadmeMd w rows) as [results|] eqn:Hset.
  - apply settledRows_Some in Hset.
    destruct (collect results []) as [data|e] eqn:Hcol.
    + apply collect_Ok in Hcol as (values & -> & ->). simpl app.
      apply fulfilled_rows in Hset as Hall. split.
      * intros Hex. exfalso. exact (fulfilled_not_rejected _ _ _ _ Hall Hex).
      * intros _. exact (fulfilled_every_row _ _ _ _ Hall).
    + split; [intros _; split; reflexivity|intros Hw; destruct Hw; reflexivity].
  - split; [intros _; split; reflexivity|intros Hw; destruct Hw; reflexivity].
Qed.


Lemma no_write_unless_every_row_resolves_witness :
  run_writes (main (L := Demo.libs [Inputs.bazRecord]) Inputs.worldBazDown [1; 0; 1])
    = []
  /\ run_disk (main (L := Demo.libs [Inputs.bazRecord]) Inputs.worldBazDown [1; 0; 1])
    = disk Inputs.worldBazDown.
Proof.
  assert (Hrows : jsonTbl (L := Demo.libs [Inputs.bazRecord]) Inputs.readme
                  = Ok [Inputs.rowFoo; Inputs.rowBaz]) by (vm_compute; reflexivity).
  apply (proj1 (no_write_unless_every_row_resolves Inputs.worldBazDown [1; 0; 1]
                  Inputs.readme [Inputs.rowFoo; Inputs.rowBaz] eq_refl Hrows)).
  apply Exists_cons_tl, Exists_cons_hd.
  exists (IoError "HttpError: Not Found"). vm_compute. reflexivity.
Defined.

(** In that run the description and the code sample of [proposal-baz] come
    from the dataset, and it is the fetch of [hasSpec] that rejects. *)
Example spec_fetch_rejects :
  run Inputs.worldBazDown
    (prpslRcrdPromise (L := Demo.libs [Inputs.bazRecord]) Inputs.readme Inputs.rowBaz)
  = (Rejected (IoError "HttpError: Not Found"),
     [EvRead FILE_PROPOSAL_DATA; EvLog "Description for 'proposal-baz': Baz text";
      EvRead FILE_PROPOSAL_DATA; EvFetchMetadata "tc39" "proposal-baz"]).
Proof. vm_compute. reflexivity. Qed.


(** The two rows of the example, end to end. *)
Example two_rows_written :
  run_writes (main (L := Demo.libs []) Inputs.world [])
  = [(FILE_PROPOSAL_DATA,
      Demo.showRecords [Inputs.recordFoo; Inputs.recordBaz])].
Proof. vm_compute. reflexivity. Qed.

(** * Further properties of the task *)

(** ** Looking up a definition *)

Lemma isPrefix_app (p x : string) : isPrefix p (p +:+ x) = true.
Proof.
  induction p as [|c p IH]; [reflexivity|].
  rewrite sapp_cons. cbn [isPrefix]. rewrite Ascii.eqb_refl. exact IH.
Qed.

Lemma dropStr_app (p x : string) : dropStr (String.length p) (p +:+ x) = x.
Proof.
  induction p as [|c p IH]; [destruct x; reflexivity|].
  rewrite sapp_cons. exact IH.
Qed.

(** A plain text read at a place that runs into an opening bracket is read
    before the bracket. *)
Lemma isPrefix_before_bracket (q a rest : string) :
  plainLabel q = true ->
  isPrefix q (a +:+ String "[" rest) = true -> isPrefix q a = true.
Proof.
  revert q. induction a as [|x a IH]; intros [|z q] Hplain H; try reflexivity.
  - rewrite sapp_nil_l in H. cbn [isPrefix] in H. cbn [plainLabel] in Hplain.
    apply andb_true_iff in Hplain as [Hz _]. apply andb_true_iff in H as [Hzb _].
    apply Ascii.eqb_eq in Hzb. subst z. discriminate Hz.
  - rewrite sapp_cons in H. cbn [isPrefix] in *. cbn [plainLabel] in Hplain.
    apply andb_true_iff in Hplain as [_ Hq]. apply andb_true_iff in H as [-> H].
    apply (IH q Hq H).
Qed.

Lemma restOfLine_line (t rest : string) :
  noBreak t = true -> lineEnd rest = true -> restOfLine (t +:+ rest) = t.
Proof.
  intros Ht Hrest. induction t as [|c t IH].
  - rewrite sapp_nil_l. destruct rest as [|d rest]; [reflexivity|].
    simpl in *. rewrite Hrest. reflexivity.
  - cbn [noBreak] in Ht. apply andb_true_iff in Ht as [Hc Ht].
    rewrite sapp_cons. cbn [restOfLine].
    destruct (isLineTerminator c); [discriminate Hc|]. rewrite (IH Ht). reflexivity.
Qed.

Lemma isPrefix_line (m t rest : string) :
  noBreak m = true -> lineEnd rest = true ->
  isPrefix m (t +:+ rest) = isPrefix m t.
Proof.
  intros Hm Hrest. revert m Hm. induction t as [|a t IH]; intros [|x m] Hm;
    try reflexivity.
  - rewrite sapp_nil_l. cbn [noBreak] in Hm. apply andb_true_iff in Hm as [Hx _].
    destruct rest as [|d rest]; [reflexivity|]. simpl in Hrest. cbn [isPrefix].
    destruct (Ascii.eqb_spec x d) as [->|]; [|reflexivity].
    rewrite Hrest in Hx. discriminate Hx.
  - rewrite sapp_cons. cbn [isPrefix]. cbn [noBreak] in Hm.
    apply andb_true_iff in Hm as [_ Hm]. rewrite (IH m Hm). reflexivity.
Qed.

Lemma isPrefix_mark_line (t rest : string) :
  lineEnd rest = true ->
  isPrefix "]: " (t +:+ rest) = isPrefix "]: " t.
Proof. intros Hrest. apply isPrefix_line; [reflexivity|exact Hrest]. Qed.

Lemma afterLastMark_none (t rest : string) :
  noBreak t = true -> includes t "]: " = false -> lineEnd rest = true ->
  afterLastMark (t +:+ rest) = None.
Proof.
  intros Ht Hmark Hrest. induction t as [|c t IH].
  - rewrite sapp_nil_l. destruct rest as [|d rest]; [reflexivity|].
    simpl in *. rewrite Hrest. reflexivity.
  - cbn [noBreak] in Ht. apply andb_true_iff in Ht as [Hc Ht].
    cbn [includes] in Hmark. apply orb_false_iff in Hmark as [Hhere Hmark].
    pose proof (isPrefix_mark_line (String c t) rest Hrest) as Hp.
    rewrite sapp_cons in *. cbn [afterLastMark].
    destruct (isLineTerminator c); [discriminate Hc|].
    rewrite (IH Ht Hmark), Hp, Hhere. reflexivity.
Qed.

Lemma afterLastMark_mark (target rest : string) :
  noBreak target = true -> includes target "]: " = false -> lineEnd rest = true ->
  afterLastMark ("]: " +:+ target +:+ rest) = Some target.
Proof.
  intros Ht Hmark Hrest.
  change ("]: " +:+ target +:+ rest)
    with (String "]" (String ":" (String " " (target +:+ rest)))).
  cbn [afterLastMark].
  change (isLineTerminator "]") with false.
  change (isLineTerminator ":") with false.
  change (isLineTerminator " ") with false. cbv iota.
  rewrite (afterLastMark_none _ _ Ht Hmark Hrest).
  cbn [isPrefix Ascii.eqb Bool.eqb andb dropStr]. 
  rewrite (restOfLine_line _ _ Ht Hrest). reflexivity.
Qed.

Lemma afterLastMark_more (more x : string) (target : string) :
  noBreak more = true -> afterLastMark x = Some target ->
  afterLastMark (more +:+ x) = Some target.
Proof.
  intros Hmore Hx. induction more as [|c more IH]; [exact Hx|].
  cbn [noBreak] in Hmore. apply andb_true_iff in Hmore as [Hc Hmore].
  rewrite sapp_cons. cbn [afterLastMark].
  destruct (isLineTerminator c); [discriminate Hc|]. rewrite (IH Hmore). reflexivity.
Qed.

Lemma lookupDefinition_line (label more target rest : string) :
  noBreak more = true -> noBreak target = true ->
  includes target "]: " = false -> lineEnd rest = true ->
  lookupDefinition label
    (String "[" (label +:+ more +:+ "]: " +:+ target +:+ rest))
  = Some target.
Proof.
  intros Hmore Ht Hmark Hrest.
  set (x := more +:+ "]: " +:+ target +:+ rest).
  cbn [lookupDefinition].
  change ("[" +:+ label) with (String "[" label).
  change (String "[" (label +:+ x)) with (String "[" label +:+ x).
  rewrite isPrefix_app, dropStr_app. unfold x.
  rewrite (afterLastMark_more more _ target Hmore); [reflexivity|].
  apply afterLastMark_mark; assumption.
Qed.

Lemma lookupDefinition_absent (label doc : string) :
  includes doc ("[" +:+ label) = false -> lookupDefinition label doc = None.
Proof.
  induction doc as [|c doc IH]; intros H.
  - cbn [includes] in H. cbn [lookupDefinition]. rewrite H. reflexivity.
  - cbn [includes] in H. apply orb_false_iff in H as [Hhere H].
    cbn [lookupDefinition]. rewrite Hhere. apply IH. exact H.
Qed.

Lemma noBreak_app (a b : string) : noBreak (a +:+ b) = noBreak a && noBreak b.
Proof.
  induction a as [|c a IH]; [reflexivity|]. rewrite sapp_cons. cbn [noBreak].
  rewrite IH, andb_assoc. reflexivity.
Qed.

Lemma endsWithBreak_noBreak (s : string) : endsWithBreak s = true -> noBreak s = false.
Proof.
  induction s as [|c s IH]; [discriminate|]. cbn [endsWithBreak noBreak].
  destruct s as [|d s].
  - intros ->. reflexivity.
  - intros H. rewrite (IH H). apply andb_false_r.
Qed.

Lemma isPrefix_decompose (p a : string) :
  isPrefix p a = true -> a = p +:+ dropStr (String.length p) a.
Proof.
  revert a. induction p as [|c p IH]; intros [|d a] H; try reflexivity;
    try discriminate H.
  cbn [isPrefix] in H. apply andb_true_iff in H as [Hc H].
  apply Ascii.eqb_eq in Hc. subst d. rewrite sapp_cons. cbn [String.length dropStr].
  f_equal. apply IH. exact H.
Qed.

(** A line break in [a] hides what follows [a] from the tests on its first
    line. *)
Lemma isPrefix_cut (m a x : string) :
  noBreak m = true -> noBreak a = false ->
  isPrefix m (a +:+ x) = isPrefix m a.
Proof.
  intros Hm. revert m Hm. induction a as [|c a IH]; intros m Hm Ha;
    [discriminate Ha|].
  destruct m as [|y m]; [reflexivity|]. rewrite sapp_cons. cbn [isPrefix].
  cbn [noBreak] in Hm, Ha. apply andb_true_iff in Hm as [Hy Hm].
  destruct (noBreak a) eqn:Hna.
  - rewrite andb_true_r in Ha. destruct (Ascii.eqb_spec y c) as [->|]; [|reflexivity].
    rewrite Ha in Hy. discriminate Hy.
  - rewrite (IH m Hm eq_refl). reflexivity.
Qed.

Lemma restOfLine_cut (a x : string) :
  noBreak a = false -> restOfLine (a +:+ x) = restOfLine a.
Proof.
  induction a as [|c a IH]; intros Ha; [discriminate Ha|].
  rewrite sapp_cons. cbn [restOfLine noBreak] in *.
  destruct (isLineTerminator c); [reflexivity|]. rewrite IH; [reflexivity|exact Ha].
Qed.

Lemma afterLastMark_cut (a x : string) :
  noBreak a = false -> afterLastMark (a +:+ x) = afterLastMark a.
Proof.
  induction a as [|c a IH]; intros Ha; [discriminate Ha|].
  pose proof (isPrefix_cut "]: " (String c a) x eq_refl Ha) as Hp.
  rewrite sapp_cons in *. cbn [afterLastMark].
  destruct (isLineTerminator c) eqn:Hc; [reflexivity|].
  assert (Ha' : noBreak a = false) by (cbn [noBreak] in Ha; rewrite Hc in Ha; exact Ha).
  rewrite (IH Ha'), Hp.
  destruct (afterLastMark a); [reflexivity|].
  destruct (isPrefix "]: " (String c a)) eqn:Hmark; [|reflexivity].
  apply isPrefix_decompose in Hmark. cbn [String.length] in Hmark.
  set (d := dropStr 3 (String c a)) in *.
  assert (Hd : noBreak d = false).
  { rewrite Hmark, noBreak_app in Ha. exact Ha. }
  change (String c (a +:+ x)) with (String c a +:+ x).
  rewrite Hmark at 1. rewrite app_assoc_s.
  change (dropStr 3 ("]: " +:+ d +:+ x)) with (d +:+ x).
  rewrite (restOfLine_cut _ _ Hd). reflexivity.
Qed.

(** The lines before a definition do not count when the lookup finds
    nothing in them. *)
Lemma lookupDefinition_skip_lines (label pre rest : string) :
  plainLabel label = true -> noBreak label = true ->
  atLineStart pre = true -> lookupDefinition label pre = None ->
  lookupDefinition label (pre +:+ String "[" rest)
  = lookupDefinition label (String "[" rest).
Proof.
  intros Hplain Hline. induction pre as [|x pre IH]; intros Hstart Hnone;
    [reflexivity|].
  cbn [atLineStart] in Hstart.
  assert (Hbreak : noBreak (String x pre) = false)
    by (apply endsWithBreak_noBreak; exact Hstart).
  assert (Hstart' : atLineStart pre = true).
  { destruct pre as [|y pre]; [reflexivity|]. exact Hstart. }
  cbn [lookupDefinition] in Hnone.
  destruct (if isPrefix ("[" +:+ label) (String x pre) then _ else None)
    as [t|] eqn:Hhere; [discriminate Hnone|].
  rewrite sapp_cons. cbn [lookupDefinition].
  change (String x (pre +:+ String "[" rest)) with (String x pre +:+ String "[" rest).
  assert (Hno : (if isPrefix ("[" +:+ label) (String x pre +:+ String "[" rest)
                 then afterLastMark
                        (dropStr (String.length ("[" +:+ label))
                           (String x pre +:+ String "[" rest))
                 else None) = None).
  { destruct (isPrefix ("[" +:+ label) (String x pre +:+ String "[" rest)) eqn:E;
      [|reflexivity].
    assert (E' : isPrefix ("[" +:+ label) (String x pre) = true).
    { change ("[" +:+ label) with (String "[" label) in *.
      rewrite sapp_cons in E. cbn [isPrefix] in *.
      apply andb_true_iff in E as [-> E]. cbn [andb].
      exact (isPrefix_before_bracket _ _ _ Hplain E). }
    rewrite E' in Hhere. pose proof (isPrefix_decompose _ _ E') as Hdec.
    set (d := dropStr (String.length ("[" +:+ label)) (String x pre)) in *.
    assert (Hd : noBreak d = false).
    { rewrite Hdec, noBreak_app in Hbreak.
      change ("[" +:+ label) with (String "[" label) in Hbreak.
      cbn [noBreak] in Hbreak. rewrite Hline in Hbreak. exact Hbreak. }
    rewrite Hdec at 1. rewrite app_assoc_s, dropStr_app.
    rewrite (afterLastMark_cut _ _ Hd). exact Hhere. }
  rewrite Hno. apply IH; [exact Hstart'|exact Hnone].
Qed.

(** X1. For a link label without pattern metacharacters, the lookup with
    the regular expression is the lookup written out on strings: the
    target is what follows the last []: ] on the first line that reads
    [[label] and then []: ]; with no such line the lookup throws a
    TypeError. *)
Theorem getUrlFromDoc_is_lookup (proposalsReadmeMd linkTextLike : string) :
  plainLabel linkTextLike = true ->
  getUrlFromDoc proposalsReadmeMd linkTextLike
  = match lookupDefinition linkTextLike proposalsReadmeMd with
    | Some target => Ok (Some target)
    | None => Thrown (TypeError "null[1]")
    end.
Proof. exact (getUrlFromDoc_plain proposalsReadmeMd linkTextLike). Qed.

Lemma getUrlFromDoc_is_lookup_witness :
  getUrlFromDoc Inputs.readme "baz" = Ok (Some "https://github.com/tc39/proposal-baz").
Proof. exact (getUrlFromDoc_is_lookup Inputs.readme "baz" eq_refl). Defined.

(** X2. The lookup matches by prefix and finds definitions at line starts:
    when a line of the document is [[label more]: target], the lines
    before it hold no definition the label is a prefix of, and the target
    has no []: ] of its own, the lookup of [label] answers [target],
    whatever [more] is. *)
Theorem getUrlFromDoc_finds_definition
  (pre label more target rest : string) :
  plainLabel label = true -> noBreak label = true ->
  atLineStart pre = true -> lookupDefinition label pre = None ->
  noBreak more = true -> noBreak target = true ->
  includes target "]: " = false -> lineEnd rest = true ->
  getUrlFromDoc
    (pre +:+ "[" +:+ label +:+ more +:+ "]: " +:+ target +:+ rest) label
  = Ok (Some target).
Proof.
  intros Hplain Hline Hstart Hnone Hmore Ht Hmark Hrest.
  rewrite (getUrlFromDoc_plain _ _ Hplain).
  change (pre +:+ "[" +:+ label +:+ more +:+ "]: " +:+ target +:+ rest)
    with (pre +:+ String "[" (label +:+ more +:+ "]: " +:+ target +:+ rest)).
  rewrite (lookupDefinition_skip_lines _ _ _ Hplain Hline Hstart Hnone).
  rewrite (lookupDefinition_line _ _ _ _ Hmore Ht Hmark Hrest). reflexivity.
Qed.

Lemma getUrlFromDoc_finds_definition_witness :
  getUrlFromDoc Inputs.readme "foo-n"
  = Ok (Some "https://github.com/tc39/notes/blob/main/foo.md").
Proof.
  exact (getUrlFromDoc_finds_definition MoreInputs.readmeHead "foo-n" "otes"
           "https://github.com/tc39/notes/blob/main/foo.md"
           (nl +:+ MoreInputs.readmeEnd)
           eq_refl eq_refl eq_refl eq_refl eq_refl eq_refl eq_refl eq_refl).
Defined.

(** X3. When the document nowhere reads [[label], the lookup of a plain
    label throws a TypeError (the [null] of [exec] is indexed), and so does
    the identifier resolution built on it. *)
Theorem getUrlFromDoc_unknown_label (proposalsReadmeMd linkTextLike : string) :
  plainLabel linkTextLike = true ->
  includes proposalsReadmeMd ("[" +:+ linkTextLike) = false ->
  getUrlFromDoc proposalsReadmeMd linkTextLike = Thrown (TypeError "null[1]")
  /\ getPrpslId proposalsReadmeMd linkTextLike = Thrown (TypeError "null[1]").
Proof.
  intros Hplain Habsent.
  assert (H : getUrlFromDoc proposalsReadmeMd linkTextLike
              = Thrown (TypeError "null[1]")).
  { rewrite (getUrlFromDoc_plain _ _ Hplain).
    rewrite (lookupDefinition_absent _ _ Habsent). reflexivity. }
  split; [exact H|]. unfold getPrpslId. rewrite H. reflexivity.
Qed.

Lemma getUrlFromDoc_unknown_label_witness :
  getUrlFromDoc Inputs.readme "quux" = Thrown (TypeError "null[1]")
  /\ getPrpslId Inputs.readme "quux" = Thrown (TypeError "null[1]").
Proof. exact (getUrlFromDoc_unknown_label Inputs.readme "quux" eq_refl eq_refl). Defined.

(** ** Splitting *)

Lemma splitGo_nonempty (sep s cur : string) (skip : nat) :
  splitGo sep s cur skip <> [].
Proof.
  revert cur skip. induction s as [|c s IH]; intros cur skip; [discriminate|].
  cbn [splitGo]. destruct skip; [|apply IH].
  destruct (isPrefix sep (String c s)); [discriminate|apply IH].
Qed.

(** A text without the separator is its own single piece. *)
Lemma splitGo_no_sep (sep s cur : string) :
  includes s sep = false -> splitGo sep s cur 0 = [cur +:+ s].
Proof.
  revert cur. induction s as [|c s IH]; intros cur H.
  - rewrite sapp_nil_r. reflexivity.
  - cbn [includes] in H. apply orb_false_iff in H as [Hhere H].
    cbn [splitGo]. rewrite Hhere, (IH _ H), app_assoc_s. reflexivity.
Qed.

(** A text with the separator has at least two pieces. *)
Lemma splitGo_with_sep (sep s cur : string) :
  sep <> "" -> includes s sep = true -> 2 <= length (splitGo sep s cur 0).
Proof.
  intros Hsep. revert cur. induction s as [|c s IH]; intros cur H.
  - cbn [includes] in H. destruct sep; [congruence|discriminate H].
  - cbn [splitGo]. destruct (isPrefix sep (String c s)) eqn:Hhere.
    + pose proof (splitGo_nonempty sep s "" (String.length sep - 1)) as Hne.
      destruct (splitGo sep s "" (String.length sep - 1)); [congruence|].
      simpl. lia.
    + cbn [includes] in H. rewrite Hhere in H. apply IH. exact H.
Qed.

(** Passing over the rest of a separator occurrence. *)
Lemma splitGo_skip (sep a rest cur : string) :
  splitGo sep (a +:+ rest) cur (String.length a) = splitGo sep rest cur 0.
Proof.
  induction a as [|x a IH].
  - rewrite sapp_nil_l. destruct rest; reflexivity.
  - rewrite sapp_cons. cbn [String.length splitGo]. exact IH.
Qed.

Lemma concat_cons (sep x : string) (l : list string) :
  l <> [] -> String.concat sep (x :: l) = x +:+ sep +:+ String.concat sep l.
Proof. destruct l; [congruence|reflexivity]. Qed.

(** Joining the pieces with the separator gives the text back. *)
Lemma concat_splitGo (sep : string) (n : nat) (s cur : string) :
  sep <> "" -> String.length s <= n ->
  String.concat sep (splitGo sep s cur 0) = cur +:+ s.
Proof.
  intros Hsep. revert s cur. induction n as [|n IH]; intros s cur Hlen.
  - destruct s; [|simpl in Hlen; lia]. simpl. rewrite sapp_nil_r. reflexivity.
  - destruct s as [|c s]; [simpl; rewrite sapp_nil_r; reflexivity|].
    simpl in Hlen. cbn [splitGo].
    destruct (isPrefix sep (String c s)) eqn:Hhere.
    + destruct sep as [|y sep']; [congruence|].
      pose proof (isPrefix_decompose _ _ Hhere) as Hdec.
      cbn [String.length dropStr] in Hdec. rewrite sapp_cons in Hdec.
      injection Hdec as Hc Hs.
      replace (String.length (String y sep') - 1) with (String.length sep')
        by (simpl; lia).
      set (rest := dropStr (String.length sep') s) in *.
      assert (Hrest : String.length rest <= n).
      { rewrite Hs, length_app_s in Hlen. lia. }
      rewrite Hs at 1. rewrite splitGo_skip.
      rewrite concat_cons by apply splitGo_nonempty.
      rewrite (IH rest "" Hrest), sapp_nil_l.
      f_equal. rewrite sapp_cons, Hc. f_equal. symmetry. exact Hs.
    + rewrite IH by lia. rewrite app_assoc_s. reflexivity.
Qed.

Lemma concat_split (s sep : string) :
  sep <> "" -> String.concat sep (split s sep) = s.
Proof.
  intros Hsep. unfold split. destruct sep as [|y sep']; [congruence|].
  rewrite (concat_splitGo _ (String.length s)); [reflexivity|discriminate|lia].
Qed.

Lemma split_nonempty (s sep : string) : split s sep <> [] \/ s = "".
Proof.
  unfold split. destruct sep; [|left; apply splitGo_nonempty].
  destruct s; [right; reflexivity|left; discriminate].
Qed.

Lemma isPrefix_app_r (p b x : string) :
  isPrefix p b = true -> isPrefix p (b +:+ x) = true.
Proof.
  revert b. induction p as [|c p IH]; intros [|d b] H; try reflexivity;
    try discriminate H.
  rewrite sapp_cons. cbn [isPrefix] in *.
  apply andb_true_iff in H as [-> H]. apply IH. exact H.
Qed.

(** The ends of a text that has one more character. *)
Lemma snoc_suffix (cur : string) (c : ascii) (a b : string) :
  cur +:+ String c "" = a +:+ b -> b <> "" ->
  exists b', b = b' +:+ String c "" /\ cur = a +:+ b'.
Proof.
  revert cur. induction a as [|x a IH]; intros cur H Hb.
  - exists cur. rewrite sapp_nil_l in *. split; [symmetry; exact H|reflexivity].
  - destruct cur as [|y cur].
    + rewrite sapp_nil_l, sapp_cons in H. injection H as _ H.
      destruct a; [|discriminate H]. rewrite sapp_nil_l in H. congruence.
    + rewrite !sapp_cons in H. injection H as -> H.
      destruct (IH cur H Hb) as (b' & -> & ->). exists b'. split; reflexivity.
Qed.

(** When no occurrence of the separator starts inside a text, the text
    holds none. *)
Lemma includes_none_starts (sep cur rest : string) :
  sep <> "" ->
  (forall a b, cur = a +:+ b -> b <> "" -> isPrefix sep (b +:+ rest) = false) ->
  includes cur sep = false.
Proof.
  intros Hsep. induction cur as [|x cur IH]; intros H.
  - destruct sep; [congruence|reflexivity].
  - cbn [includes]. apply orb_false_iff. split.
    + destruct (isPrefix sep (String x cur)) eqn:Hhere; [|reflexivity].
      rewrite <- (H "" (String x cur) eq_refl ltac:(discriminate)).
      symmetry. apply isPrefix_app_r. exact Hhere.
    + apply IH. intros a b -> Hb. apply (H (String x a) b); [reflexivity|exact Hb].
Qed.

(** No piece of a split holds the separator: a piece ends where the first
    occurrence behind its start begins. *)
Lemma splitGo_pieces_free (sep : string) (s : string) :
  sep <> "" ->
  (forall cur,
     (forall a b, cur = a +:+ b -> b <> "" -> isPrefix sep (b +:+ s) = false) ->
     Forall (fun piece => includes piece sep = false) (splitGo sep s cur 0))
  /\ (forall skip,
        Forall (fun piece => includes piece sep = false) (splitGo sep s "" skip)).
Proof.
  intros Hsep. induction s as [|c s [IHcur IHskip]].
  - split.
    + intros cur H. constructor; [|constructor].
      apply (includes_none_starts sep cur "" Hsep H).
    + intros skip. destruct skip; (constructor; [|constructor]);
        destruct sep; congruence || reflexivity.
  - assert (Hgo : forall cur,
              (forall a b, cur = a +:+ b -> b <> "" ->
                           isPrefix sep (b +:+ String c s) = false) ->
              Forall (fun piece => includes piece sep = false)
                (splitGo sep (String c s) cur 0)).
    { intros cur H. cbn [splitGo].
      destruct (isPrefix sep (String c s)) eqn:Hhere.
      - constructor; [|apply IHskip].
        apply (includes_none_starts sep cur (String c s) Hsep H).
      - apply IHcur. intros a b Hcur Hb.
        destruct (snoc_suffix cur c a b Hcur Hb) as (b' & -> & ->).
        rewrite app_assoc_s, sapp_cons, sapp_nil_l.
        destruct b' as [|y b']; [exact Hhere|].
        apply (H a (String y b')); [reflexivity|discriminate]. }
    split; [exact Hgo|].
    intros [|skip]; [|cbn [splitGo]; apply IHskip].
    apply Hgo. intros [|x a] b Hcur Hb.
    + rewrite sapp_nil_l in Hcur. congruence.
    + discriminate Hcur.
Qed.

Lemma split_pieces_free (s sep : string) :
  sep <> "" -> Forall (fun piece => includes piece sep = false) (split s sep).
Proof.
  intros Hsep. unfold split. destruct sep as [|y sep']; [congruence|].
  apply (proj2 (splitGo_pieces_free (String y sep') s Hsep) 0).
Qed.

(** ** Partitions of a full reference link *)

(** X4. The two partitions of a well-formed full reference link give its
    text and its label back, and such a link is recognised as one. *)
Theorem fullRefLink_partitions (text label : string) :
  includes text "][" = false -> includes label "][" = false ->
  isFullRefLink ("[" +:+ text +:+ "][" +:+ label +:+ "]") = true
  /\ getFullRefLinkContent ("[" +:+ text +:+ "][" +:+ label +:+ "]") 0 = Ok text
  /\ getFullRefLinkContent ("[" +:+ text +:+ "][" +:+ label +:+ "]") 1 = Ok label.
Proof.
  intros Ht Hl. split; [reflexivity|].
  exact (getFullRefLinkContent_fullRefLink text label Ht Hl).
Qed.

Lemma fullRefLink_partitions_witness :
  isFullRefLink "[Foo `bar`][foo]" = true
  /\ getFullRefLinkContent "[Foo `bar`][foo]" 0 = Ok "Foo `bar`"
  /\ getFullRefLinkContent "[Foo `bar`][foo]" 1 = Ok "foo".
Proof. exact (fullRefLink_partitions "Foo `bar`" "foo" eq_refl eq_refl). Defined.

(** X5. The label partition throws a TypeError exactly when the text holds
    no [][] separator; the text partition never throws, and without
    separator it is the whole text less its first character. *)
Theorem getFullRefLinkContent_separator (fullRefLink : string) :
  (getFullRefLinkContent fullRefLink 1
     = Thrown (TypeError "array[index] is undefined")
   <-> includes fullRefLink "][" = false)
  /\ (exists text, getFullRefLinkContent fullRefLink 0 = Ok text)
  /\ (includes fullRefLink "][" = false ->
      getFullRefLinkContent fullRefLink 0 = Ok (slice fullRefLink 1 None)).
Proof.
  unfold getFullRefLinkContent, split.
  destruct (includes fullRefLink "][") eqn:Hsep.
  - pose proof (splitGo_with_sep "][" fullRefLink "" ltac:(discriminate) Hsep) as Hlen.
    destruct (splitGo "][" fullRefLink "" 0) as [|first [|second more]];
      try (simpl in Hlen; lia).
    simpl. split; [split; discriminate|]. split; [eauto|discriminate].
  - rewrite (splitGo_no_sep _ _ _ Hsep), sapp_nil_l. simpl.
    split; [split; reflexivity|]. split; [eauto|reflexivity].
Qed.

Lemma getFullRefLinkContent_separator_witness :
  getFullRefLinkContent "[TBD]" 1 = Thrown (TypeError "array[index] is undefined")
  /\ getFullRefLinkContent "[TBD]" 0 = Ok "TBD]".
Proof.
  split.
  - exact (proj2 (proj1 (getFullRefLinkContent_separator "[TBD]")) eq_refl).
  - exact (proj2 (proj2 (getFullRefLinkContent_separator "[TBD]")) eq_refl).
Defined.

(** Without separator there is a text and no label. *)
Lemma getFullRefLinkContent_no_label (fullRefLink : string) :
  includes fullRefLink "][" = false ->
  getFullRefLinkContent fullRefLink 1
  = Thrown (TypeError "array[index] is undefined")
  /\ getFullRefLinkContent fullRefLink 0 = Ok (slice fullRefLink 1 None).
Proof.
  intros Hsep. unfold getFullRefLinkContent, split.
  rewrite (splitGo_no_sep _ _ _ Hsep), sapp_nil_l. split; reflexivity.
Qed.

(** X6. A cell that opens with a bracket but holds no [][] is taken for a
    link and has no label: be it the last-presented cell (once stripped of
    its HTML) or the tests cell, the record of the row is never
    fulfilled. *)
Theorem bracket_without_label_fails_row {L : Libs} (proposalsReadmeMd : string)
  (w : World) (value : ProposalStageTableRecord) (cell : string) :
  cell = sanitizeHtml (last_presented value) [] \/ row_tests value = Some cell ->
  isFullRefLink cell = true -> includes cell "][" = false ->
  forall rcrd, settle w (prpslRcrdPromise proposalsReadmeMd value) <> Fulfilled rcrd.
Proof.
  intros Hcell Hlink Hsep rcrd Hrcrd.
  destruct (getFullRefLinkContent_no_label cell Hsep) as [Hlabel Htext].
  destruct (prpslRcrdPromise_fulfilled _ _ _ _ Hrcrd)
    as (_ & _ & presence & _ & _ & _ & _ & _ & _ & _ & Hpres & _ & _ & _ & Htests).
  destruct Hcell as [->|Hcell].
  - unfold presenceObjFrom in Hpres. rewrite Hlink, Htext in Hpres.
    cbn [mbind result_bind] in Hpres. rewrite Hlabel in Hpres. discriminate Hpres.
  - unfold testsOf in Htests. rewrite Hcell, Hlink, Hlabel in Htests.
    discriminate Htests.
Qed.

Lemma bracket_without_label_fails_row_witness :
  ~ exists rcrd,
      settle Inputs.world
        (prpslRcrdPromise (L := Demo.libs []) Inputs.readme MoreInputs.rowTbd)
      = Fulfilled rcrd.
Proof.
  intros [rcrd Hrcrd].
  exact (bracket_without_label_fails_row (L := Demo.libs []) Inputs.readme
           Inputs.world MoreInputs.rowTbd "[TBD]"
           (or_introl eq_refl) eq_refl eq_refl rcrd Hrcrd).
Defined.

(** ** The shape of a record *)

(** X7. In a fulfilled record the authors and the champions are the pieces
    of their cells cut at every line-break marker: the lists are what
    [split] gives, no piece holds the marker, there is at least one piece,
    and the pieces joined with the marker give the cell back; and there is
    exactly one presentation entry. *)
Theorem record_lists_of_cells {L : Libs} (proposalsReadmeMd : string)
  (w : World) (value : ProposalStageTableRecord) (rcrd : ProposalRecord) :
  settle w (prpslRcrdPromise proposalsReadmeMd value) = Fulfilled rcrd ->
  (authors rcrd = split (author value) "<br />"
   /\ Forall (fun piece => includes piece "<br />" = false) (authors rcrd)
   /\ String.concat "<br />" (authors rcrd) = author value
   /\ authors rcrd <> [])
  /\ (champions rcrd = split (champion value) "<br />"
      /\ Forall (fun piece => includes piece "<br />" = false) (champions rcrd)
      /\ String.concat "<br />" (champions rcrd) = champion value
      /\ champions rcrd <> [])
  /\ length (presented rcrd) = 1.
Proof.
  intros Hrcrd.
  destruct (prpslRcrdPromise_fulfilled _ _ _ _ Hrcrd)
    as (_ & _ & presence & _ & _ & -> & -> & _ & _ & _ & _ & -> & _).
  repeat split;
    try (apply split_pieces_free; discriminate);
    try (apply concat_split; discriminate);
    apply splitGo_nonempty.
Qed.

Lemma record_lists_of_cells_witness :
  (authors Inputs.recordFoo = ["A"; "B"]
   /\ Forall (fun piece => includes piece "<br />" = false) (authors Inputs.recordFoo)
   /\ String.concat "<br />" (authors Inputs.recordFoo) = "A<br />B"
   /\ authors Inputs.recordFoo <> [])
  /\ (champions Inputs.recordFoo = ["C"]
      /\ Forall (fun piece => includes piece "<br />" = false)
           (champions Inputs.recordFoo)
      /\ String.concat "<br />" (champions Inputs.recordFoo) = "C"
      /\ champions Inputs.recordFoo <> [])
  /\ length (presented Inputs.recordFoo) = 1.
Proof.
  assert (Hfoo : settle Inputs.world
                   (prpslRcrdPromise (L := Demo.libs []) Inputs.readme Inputs.rowFoo)
                 = Fulfilled Inputs.recordFoo) by (vm_compute; reflexivity).
  exact (record_lists_of_cells Inputs.readme Inputs.world Inputs.rowFoo
           Inputs.recordFoo Hfoo).
Defined.

(** ** The identifier *)

Lemma lowerChar_idempotent (c : ascii) : lowerChar (lowerChar c) = lowerChar c.
Proof. each_char c; reflexivity. Qed.

Lemma lowerChar_slash (c : ascii) : Ascii.eqb "/" (lowerChar c) = Ascii.eqb "/" c.
Proof. each_char c; reflexivity. Qed.

Lemma lowerChar_space (c : ascii) : Ascii.eqb " " (lowerChar c) = Ascii.eqb " " c.
Proof. each_char c; reflexivity. Qed.

Lemma toLowerCase_idempotent (s : string) : toLowerCase (toLowerCase s) = toLowerCase s.
Proof.
  induction s as [|c s IH]; [reflexivity|]. cbn [toLowerCase].
  rewrite lowerChar_idempotent, IH. reflexivity.
Qed.

Lemma countChar_app (c : ascii) (a b : string) :
  countChar c (a +:+ b) = countChar c a + countChar c b.
Proof.
  induction a as [|x a IH]; [reflexivity|]. rewrite sapp_cons. cbn [countChar].
  rewrite IH. lia.
Qed.

Lemma countChar_lower_slash (s : string) :
  countChar "/" (toLowerCase s) = countChar "/" s.
Proof.
  induction s as [|c s IH]; [reflexivity|]. cbn [toLowerCase countChar].
  rewrite lowerChar_slash, IH. reflexivity.
Qed.

Lemma countChar_lower_space (s : string) :
  countChar " " (toLowerCase s) = countChar " " s.
Proof.
  induction s as [|c s IH]; [reflexivity|]. cbn [toLowerCase countChar].
  rewrite lowerChar_space, IH. reflexivity.
Qed.

(** No piece of a text cut at a character holds that character. *)
Lemma splitGo_char_free (y : ascii) (s cur : string) :
  countChar y cur = 0 ->
  Forall (fun piece => countChar y piece = 0) (splitGo (String y "") s cur 0).
Proof.
  revert cur. induction s as [|c s IH]; intros cur Hcur.
  - constructor; [exact Hcur|constructor].
  - cbn [splitGo isPrefix]. rewrite andb_true_r.
    destruct (Ascii.eqb y c) eqn:Hc.
    + constructor; [exact Hcur|]. apply IH. reflexivity.
    + apply IH. rewrite countChar_app. cbn [countChar]. rewrite Hc, Hcur. reflexivity.
Qed.

Lemma last_Forall {A : Type} (P : A -> Prop) (l : list A) (x : A) :
  Forall P l -> last l = Some x -> P x.
Proof.
  intros Hall Hlast. apply last_Some in Hlast as [l' ->].
  apply Forall_app in Hall as [_ Hx]. inversion Hx; assumption.
Qed.

(** X8. Every identifier the resolution answers is a slug: lower-casing it
    changes nothing, and it holds no slash. *)
Theorem getPrpslId_slug (proposalsReadmeMd linkTextLike prpslId : string) :
  getPrpslId proposalsReadmeMd linkTextLike = Ok prpslId ->
  toLowerCase prpslId = prpslId /\ countChar "/" prpslId = 0.
Proof.
  unfold getPrpslId. destruct (getUrlFromDoc proposalsReadmeMd linkTextLike)
    as [[prpslUrl|]|e]; cbn [mbind result_bind]; try discriminate.
  set (url := if endsWith prpslUrl "/" then _ else _).
  destruct (last (split url "/")) as [segment|] eqn:Hlast;
    intros H; injection H as <-; [|split; reflexivity].
  split; [apply toLowerCase_idempotent|].
  rewrite countChar_lower_slash.
  apply (last_Forall (fun piece => countChar "/" piece = 0) (split url "/"));
    [|exact Hlast].
  unfold split. apply splitGo_char_free. reflexivity.
Qed.

Lemma getPrpslId_slug_witness :
  toLowerCase "proposal-foo" = "proposal-foo" /\ countChar "/" "proposal-foo" = 0.
Proof. exact (getPrpslId_slug Inputs.readme "foo" "proposal-foo" eq_refl). Defined.

Lemma substring_tail (a b : string) :
  String.substring (String.length a) (String.length b) (a +:+ b) = b.
Proof.
  induction a as [|c a IH]; [rewrite sapp_nil_l; apply substring_all|].
  rewrite sapp_cons. exact IH.
Qed.

Lemma endsWith_app (a b : string) : endsWith (a +:+ b) b = true.
Proof.
  unfold endsWith, sub. rewrite length_app_s.
  destruct (Nat.ltb_spec (String.length a + String.length b) (String.length b));
    [lia|].
  replace (String.length a + String.length b - String.length b)
    with (String.length a) by lia.
  replace (String.length a + String.length b - String.length a)
    with (String.length b) by lia.
  rewrite substring_tail. apply String.eqb_refl.
Qed.

(** X9. One trailing slash of the target does not change the identifier:
    a definition [url/] resolves to the identifier of [url]. *)
Theorem getPrpslId_trailing_slash (doc docSlash linkTextLike prpslUrl : string) :
  getUrlFromDoc doc linkTextLike = Ok (Some prpslUrl) ->
  getUrlFromDoc docSlash linkTextLike = Ok (Some (prpslUrl +:+ "/")) ->
  endsWith prpslUrl "/" = false ->
  getPrpslId docSlash linkTextLike = getPrpslId doc linkTextLike.
Proof.
  intros Hdoc Hslash Hend. unfold getPrpslId. rewrite Hdoc, Hslash.
  cbn [mbind result_bind]. rewrite Hend, endsWith_app.
  change (prpslUrl +:+ "/") with (prpslUrl +:+ String "/" "").
  rewrite slice_init. reflexivity.
Qed.

Lemma getPrpslId_trailing_slash_witness :
  getPrpslId MoreInputs.docSlash "foo" = getPrpslId MoreInputs.docNoSlash "foo".
Proof.
  exact (getPrpslId_trailing_slash MoreInputs.docNoSlash MoreInputs.docSlash "foo"
           "https://github.com/tc39/Proposal-Foo" eq_refl eq_refl eq_refl).
Defined.

(** ** Headers with one space *)

Lemma replaceEveryChar_none (s : string) (pat : ascii) (rep : string) :
  countChar pat s = 0 -> replaceEveryChar s pat rep = s.
Proof.
  induction s as [|c s IH]; [reflexivity|]. cbn [countChar replaceEveryChar].
  rewrite (Ascii.eqb_sym c pat). destruct (Ascii.eqb pat c); [discriminate|].
  intros H. rewrite (IH H). reflexivity.
Qed.

Lemma replaceFirst_once (s : string) (pat : ascii) (rep : string) :
  countChar pat s <= 1 ->
  replaceFirst s (String pat "") rep = replaceEveryChar s pat rep.
Proof.
  induction s as [|c s IH]; [reflexivity|].
  cbn [countChar replaceFirst replaceEveryChar isPrefix].
  rewrite andb_true_r, (Ascii.eqb_sym c pat).
  destruct (Ascii.eqb pat c); intros H.
  - rewrite replaceEveryChar_none by lia. f_equal.
    unfold sub. cbn [String.length]. 
    replace (S (String.length s) - 1) with (String.length s) by lia.
    change (String.substring 0 (String.length s) s = s). apply substring_all.
  - cbn [Nat.add] in H. rewrite (IH H). reflexivity.
Qed.

(** X10. For a header with at most one space, every space of the
    lower-cased header has become an underscore in the text that is
    stripped of its HTML to give the key. *)
Theorem headerFn_single_space {L : Libs} (val : string) :
  countChar " " val <= 1 ->
  headerFn val = sanitizeHtml (replaceEveryChar (toLowerCase val) " " "_") []
  /\ countChar " " (replaceEveryChar (toLowerCase val) " " "_") = 0.
Proof.
  intros H. unfold headerFn. split.
  - rewrite replaceFirst_once; [reflexivity|]. rewrite countChar_lower_space. exact H.
  - clear H. induction val as [|c val IH]; [reflexivity|].
    cbn [toLowerCase replaceEveryChar].
    rewrite countChar_app, IH, Nat.add_0_r.
    destruct (Ascii.eqb (lowerChar c) " ") eqn:Hc; [reflexivity|].
    cbn [countChar]. rewrite (Ascii.eqb_sym " "), Hc. reflexivity.
Qed.

Lemma headerFn_single_space_witness :
  headerFn (L := Demo.libs []) "Last Presented"
  = sanitizeHtml (Libs := Demo.libs [])
      (replaceEveryChar (toLowerCase "Last Presented") " " "_") []
  /\ countChar " " (replaceEveryChar (toLowerCase "Last Presented") " " "_") = 0.
Proof.
  exact (headerFn_single_space (L := Demo.libs []) "Last Presented"
           (le_n 1)).
Defined.

(** ** How a run ends *)

Section RunFacts.

Context {L : Libs}.

Lemma collect_first_rejected (values : list ProposalRecord)
  (rest : list (Settled ProposalRecord)) (data : list ProposalRecord) (e : Err) :
  collect ((SFulfilled <$> values) ++ SRejected e :: rest) data
  = Thrown (ErrorOf e).
Proof.
  revert data. induction values as [|v values IH]; intros data; [reflexivity|].
  simpl. apply IH.
Qed.

End RunFacts.

(** X13. The error of a run is the one of the first row that rejects, in
    the order of the table and not of the completions: when the rows
    before it are fulfilled and the rows after it settle, the handler ends
    rejected with an [Error] made of the reason of that row. *)
Theorem first_rejection_is_reported {L : Libs} (w : World) (order : list nat)
  (proposalsReadmeMd : string)
  (before after : list ProposalStageTableRecord)
  (value : ProposalStageTableRecord) (e : Err) :
  remoteFile w "tc39" "proposals" "README.md" = Resolves proposalsReadmeMd ->
  jsonTbl proposalsReadmeMd = Ok (before ++ value :: after) ->
  Forall (fun v => exists rcrd,
            settle w (prpslRcrdPromise proposalsReadmeMd v) = Fulfilled rcrd)
         before ->
  settle w (prpslRcrdPromise proposalsReadmeMd value) = Rejected e ->
  Forall (fun v => settle w (prpslRcrdPromise proposalsReadmeMd v) <> Pending)
         after ->
  run_outcome (main w order) = Rejected (ErrorOf e).
Proof.
  intros Hreadme Hrows Hbefore Hvalue Hafter.
  unfold main. rewrite Hreadme, (script_cases _ _ _ _ Hrows).
  assert (Hb : exists values,
             Forall2 (fun v result =>
                        settledOf (settle w (prpslRcrdPromise proposalsReadmeMd v))
                        = Some result) before (SFulfilled <$> values)).
  { clear -Hbefore. induction Hbefore as [|v before [rcrd Hv] _ [values IH]].
    - exists []. constructor.
    - exists (rcrd :: values). constructor; [rewrite Hv; reflexivity|exact IH]. }
  assert (Ha : exists rest,
             Forall2 (fun v result =>
                        settledOf (settle w (prpslRcrdPromise proposalsReadmeMd v))
                        = Some result) after rest).
  { clear -Hafter. induction Hafter as [|v after Hv _ [rest IH]].
    - exists []. constructor.
    - destruct (settle w (prpslRcrdPromise proposalsReadmeMd v)) as [r|e'|] eqn:E;
        [exists (SFulfilled r :: rest)|exists (SRejected e' :: rest)|congruence];
        constructor; try exact IH; rewrite E; reflexivity. }
  destruct Hb as [values Hb]. destruct Ha as [rest Ha].
  assert (Hset : settledRows proposalsReadmeMd w (before ++ value :: after)
                 = Some ((SFulfilled <$> values) ++ SRejected e :: rest)).
  { unfold settledRows. apply mapM_Some_2. apply Forall2_app; [exact Hb|].
    constructor; [rewrite Hvalue; reflexivity|exact Ha]. }
  rewrite Hset, collect_first_rejected. reflexivity.
Qed.

(** X14. A row that never settles keeps the whole run pending: the handler
    is not started, nothing is written and no error is raised, even when
    other rows reject. *)
Theorem hung_row_hangs_run {L : Libs} (w : World) (order : list nat)
  (proposalsReadmeMd : string) (rows : list ProposalStageTableRecord) :
  remoteFile w "tc39" "proposals" "README.md" = Resolves proposalsReadmeMd ->
  jsonTbl proposalsReadmeMd = Ok rows ->
  Exists (fun v => settle w (prpslRcrdPromise proposalsReadmeMd v) = Pending)
         rows ->
  main w order = mkRun (disk w) [] Pending.
Proof.
  intros Hreadme Hrows Hhung.
  unfold main. rewrite Hreadme, (script_cases _ _ _ _ Hrows).
  assert (Hset : settledRows proposalsReadmeMd w rows = None).
  { unfold settledRows. apply mapM_None_2. clear -Hhung.
    induction Hhung as [v rows Hv|v rows _ IH].
    - apply Exists_cons_hd. rewrite Hv. reflexivity.
    - apply Exists_cons_tl. exact IH. }
  rewrite Hset. reflexivity.
Qed.

Lemma first_rejection_is_reported_witness :
  run_outcome (main (L := Demo.libs []) MoreInputs.worldDown [1; 1; 0; 0])
  = Rejected (ErrorOf (IoError "HttpError: proposal-foo")).
Proof.
  assert (Hrows : jsonTbl (L := Demo.libs []) Inputs.readme
                  = Ok ([] ++ Inputs.rowFoo :: [Inputs.rowBaz]))
    by (vm_compute; reflexivity).
  apply (first_rejection_is_reported (L := Demo.libs []) MoreInputs.worldDown
           [1; 1; 0; 0] Inputs.readme [] [Inputs.rowBaz] Inputs.rowFoo
           (IoError "HttpError: proposal-foo") eq_refl Hrows).
  - constructor.
  - vm_compute. reflexivity.
  - constructor; [vm_compute; discriminate|constructor].
Defined.

Lemma hung_row_hangs_run_witness :
  main (L := Demo.libs []) MoreInputs.worldHang [0; 1]
  = mkRun (disk MoreInputs.worldHang) [] Pending.
Proof.
  assert (Hrows : jsonTbl (L := Demo.libs []) Inputs.readme
                  = Ok [Inputs.rowFoo; Inputs.rowBaz]) by (vm_compute; reflexivity).
  apply (hung_row_hangs_run (L := Demo.libs []) MoreInputs.worldHang [0; 1]
           Inputs.readme [Inputs.rowFoo; Inputs.rowBaz] eq_refl Hrows).
  apply Exists_cons_tl, Exists_cons_hd. vm_compute. reflexivity.
Defined.

(** ** Patterns that start with fixed text *)

(** A pattern that matches only where a text is read matches nowhere in a
    subject without that text. *)
Lemma search_without (r : regex) (p s : string) (pos : nat) :
  (forall t, isPrefix p t = false -> matchAt r t = None) ->
  includes s p = false -> search r pos s = None.
Proof.
  intros Hr. revert pos. induction s as [|c s IH]; intros pos H; cbn [search].
  - cbn [includes] in H. rewrite (Hr _ H). reflexivity.
  - cbn [includes] in H. apply orb_false_iff in H as [Hhere H].
    rewrite (Hr _ Hhere). apply IH. exact H.
Qed.

Lemma tblPattern_head :
  exists tail1 tail2,
    tblPattern = RSeq (RGroup 1 (lits "### Stage 3" tail1)) tail2.
Proof. eexists. eexists. reflexivity. Qed.

Lemma codeBlockPattern_head :
  exists tail, codeBlockPattern = lits "```" tail.
Proof. eexists. reflexivity. Qed.

Lemma matchAt_tblPattern (t : string) :
  isPrefix "### Stage 3" t = false -> matchAt tblPattern t = None.
Proof.
  intros H. destruct tblPattern_head as (tail1 & tail2 & ->).
  unfold matchAt. cbn [rmatch]. rewrite rmatch_lits, H. reflexivity.
Qed.

Lemma matchAt_codeBlockPattern (t : string) :
  isPrefix "```" t = false -> matchAt codeBlockPattern t = None.
Proof.
  intros H. destruct codeBlockPattern_head as (tail & ->).
  unfold matchAt. rewrite rmatch_lits, H. reflexivity.
Qed.

Lemma newRegExp_tbl : newRegExp tblSource = Ok (mkRegExp tblPattern 3 true 0).
Proof. vm_compute. reflexivity. Qed.

(** X15. An upstream README without the stage 3 heading is fatal: the
    table extraction throws a TypeError (the [null] of [exec] is indexed),
    and the run ends rejected with it before any row is looked at, nothing
    written. *)
Theorem stage3_heading_missing {L : Libs} (proposalsReadmeMd : string)
  (w : World) (order : list nat) :
  includes proposalsReadmeMd "### Stage 3" = false ->
  remoteFile w "tc39" "proposals" "README.md" = Resolves proposalsReadmeMd ->
  jsonTbl proposalsReadmeMd = Thrown (TypeError "null[2]")
  /\ main w order = mkRun (disk w) [] (Rejected (TypeError "null[2]")).
Proof.
  intros Hmissing Hreadme.
  assert (Htbl : jsonTbl proposalsReadmeMd = Thrown (TypeError "null[2]")).
  { unfold jsonTbl. rewrite newRegExp_tbl. cbn [mbind result_bind].
    unfold exec. cbn [re_global re_lastIndex re_pattern re_groups].
    change (String.length proposalsReadmeMd <? 0) with false. cbv iota.
    unfold sub. rewrite Nat.sub_0_r, substring_all.
    rewrite (search_without _ _ _ _ matchAt_tblPattern Hmissing). reflexivity. }
  split; [exact Htbl|]. unfold main, script. rewrite Hreadme, Htbl. reflexivity.
Qed.

Lemma stage3_heading_missing_witness :
  jsonTbl (L := Demo.libs []) ("# ECMAScript proposals" +:+ nl)
  = Thrown (TypeError "null[2]")
  /\ main (L := Demo.libs []) MoreInputs.worldPlain []
     = mkRun (disk MoreInputs.worldPlain) [] (Rejected (TypeError "null[2]")).
Proof.
  exact (stage3_heading_missing (L := Demo.libs []) ("# ECMAScript proposals" +:+ nl)
           MoreInputs.worldPlain [] eq_refl eq_refl).
Defined.

(** ** Code samples, again *)

Lemma scanCodeSample_no_record (prpslData : list DataRecord) (prpslId : string) :
  Forall (fun v => isRecordOf prpslId v = false) prpslData ->
  scanCodeSample prpslData prpslId = JNull.
Proof.
  intros H. change prpslData with ([] ++ prpslData).
  rewrite scanCodeSample_app. apply scan_others. exact H.
Qed.

(** X16. For a proposal the dataset has no record of, a README that holds
    no code fence gives an absent code sample: the function is fulfilled
    with [undefined] after one read of the dataset and one fetch. *)
Theorem getCodeSample_without_fence {L : Libs} (w : World)
  (text : string) (prpslData : list DataRecord) (prpslId contents : string) :
  disk w !! FILE_PROPOSAL_DATA = Some text ->
  yaml_load text = Ok prpslData ->
  Forall (fun v => isRecordOf prpslId v = false) prpslData ->
  remoteFile w "tc39" prpslId "README.md" = Resolves contents ->
  includes contents "```" = false ->
  run w (getCodeSample prpslId)
  = (Fulfilled JUndefined,
     [EvRead FILE_PROPOSAL_DATA; EvFetchFile "tc39" prpslId "README.md"]).
Proof.
  intros Hfile Hload Hnone Hfetch Hfence.
  rewrite (run_getCodeSample_remote w text prpslData Hfile Hload prpslId contents);
    [|rewrite (scanCodeSample_no_record _ _ Hnone); reflexivity|exact Hfetch].
  rewrite (search_without _ _ _ _ matchAt_codeBlockPattern Hfence). reflexivity.
Qed.

Lemma getCodeSample_without_fence_witness :
  run MoreInputs.worldPlain (getCodeSample (L := Demo.libs []) "proposal-foo")
  = (Fulfilled JUndefined,
     [EvRead FILE_PROPOSAL_DATA; EvFetchFile "tc39" "proposal-foo" "README.md"]).
Proof.
  exact (getCodeSample_without_fence (L := Demo.libs []) MoreInputs.worldPlain
           Inputs.oldFile [] "proposal-foo"
           ("# Foo bar" +:+ nl +:+ "No code yet." +:+ nl)
           eq_refl eq_refl (Forall_nil_2 _) eq_refl eq_refl).
Defined.

(** X17. A record without an example does not stop the fetch: when the
    last record of the identifier has no [example] key, or [null] under
    it, the README of the proposal is fetched, once, as for a proposal the
    dataset does not know. *)
Theorem getCodeSample_fetches_without_example {L : Libs} (w : World)
  (text : string) (before after : list DataRecord) (value : DataRecord)
  (prpslId : string) :
  disk w !! FILE_PROPOSAL_DATA = Some text ->
  yaml_load text = Ok (before ++ value :: after) ->
  isRecordOf prpslId value = true ->
  Forall (fun v => isRecordOf prpslId v = false) after ->
  notNullish (storedField "example" value) = false ->
  fetches w (getCodeSample prpslId) = [EvFetchFile "tc39" prpslId "README.md"].
Proof.
  intros Hfile Hload Hv Hafter Hex.
  assert (Hscan : notNullish (scanCodeSample (before ++ value :: after) prpslId)
                  = false)
    by (rewrite (scanCodeSample_last _ _ _ _ Hv Hafter); exact Hex).
  destruct (remoteFile w "tc39" prpslId "README.md") as [contents|e|] eqn:Hfetch.
  - unfold fetches.
    rewrite (run_getCodeSample_remote w text _ Hfile Hload prpslId contents Hscan Hfetch).
    reflexivity.
  - unfold fetches, getCodeSample, loadProposalData, mbind, prog_bind.
    cbn [progBind run]. rewrite Hfile, Hload. cbn [lift progBind].
    rewrite Hscan. cbn [run]. rewrite Hfetch. reflexivity.
  - unfold fetches, getCodeSample, loadProposalData, mbind, prog_bind.
    cbn [progBind run]. rewrite Hfile, Hload. cbn [lift progBind].
    rewrite Hscan. cbn [run]. rewrite Hfetch. reflexivity.
Qed.

Lemma getCodeSample_fetches_without_example_witness :
  fetches Inputs.world
    (getCodeSample (L := Demo.libs [Inputs.bareRecord]) "proposal-foo")
  = [EvFetchFile "tc39" "proposal-foo" "README.md"].
Proof.
  exact (getCodeSample_fetches_without_example (L := Demo.libs [Inputs.bareRecord])
           Inputs.world Inputs.oldFile [] [] Inputs.bareRecord "proposal-foo"
           eq_refl eq_refl eq_refl (Forall_nil_2 _) eq_refl).
Defined.

(** ** The remote calls of a row *)

Section CallFacts.

Context {L : Libs}.

Lemma run_bind_events {A B : Type} (w : World) (m : Prog A) (f : A -> Prog B) :
  (run w (m ≫= f)).2
  = (run w m).2 ++ match settle w m with
                   | Fulfilled a => (run w (f a)).2
                   | _ => []
                   end.
Proof.
  unfold settle, mbind, prog_bind.
  induction m as [a|e|file k IH|o r fl k IH|o r k IH|msg k IH]; simpl;
    try reflexivity.
  - destruct (disk w !! file); simpl; [rewrite IH|]; reflexivity.
  - destruct (remoteFile w o r fl); simpl; [rewrite IH|..]; reflexivity.
  - destruct (remoteMetadata w o r); simpl; [rewrite IH|..]; reflexivity.
  - rewrite IH. reflexivity.
Qed.

Lemma fetches_bind {A B : Type} (w : World) (m : Prog A) (f : A -> Prog B) :
  fetches w (m ≫= f)
  = fetches w m ++ match settle w m with
                   | Fulfilled a => fetches w (f a)
                   | _ => []
                   end.
Proof.
  unfold fetches. rewrite run_bind_events, filter_app.
  destruct (settle w m); reflexivity.
Qed.

Lemma fetches_lift {A B : Type} (w : World) (r : Result A) (f : A -> Prog B) :
  fetches w (lift r ≫= f)
  = match r with Ok a => fetches w (f a) | Thrown _ => [] end.
Proof. destruct r; reflexivity. Qed.

Lemma fetches_getShortDescription (w : World) (prpslId : string) :
  fetches w (getShortDescription prpslId) = []
  \/ fetches w (getShortDescription prpslId) = [EvFetchMetadata "tc39" prpslId].
Proof.
  unfold fetches, getShortDescription, loadProposalData, mbind, prog_bind.
  cbn [progBind run]. destruct (disk w !! FILE_PROPOSAL_DATA) as [text|];
    [|left; reflexivity].
  destruct (yaml_load text) as [prpslData|e]; [|left; reflexivity].
  cbn [lift progBind].
  destruct (falsy (scanDescription prpslData prpslId)); [|left; reflexivity].
  cbn [progBind run].
  destruct (remoteMetadata w "tc39" prpslId); right; reflexivity.
Qed.

Lemma fetches_getCodeSample (w : World) (prpslId : string) :
  fetches w (getCodeSample prpslId) = []
  \/ fetches w (getCodeSample prpslId) = [EvFetchFile "tc39" prpslId "README.md"].
Proof.
  destruct (disk w !! FILE_PROPOSAL_DATA) as [text|] eqn:Hfile.
  2:{ left. unfold fetches, getCodeSample, loadProposalData, mbind, prog_bind.
      cbn [progBind run]. rewrite Hfile. reflexivity. }
  destruct (yaml_load text) as [prpslData|e] eqn:Hload.
  2:{ left. unfold fetches, getCodeSample, loadProposalData, mbind, prog_bind.
      cbn [progBind run]. rewrite Hfile, Hload. reflexivity. }
  destruct (notNullish (scanCodeSample prpslData prpslId)) eqn:Hscan.
  { left. unfold fetches.
    rewrite (run_getCodeSample_local w text _ Hfile Hload prpslId Hscan). reflexivity. }
  right.
  destruct (remoteFile w "tc39" prpslId "README.md") as [contents|e|] eqn:Hfetch.
  - unfold fetches.
    rewrite (run_getCodeSample_remote w text _ Hfile Hload prpslId contents Hscan Hfetch).
    reflexivity.
  - unfold fetches, getCodeSample, loadProposalData, mbind, prog_bind.
    cbn [progBind run]. rewrite Hfile, Hload. cbn [lift progBind].
    rewrite Hscan. cbn [run]. rewrite Hfetch. reflexivity.
  - unfold fetches, getCodeSample, loadProposalData, mbind, prog_bind.
    cbn [progBind run]. rewrite Hfile, Hload. cbn [lift progBind].
    rewrite Hscan. cbn [run]. rewrite Hfetch. reflexivity.
Qed.

Lemma fetches_hasSpec (w : World) (prpslId : string) :
  fetches w (hasSpec prpslId) = [EvFetchMetadata "tc39" prpslId].
Proof.
  unfold fetches, hasSpec. cbn [run].
  destruct (remoteMetadata w "tc39" prpslId); reflexivity.
Qed.

End CallFacts.

(** X18. A row calls the host for its own repository only, and at most
    three times: every remote call of the row is the metadata or the
    README of [tc39/<identifier>], the identifier being the one resolved
    from the label of the proposal cell; a row whose identifier cannot be
    resolved calls nothing. *)
Theorem row_calls_own_repository {L : Libs} (proposalsReadmeMd : string)
  (w : World) (value : ProposalStageTableRecord) :
  length (fetches w (prpslRcrdPromise proposalsReadmeMd value)) <= 3
  /\ forall call,
       In call (fetches w (prpslRcrdPromise proposalsReadmeMd value)) ->
       exists label prpslId,
         getFullRefLinkContent (proposal value) 1 = Ok label
         /\ getPrpslId proposalsReadmeMd label = Ok prpslId
         /\ (call = EvFetchMetadata "tc39" prpslId
             \/ call = EvFetchFile "tc39" prpslId "README.md").
Proof.
  unfold prpslRcrdPromise. rewrite fetches_lift.
  destruct (getFullRefLinkContent (proposal value) 1) as [label|e] eqn:Hlabel;
    [|split; [simpl; lia|intros call []]].
  rewrite fetches_lift.
  destruct (getPrpslId proposalsReadmeMd label) as [prpslId|e] eqn:Hid;
    [|split; [simpl; lia|intros call []]].
  rewrite fetches_bind.
  assert (Hrest : forall description,
            fetches w
              (example ← getCodeSample prpslId;
               has_specification ← hasSpec prpslId;
               presence ← lift (presenceObjFrom proposalsReadmeMd value);
               text ← lift (getFullRefLinkContent (proposal value) 0);
               tests ← lift (testsOf proposalsReadmeMd value);
               Ret (mkProposalRecord prpslId (split (author value) "<br />")
                      (split (champion value) "<br />") description example
                      has_specification [presence] (mdCodeSpans2html text) tests))
            = fetches w (getCodeSample prpslId)
              ++ match settle w (getCodeSample prpslId) with
                 | Fulfilled _ => [EvFetchMetadata "tc39" prpslId]
                 | _ => []
                 end).
  { intros description. rewrite fetches_bind. f_equal.
    destruct (settle w (getCodeSample prpslId)) as [example| |]; try reflexivity.
    rewrite fetches_bind, fetches_hasSpec.
    destruct (settle w (hasSpec prpslId)) as [spec| |]; try reflexivity.
    rewrite fetches_lift. destruct (presenceObjFrom proposalsReadmeMd value);
      [|reflexivity].
    rewrite fetches_lift. destruct (getFullRefLinkContent (proposal value) 0);
      [|reflexivity].
    rewrite fetches_lift. destruct (testsOf proposalsReadmeMd value); reflexivity. }
  assert (Hall : forall call,
            In call (fetches w (getShortDescription prpslId)
                     ++ fetches w (getCodeSample prpslId)
                     ++ [EvFetchMetadata "tc39" prpslId]) ->
            call = EvFetchMetadata "tc39" prpslId
            \/ call = EvFetchFile "tc39" prpslId "README.md").
  { intros call Hin. apply in_app_or in Hin as [Hin|Hin].
    - destruct (fetches_getShortDescription w prpslId) as [H|H];
        rewrite H in Hin; simpl in Hin; intuition.
    - apply in_app_or in Hin as [Hin|Hin].
      + destruct (fetches_getCodeSample w prpslId) as [H|H];
          rewrite H in Hin; simpl in Hin; intuition.
      + simpl in Hin. intuition. }
  split.
  - destruct (settle w (getShortDescription prpslId)) as [description| |];
      try rewrite Hrest;
      destruct (fetches_getShortDescription w prpslId) as [-> | ->];
      try destruct (fetches_getCodeSample w prpslId) as [-> | ->];
      try destruct (settle w (getCodeSample prpslId)); simpl; lia.
  - intros call Hin. exists label, prpslId. split; [reflexivity|].
    split; [exact Hid|]. apply Hall.
    destruct (settle w (getShortDescription prpslId)) as [description| |].
    + rewrite Hrest in Hin. apply in_app_or in Hin as [Hin|Hin];
        apply in_or_app; [left; exact Hin|right].
      apply in_app_or in Hin as [Hin|Hin]; apply in_or_app; [left; exact Hin|right].
      destruct (settle w (getCodeSample prpslId)); [exact Hin|destruct Hin..].
    + rewrite app_nil_r in Hin. apply in_or_app. left. exact Hin.
    + rewrite app_nil_r in Hin. apply in_or_app. left. exact Hin.
Qed.

Lemma row_calls_own_repository_witness :
  exists label prpslId,
    getFullRefLinkContent (proposal Inputs.rowFoo) 1 = Ok label
    /\ getPrpslId Inputs.readme label = Ok prpslId
    /\ (EvFetchMetadata "tc39" "proposal-foo" = EvFetchMetadata "tc39" prpslId
        \/ EvFetchMetadata "tc39" "proposal-foo"
           = EvFetchFile "tc39" prpslId "README.md").
Proof.
  apply (proj2 (row_calls_own_repository (L := Demo.libs []) Inputs.readme
                  Inputs.world Inputs.rowFoo)).
  vm_compute. left. reflexivity.
Defined.

(** ** The stage 3 table *)

Lemma rmatch_literal (l : string) (r : regex) (s : string) (cs : caps)
  (k : Continuation) :
  rmatch (literal l r) s cs k
  = if isPrefix l s then rmatch r (dropStr (String.length l) s) cs k else None.
Proof.
  revert s. induction l as [|c l IH]; intros s.
  - destruct s; reflexivity.
  - destruct s as [|d s]; cbn [literal rmatch isPrefix String.length dropStr].
    + destruct (Ascii.eqb c LF); reflexivity.
    + destruct (Ascii.eqb_spec c LF) as [->|Hc].
      * cbn [rmatch existsb inItem xorb]. rewrite between_same, orb_false_r.
        destruct (Ascii.eqb LF d); [|reflexivity]. apply IH.
      * cbn [rmatch]. destruct (Ascii.eqb c d); [|reflexivity]. apply IH.
Qed.

Lemma tblPattern_parts :
  tblPattern
  = RSeq (RGroup 1 (literal stage3Heading REmpty))
      (RSeq (RGroup 2 (RSeq (RQuant 1 None true (RSet false anyClass)) REmpty))
         (RSeq (RGroup 3 (literal stage2Mark REmpty)) REmpty)).
Proof. reflexivity. Qed.

Lemma anyClass_all (c : ascii) : existsb (inItem c) anyClass = true.
Proof.
  unfold anyClass. cbn [existsb inItem xorb].
  destruct (isSpace c); rewrite ?orb_true_r; reflexivity.
Qed.

(** The repetition of the class is the greedy walk to the end of the text. *)
Lemma repeat_any (k : Continuation) (s : string) (cs : caps) (fuel : nat) :
  String.length s < fuel ->
  repeatMatcher (rmatch (RSet false anyClass)) [] true k fuel 0 None s cs
  = greedyAny k s cs.
Proof.
  revert s. induction fuel as [|fuel IH]; intros s Hlen; [lia|].
  cbn [repeatMatcher Nat.eqb negb andb]. rewrite clearCaps_none.
  destruct s as [|c s]; [reflexivity|].
  cbn [rmatch greedyAny]. rewrite anyClass_all. cbn [xorb].
  replace (String.length s =? String.length (String c s)) with false
    by (symmetry; apply Nat.eqb_neq; simpl; lia).
  cbn [Nat.pred fmap option_fmap option_map].
  rewrite IH by (simpl in Hlen; lia). reflexivity.
Qed.

Lemma repeatMatcher_step (m : Matcher) (gs : list nat) (greedy : bool)
  (k : Continuation) (fuel min : nat) (max : option nat) (s : string)
  (cs : caps) :
  repeatMatcher m gs greedy k (S fuel) min max s cs
  = if match max with Some O => true | _ => false end then k s cs
    else
      let again :=
        m s (clearCaps gs cs)
          (fun s' cs' =>
             if Nat.eqb min 0 && Nat.eqb (String.length s') (String.length s)
             then None
             else repeatMatcher m gs greedy k fuel (Nat.pred min)
                    (Nat.pred <$> max) s' cs') in
      if negb (Nat.eqb min 0) then again
      else if greedy
           then match again with Some st => Some st | None => k s cs end
           else match k s cs with Some st => Some st | None => again end.
Proof. reflexivity. Qed.

(** With one round at least, the first character is taken in any case. *)
Lemma repeat_any_plus (k : Continuation) (s : string) (cs : caps) :
  rmatch (RQuant 1 None true (RSet false anyClass)) s cs k
  = match s with
    | EmptyString => None
    | String _ s' => greedyAny k s' cs
    end.
Proof.
  change (rmatch (RQuant 1 None true (RSet false anyClass)) s cs k)
    with (repeatMatcher (rmatch (RSet false anyClass)) [] true k
            (S (S (String.length s))) 1 None s cs).
  rewrite repeatMatcher_step. cbv zeta. cbn [Nat.eqb negb andb].
  rewrite clearCaps_none.
  destruct s as [|c s]; [reflexivity|].
  cbn [rmatch]. rewrite anyClass_all. cbn [xorb Nat.pred fmap option_fmap option_map].
  apply repeat_any. simpl. lia.
Qed.

Lemma consumed_app (a b : string) : consumed (a +:+ b) b = a.
Proof.
  unfold consumed, sub. rewrite length_app_s.
  replace (String.length a + String.length b - String.length b - 0)
    with (String.length a) by lia.
  apply substring_head.
Qed.

(** The greedy walk before a test for the stage 2 heading stops at the
    last place where the heading is read. *)
Lemma greedyAny_tableEnd (f : string -> caps -> MatchState) (s : string)
  (cs : caps) :
  match tableEnd s with
  | Some t =>
      exists r, s = t +:+ r
                /\ greedyAny (fun s' cs' =>
                                if isPrefix stage2Mark s' then Some (f s' cs')
                                else None) s cs
                   = Some (f r cs)
  | None =>
      greedyAny (fun s' cs' =>
                   if isPrefix stage2Mark s' then Some (f s' cs') else None) s cs
      = None
  end.
Proof.
  induction s as [|c s IH]; [reflexivity|].
  cbn [tableEnd greedyAny]. destruct (tableEnd s) as [t|].
  - destruct IH as (r & -> & ->). exists r. split; reflexivity.
  - rewrite IH. destruct (isPrefix stage2Mark (String c s)); [|reflexivity].
    exists (String c s). split; reflexivity.
Qed.

Lemma greedyAny_ext (k k' : Continuation) (s : string) (cs : caps) :
  (forall s' cs', k s' cs' = k' s' cs') -> greedyAny k s cs = greedyAny k' s cs.
Proof.
  intros Hk. induction s as [|c s IH]; cbn [greedyAny]; [apply Hk|].
  rewrite IH, Hk. reflexivity.
Qed.

(** At a given place the pattern matches when a table starts there, and
    its second group is the table. *)
Lemma matchAt_tblPattern_table (s : string) :
  match tableAt s with
  | Some t => exists rest cs, matchAt tblPattern s = Some (rest, cs)
                              /\ getCap 2 cs = Some t
  | None => matchAt tblPattern s = None
  end.
Proof.
  unfold matchAt, tableAt. rewrite tblPattern_parts.
  set (q := RQuant 1 None true (RSet false anyClass)).
  cbn [rmatch]. rewrite rmatch_literal.
  destruct (isPrefix stage3Heading s); [|reflexivity].
  set (s1 := dropStr (String.length stage3Heading) s).
  cbn [rmatch]. subst q. rewrite repeat_any_plus.
  destruct s1 as [|c s2] eqn:Hs1; [reflexivity|].
  rewrite (greedyAny_ext _
             (fun s' cs' =>
                if isPrefix stage2Mark s'
                then Some (dropStr (String.length stage2Mark) s',
                           (3, consumed s' (dropStr (String.length stage2Mark) s'))
                             :: (2, consumed (String c s2) s') :: cs')
                else None))
    by (intros s' cs'; cbn [rmatch]; rewrite rmatch_literal; reflexivity).
  pose proof (greedyAny_tableEnd
                (fun s' cs' =>
                   (dropStr (String.length stage2Mark) s',
                    (3, consumed s' (dropStr (String.length stage2Mark) s'))
                      :: (2, consumed (String c s2) s') :: cs'))
                s2 [(1, consumed s (String c s2))]) as H.
  destruct (tableEnd s2) as [t|].
  - destruct H as (r & Hs & Hg). cbn [fmap option_fmap option_map].
    eexists. eexists. split; [exact Hg|].
    cbn [getCap Nat.eqb]. rewrite Hs, <- sapp_cons, consumed_app. reflexivity.
  - cbn [fmap option_fmap option_map]. exact H.
Qed.

(** The search with the pattern is the scan for the table. *)
Lemma search_tblPattern (doc : string) (pos : nat) :
  match stage3Table doc with
  | Some t =>
      exists m, search tblPattern pos doc = Some m
                /\ getCap 2 (m_caps m) = Some t
  | None => search tblPattern pos doc = None
  end.
Proof.
  revert pos. induction doc as [|c doc IH]; intros pos.
  - cbn [stage3Table search].
    pose proof (matchAt_tblPattern_table "") as H.
    destruct (tableAt "") as [t|].
    + destruct H as (rest & cs & -> & Hcap). eexists. split; [reflexivity|exact Hcap].
    + rewrite H. reflexivity.
  - cbn [stage3Table search].
    pose proof (matchAt_tblPattern_table (String c doc)) as H.
    destruct (tableAt (String c doc)) as [t|].
    + destruct H as (rest & cs & -> & Hcap). eexists. split; [reflexivity|exact Hcap].
    + rewrite H. apply IH.
Qed.

(** The table is the second group of the leftmost match. *)
Lemma jsonTbl_search {L : Libs} (proposalsReadmeMd : string) :
  jsonTbl proposalsReadmeMd
  = match search tblPattern 0 proposalsReadmeMd with
    | Some m =>
        match getCap 2 (m_caps m) with
        | Some markdownTbl => Ok (mdTbl2json markdownTbl cellFn headerFn)
        | None => Thrown (TypeError "no table")
        end
    | None => Thrown (TypeError "null[2]")
    end.
Proof.
  unfold jsonTbl. rewrite newRegExp_tbl. cbn [mbind result_bind].
  unfold exec. cbn [re_global re_lastIndex re_pattern re_groups].
  change (String.length proposalsReadmeMd <? 0) with false. cbv iota.
  unfold sub. rewrite Nat.sub_0_r, substring_all.
  destruct (search tblPattern 0 proposalsReadmeMd) as [m|]; reflexivity.
Qed.

(** X19. The table handed to [mdTbl2json] is found without patterns: it
    starts behind the first [### Stage 3] heading (with its empty line)
    that has a [### Stage 2] heading (behind an empty line) somewhere after
    it, holds one character at least, and runs up to the last such stage 2
    heading of the document; when no place of the document has both, the
    extraction throws. *)
Theorem jsonTbl_is_scan {L : Libs} (proposalsReadmeMd : string) :
  jsonTbl proposalsReadmeMd
  = match stage3Table proposalsReadmeMd with
    | Some markdownTbl => Ok (mdTbl2json markdownTbl cellFn headerFn)
    | None => Thrown (TypeError "null[2]")
    end.
Proof.
  rewrite jsonTbl_search.
  pose proof (search_tblPattern proposalsReadmeMd 0) as H.
  destruct (stage3Table proposalsReadmeMd) as [markdownTbl|].
  - destruct H as (m & -> & ->). reflexivity.
  - rewrite H. reflexivity.
Qed.

Lemma tableEnd_none (s : string) :
  includes s stage2Mark = false -> tableEnd s = None.
Proof.
  induction s as [|c s IH]; [reflexivity|]. cbn [includes tableEnd].
  intros H. apply orb_false_iff in H as [Hhere H].
  rewrite (IH H), Hhere. reflexivity.
Qed.

Lemma tableEnd_app (a b t : string) :
  tableEnd b = Some t -> tableEnd (a +:+ b) = Some (a +:+ t).
Proof.
  intros H. induction a as [|c a IH]; [exact H|].
  rewrite !sapp_cons. cbn [tableEnd]. rewrite IH. reflexivity.
Qed.

Lemma tableEnd_mark (post : string) :
  tableEnd post = None -> tableEnd (stage2Mark +:+ post) = Some "".
Proof.
  intros H. unfold stage2Mark. rewrite !sapp_cons, sapp_nil_l.
  cbn [tableEnd]. rewrite H. reflexivity.
Qed.

Lemma isPrefix_longer (p q s : string) :
  isPrefix p s = false -> isPrefix (p +:+ q) s = false.
Proof.
  revert s. induction p as [|c p IH]; intros s H; [discriminate H|].
  destruct s as [|d s]; [reflexivity|]. rewrite sapp_cons. cbn [isPrefix] in *.
  destruct (Ascii.eqb c d); [|reflexivity]. apply IH. exact H.
Qed.

(** Lines without the heading are passed over. *)
Lemma stage3Table_skip_lines (pre rest : string) :
  atLineStart pre = true -> includes pre "### Stage 3" = false ->
  stage3Table (pre +:+ rest) = stage3Table rest.
Proof.
  induction pre as [|x pre IH]; intros Hstart Hnone; [reflexivity|].
  cbn [atLineStart] in Hstart.
  assert (Hbreak : noBreak (String x pre) = false)
    by (apply endsWithBreak_noBreak; exact Hstart).
  assert (Hstart' : atLineStart pre = true).
  { destruct pre as [|y pre]; [reflexivity|]. exact Hstart. }
  cbn [includes] in Hnone. apply orb_false_iff in Hnone as [Hhere Hnone].
  rewrite sapp_cons. cbn [stage3Table]. rewrite <- sapp_cons.
  unfold tableAt at 1.
  change stage3Heading with ("### Stage 3" +:+ (nl +:+ nl)).
  rewrite isPrefix_longer
    by (rewrite isPrefix_cut by (reflexivity || exact Hbreak); exact Hhere).
  apply IH; assumption.
Qed.

(** X20. The extent of the table.  When the [### Stage 3] heading starts a
    line and is not read before, and no [### Stage 2] heading follows the
    one the table is closed with, the text handed to [mdTbl2json] is what
    stands between the empty line behind the first heading and the empty
    line before the second; an earlier [### Stage 2] heading inside that
    text does not end it. *)
Theorem stage3_table_extent {L : Libs} (pre tbl post : string) (c : ascii) :
  atLineStart pre = true ->
  includes pre "### Stage 3" = false ->
  includes post stage2Mark = false ->
  jsonTbl (pre +:+ stage3Heading +:+ String c tbl +:+ stage2Mark +:+ post)
  = Ok (mdTbl2json (String c tbl) cellFn headerFn).
Proof.
  intros Hstart Hpre Hpost.
  assert (Hat : tableAt (stage3Heading +:+ String c tbl +:+ stage2Mark +:+ post)
                = Some (String c tbl)).
  { unfold tableAt. rewrite isPrefix_app, dropStr_app, sapp_cons.
    rewrite (tableEnd_app tbl _ "" (tableEnd_mark _ (tableEnd_none _ Hpost))).
    rewrite sapp_nil_r. reflexivity. }
  assert (Hscan : stage3Table
                    (pre +:+ stage3Heading +:+ String c tbl +:+ stage2Mark +:+ post)
                  = Some (String c tbl)).
  { rewrite (stage3Table_skip_lines _ _ Hstart Hpre).
    destruct (stage3Heading +:+ String c tbl +:+ stage2Mark +:+ post) as [|d doc];
      cbn [stage3Table]; rewrite Hat; reflexivity. }
  rewrite jsonTbl_search.
  pose proof (search_tblPattern
                (pre +:+ stage3Heading +:+ String c tbl +:+ stage2Mark +:+ post) 0)
    as H.
  rewrite Hscan in H. destruct H as (m & -> & ->). reflexivity.
Qed.

Lemma stage3_table_extent_witness :
  jsonTbl (L := Demo.libs []) Inputs.readme
  = Ok (mdTbl2json (Libs := Demo.libs [])
          (Demo.lines
             ["| Proposal | Author | Champion | Tests | Last Presented |";
              "|---|---|---|---|---|";
              "| [Foo bar][foo] | A<br />B | C | [Tests][foo-tests] | <sub>[December 2019][foo-notes]</sub> |"]
           +:+ "| [Baz][baz] | D | E<br />F | none yet | <sub>September 2020</sub> |")
          (cellFn (L := Demo.libs [])) (headerFn (L := Demo.libs []))).
Proof.
  exact (stage3_table_extent (L := Demo.libs [])
           ("# ECMAScript proposals" +:+ nl +:+ nl)
           (Demo.lines
              [" Proposal | Author | Champion | Tests | Last Presented |";
               "|---|---|---|---|---|";
               "| [Foo bar][foo] | A<br />B | C | [Tests][foo-tests] | <sub>[December 2019][foo-notes]</sub> |"]
            +:+ "| [Baz][baz] | D | E<br />F | none yet | <sub>September 2020</sub> |")
           (nl +:+ nl +:+ MoreInputs.readmeTail)
           "|" eq_refl eq_refl eq_refl).
Defined.

(** ** The code sample of a README *)

Section Repetition.

Variables (neg : bool) (items : list citem).

(** The greedy repetition of a class is the greedy walk along the
    characters of the class. *)
Lemma repeat_class (k : Continuation) (s : string) (cs : caps) (fuel : nat) :
  String.length s < fuel ->
  repeatMatcher (rmatch (RSet neg items)) [] true k fuel 0 None s cs
  = greedyWhile (inClass neg items) k s cs.
Proof.
  revert s. induction fuel as [|fuel IH]; intros s Hlen; [lia|].
  rewrite repeatMatcher_step. cbv zeta. cbn [Nat.eqb negb andb].
  rewrite clearCaps_none.
  destruct s as [|c s]; [reflexivity|].
  cbn [rmatch greedyWhile]. fold (inClass neg items c).
  destruct (inClass neg items c); [|reflexivity].
  replace (String.length s =? String.length (String c s)) with false
    by (symmetry; apply Nat.eqb_neq; simpl; lia).
  cbn [Nat.pred fmap option_fmap option_map].
  rewrite IH by (simpl in Hlen; lia). reflexivity.
Qed.

(** The lazy repetition tries to go on first. *)
Lemma repeat_class_lazy (k : Continuation) (s : string) (cs : caps)
  (fuel : nat) :
  String.length s < fuel ->
  repeatMatcher (rmatch (RSet neg items)) [] false k fuel 0 None s cs
  = lazyWhile (inClass neg items) k s cs.
Proof.
  revert s. induction fuel as [|fuel IH]; intros s Hlen; [lia|].
  rewrite repeatMatcher_step. cbv zeta. cbn [Nat.eqb negb andb].
  rewrite clearCaps_none.
  destruct s as [|c s]; cbn [rmatch lazyWhile].
  - reflexivity.
  - fold (inClass neg items c). destruct (k (String c s) cs); [reflexivity|].
    destruct (inClass neg items c); [|reflexivity].
    replace (String.length s =? String.length (String c s)) with false
      by (symmetry; apply Nat.eqb_neq; simpl; lia).
    cbn [Nat.pred fmap option_fmap option_map].
    rewrite IH by (simpl in Hlen; lia). reflexivity.
Qed.

(** With one round at least, the first character has to be of the class. *)
Lemma repeat_class_plus (k : Continuation) (s : string) (cs : caps) :
  rmatch (RQuant 1 None true (RSet neg items)) s cs k
  = match s with
    | EmptyString => None
    | String c s' => if inClass neg items c then greedyWhile (inClass neg items) k s' cs else None
    end.
Proof.
  change (rmatch (RQuant 1 None true (RSet neg items)) s cs k)
    with (repeatMatcher (rmatch (RSet neg items)) [] true k
            (S (S (String.length s))) 1 None s cs).
  rewrite repeatMatcher_step. cbv zeta. cbn [Nat.eqb negb andb].
  rewrite clearCaps_none.
  destruct s as [|c s]; [reflexivity|].
  cbn [rmatch]. fold (inClass neg items c). destruct (inClass neg items c); [|reflexivity].
  cbn [Nat.pred fmap option_fmap option_map].
  apply repeat_class. simpl. lia.
Qed.

End Repetition.

Lemma codeBlockPattern_parts :
  codeBlockPattern
  = literal fenceMark
      (RSeq (RQuant 0 None true (RSet false [CRange "a" "z"]))
         (literal nl
            (RSeq (RQuant 0 None false (RSet false [CSpace false; CSpace true]))
               (literal closingFence REmpty)))).
Proof. reflexivity. Qed.

Lemma fencePattern_parts :
  fencePattern
  = literal fenceMark
      (RSeq (RQuant 0 None false
               (RGroup 1 (RSeq (RQuant 0 (Some 1) true RDot) REmpty)))
         (RSeq (RQuant 1 None true (RSet false [CRange LF LF])) REmpty)).
Proof. reflexivity. Qed.

(** A greedy walk is stopped by the first character outside the class, and
    goes on from there when the continuation needs that character. *)
Lemma greedyWhile_stop (p : ascii -> bool) (k : Continuation) (a : string)
  (d : ascii) (s : string) (cs : caps) :
  (forall c t, p c = true -> k (String c t) cs = None) ->
  Forall (fun c => p c = true) (list_ascii_of_string a) ->
  p d = false ->
  greedyWhile p k (a +:+ String d s) cs = k (String d s) cs.
Proof.
  intros Hk Ha Hd. induction a as [|c a IH].
  - rewrite sapp_nil_l. cbn [greedyWhile]. rewrite Hd. reflexivity.
  - cbn [list_ascii_of_string] in Ha. apply Forall_cons in Ha as [Hc Ha].
    rewrite sapp_cons. cbn [greedyWhile]. rewrite Hc, (IH Ha).
    destruct (k (String d s) cs) eqn:Hkd; [reflexivity|].
    apply Hk. exact Hc.
Qed.

(** When the continuation takes whatever it is given, the greedy walk
    reads every line feed. *)
Lemma greedyWhile_lineFeeds (f : string -> caps -> MatchState) (s : string)
  (cs : caps) :
  greedyWhile (inClass false [CRange LF LF]) (fun s' cs' => Some (f s' cs')) s cs
  = Some (f (dropLineFeeds s) cs).
Proof.
  induction s as [|c s IH]; [reflexivity|]. cbn [greedyWhile dropLineFeeds].
  unfold inClass at 1. cbn [existsb inItem xorb]. rewrite between_same, orb_false_r.
  destruct (Ascii.eqb LF c); [|reflexivity]. rewrite IH. reflexivity.
Qed.

(** A lazy walk over any character passes the places where the
    continuation fails. *)
Lemma lazyWhile_skip (p : ascii -> bool) (k : Continuation) (a s : string)
  (cs : caps) :
  (forall c, p c = true) ->
  (forall b1 c b2, a = b1 +:+ String c b2 -> k (String c b2 +:+ s) cs = None) ->
  lazyWhile p k (a +:+ s) cs = lazyWhile p k s cs.
Proof.
  intros Hp. induction a as [|c a IH]; intros Hk; [reflexivity|].
  rewrite sapp_cons. cbn [lazyWhile]. rewrite <- sapp_cons.
  rewrite (Hk "" c a eq_refl), Hp. apply IH.
  intros b1 d b2 ->. apply (Hk (String c b1) d b2). reflexivity.
Qed.

Lemma rmatch_star (greedy : bool) (neg : bool) (items : list citem)
  (k : Continuation) (s : string) (cs : caps) :
  rmatch (RQuant 0 None greedy (RSet neg items)) s cs k
  = if greedy then greedyWhile (inClass neg items) k s cs
    else lazyWhile (inClass neg items) k s cs.
Proof.
  change (rmatch (RQuant 0 None greedy (RSet neg items)) s cs k)
    with (repeatMatcher (rmatch (RSet neg items)) [] greedy k
            (S (String.length s)) 0 None s cs).
  destruct greedy; [apply repeat_class|apply repeat_class_lazy]; lia.
Qed.

Lemma rmatch_seq (r1 r2 : regex) (s : string) (cs : caps) (k : Continuation) :
  rmatch (RSeq r1 r2) s cs k = rmatch r1 s cs (fun s' cs' => rmatch r2 s' cs' k).
Proof. reflexivity. Qed.

Lemma lowerWord_Forall (s : string) :
  lowerWord s = true ->
  Forall (fun c => inClass false [CRange "a" "z"] c = true) (list_ascii_of_string s).
Proof.
  induction s as [|c s IH]; intros H; [constructor|].
  cbn [lowerWord] in H. apply andb_true_iff in H as [Hc H].
  cbn [list_ascii_of_string]. constructor; [|apply IH; exact H].
  unfold inClass. cbn [existsb inItem xorb]. rewrite orb_false_r. exact Hc.
Qed.

Lemma lower_not_lineFeed (c : ascii) :
  inClass false [CRange "a" "z"] c = true -> Ascii.eqb LF c = false.
Proof.
  intros H. destruct (Ascii.eqb_spec LF c) as [<-|]; [discriminate H|reflexivity].
Qed.

Lemma includes_head (s p : string) : includes s p = false -> isPrefix p s = false.
Proof.
  destruct s as [|c s]; cbn [includes]; [tauto|].
  intros H. apply orb_false_iff in H as [H _]. exact H.
Qed.

Lemma includes_tail (a b p : string) :
  includes (a +:+ b) p = false -> includes b p = false.
Proof.
  induction a as [|c a IH]; [tauto|]. rewrite sapp_cons. cbn [includes].
  intros H. apply orb_false_iff in H as [_ H]. apply IH. exact H.
Qed.

(** A text without line break that is read before a line feed is read
    before what precedes the line feed. *)
Lemma isPrefix_break (p b y : string) :
  noBreak p = true -> p <> "" ->
  isPrefix p (b +:+ String LF y) = isPrefix p b.
Proof.
  revert p. induction b as [|c b IH]; intros [|a p] Hp Hne; try congruence.
  - rewrite sapp_nil_l. cbn [isPrefix noBreak] in *.
    apply andb_true_iff in Hp as [Ha _].
    destruct (Ascii.eqb_spec a LF) as [->|]; [discriminate Ha|reflexivity].
  - rewrite sapp_cons. cbn [isPrefix noBreak] in *.
    apply andb_true_iff in Hp as [_ Hp].
    destruct (Ascii.eqb a c); [|reflexivity]. cbn [andb].
    destruct p as [|a' p]; [reflexivity|]. apply IH; [exact Hp|discriminate].
Qed.

(** The closing fence is not read where the body goes on. *)
Lemma closingFence_later (c : ascii) (b y : string) :
  includes (String c b) fenceMark = false ->
  isPrefix closingFence (String c b +:+ closingFence +:+ y) = false.
Proof.
  intros H. cbn [includes] in H. apply orb_false_iff in H as [_ H].
  apply includes_head in H.
  change closingFence with (String LF (fenceMark +:+ nl)).
  rewrite !sapp_cons. cbn [isPrefix].
  rewrite isPrefix_longer; [apply andb_false_r|].
  rewrite isPrefix_break by (reflexivity || discriminate). exact H.
Qed.

(** Where a block starts, the pattern reads it up to its closing fence. *)
Lemma matchAt_codeBlock (lang body post : string) :
  lowerWord lang = true -> includes body fenceMark = false ->
  matchAt codeBlockPattern
    (fenceMark +:+ lang +:+ nl +:+ body +:+ closingFence +:+ post)
  = Some (post, []).
Proof.
  intros Hlang Hbody. unfold matchAt.
  rewrite codeBlockPattern_parts, rmatch_literal, isPrefix_app, dropStr_app.
  rewrite rmatch_seq, rmatch_star.
  change (nl +:+ body +:+ closingFence +:+ post)
    with (String LF (body +:+ closingFence +:+ post)).
  rewrite greedyWhile_stop;
    [|intros c t Hc; rewrite rmatch_literal; cbn [isPrefix nl];
      rewrite (lower_not_lineFeed c Hc); reflexivity
     |apply lowerWord_Forall; exact Hlang
     |reflexivity].
  change (String LF (body +:+ closingFence +:+ post))
    with (nl +:+ body +:+ closingFence +:+ post).
  rewrite rmatch_literal, isPrefix_app, dropStr_app, rmatch_seq, rmatch_star.
  rewrite lazyWhile_skip.
  - destruct (closingFence +:+ post) as [|d rest] eqn:Hrest;
      [discriminate Hrest|]. rewrite <- Hrest.
    assert (Hk : rmatch (literal closingFence REmpty) (closingFence +:+ post) []
                   (fun s' cs' => Some (s', cs')) = Some (post, [])).
    { rewrite rmatch_literal, isPrefix_app, dropStr_app. reflexivity. }
    rewrite Hrest in *. cbn [lazyWhile]. rewrite Hk. reflexivity.
  - intros c. unfold inClass. cbn [existsb inItem xorb].
    destruct (isSpace c); reflexivity.
  - intros b1 c b2 ->. rewrite rmatch_literal.
    rewrite closingFence_later; [reflexivity|].
    apply (includes_tail b1). exact Hbody.
Qed.

(** Lines that do not hold the text a pattern starts with are passed
    over by the search. *)
Lemma search_skip_lines (r : regex) (p pre rest : string) (pos : nat) :
  noBreak p = true ->
  (forall t, isPrefix p t = false -> matchAt r t = None) ->
  atLineStart pre = true -> includes pre p = false ->
  search r pos (pre +:+ rest) = search r (pos + String.length pre) rest.
Proof.
  intros Hp Hr. revert pos. induction pre as [|x pre IH]; intros pos Hstart Hnone.
  - rewrite sapp_nil_l. cbn [String.length]. rewrite Nat.add_0_r. reflexivity.
  - cbn [atLineStart] in Hstart.
    assert (Hbreak : noBreak (String x pre) = false)
      by (apply endsWithBreak_noBreak; exact Hstart).
    assert (Hstart' : atLineStart pre = true).
    { destruct pre as [|y pre]; [reflexivity|]. exact Hstart. }
    cbn [includes] in Hnone. apply orb_false_iff in Hnone as [Hhere Hnone].
    rewrite sapp_cons. cbn [search]. rewrite <- sapp_cons.
    rewrite Hr by (rewrite isPrefix_cut by assumption; exact Hhere).
    rewrite IH by assumption. f_equal. cbn [String.length]. lia.
Qed.

(** The optional [.] of the fence pattern. *)
Lemma rmatch_optional_dot (k : Continuation) (s : string) (cs : caps) :
  rmatch (RQuant 0 (Some 1) true RDot) s cs k
  = match s with
    | EmptyString => k s cs
    | String c s' =>
        if isLineTerminator c then k s cs
        else match k s' cs with
             | Some st => Some st
             | None => k s cs
             end
    end.
Proof.
  change (rmatch (RQuant 0 (Some 1) true RDot) s cs k)
    with (repeatMatcher (rmatch RDot) [] true k (S (String.length s)) 0
            (Some 1) s cs).
  rewrite repeatMatcher_step. cbv zeta. cbn [Nat.eqb negb andb].
  rewrite clearCaps_none.
  destruct s as [|c s]; [reflexivity|].
  unfold RDot at 1. cbn [rmatch]. rewrite dot_class.
  destruct (isLineTerminator c); [reflexivity|]. cbn [xorb negb].
  replace (String.length s =? String.length (String c s)) with false
    by (symmetry; apply Nat.eqb_neq; simpl; lia).
  cbn [String.length]. rewrite repeatMatcher_step. reflexivity.
Qed.

(** The line feeds that close a fence line. *)
Lemma rmatch_lineFeeds (s : string) (cs : caps) :
  rmatch (RSeq (RQuant 1 None true (RSet false [CRange LF LF])) REmpty) s cs
    (fun s' cs' => Some (s', cs'))
  = match s with
    | EmptyString => None
    | String c s' => if Ascii.eqb LF c then Some (dropLineFeeds s', cs) else None
    end.
Proof.
  rewrite rmatch_seq, repeat_class_plus.
  destruct s as [|c s]; [reflexivity|].
  unfold inClass at 1. cbn [existsb inItem xorb]. rewrite between_same, orb_false_r.
  destruct (Ascii.eqb LF c); [|reflexivity].
  apply (greedyWhile_lineFeeds (fun s' cs' => (s', cs'))).
Qed.

(** The lazy repetition of the fence pattern reads the rest of the fence
    line, and the continuation the line feeds behind it. *)
Lemma repeat_fence_line (k : Continuation) (fuel : nat) (s : string) (cs : caps) :
  (forall s cs,
     k s cs = match s with
              | EmptyString => None
              | String c s' =>
                  if Ascii.eqb LF c then Some (dropLineFeeds s', cs) else None
              end) ->
  String.length s < fuel ->
  match afterLineFeeds s with
  | Some rest =>
      exists cs',
        repeatMatcher
          (rmatch (RGroup 1 (RSeq (RQuant 0 (Some 1) true RDot) REmpty)))
          [1] false k fuel 0 None s cs
        = Some (rest, cs')
  | None =>
      repeatMatcher
        (rmatch (RGroup 1 (RSeq (RQuant 0 (Some 1) true RDot) REmpty)))
        [1] false k fuel 0 None s cs
      = None
  end.
Proof.
  intros Hk. revert s cs. induction fuel as [|fuel IH]; intros s cs Hlen; [lia|].
  rewrite repeatMatcher_step. cbv zeta. cbn [Nat.eqb negb andb].
  rewrite Hk.
  change (rmatch (RGroup 1 (RSeq (RQuant 0 (Some 1) true RDot) REmpty)) s
            (clearCaps [1] cs))
    with (fun k' =>
            rmatch (RQuant 0 (Some 1) true RDot) s (clearCaps [1] cs)
              (fun s' cs' => k' s' ((1, consumed s s') :: cs'))).
  cbv beta. rewrite rmatch_optional_dot.
  destruct s as [|c s]; cbn [afterLineFeeds].
  - reflexivity.
  - destruct (Ascii.eqb LF c); [eexists; reflexivity|].
    rewrite Nat.eqb_refl.
    destruct (isLineTerminator c); [reflexivity|].
    replace (String.length s =? String.length (String c s)) with false
      by (symmetry; apply Nat.eqb_neq; simpl; lia).
    cbn [Nat.pred fmap option_fmap option_map].
    pose proof (IH s ((1, consumed (String c s) s) :: clearCaps [1] cs)) as H.
    destruct (afterLineFeeds s) as [rest|].
    + destruct H as [cs' ->]; [simpl in Hlen; lia|]. exists cs'. reflexivity.
    + rewrite H by (simpl in Hlen; lia). reflexivity.
Qed.

(** The fence pattern at a fence: the fence line goes, and the line feeds
    behind it. *)
Lemma matchAt_fence (s : string) :
  match afterLineFeeds s with
  | Some rest => exists cs, matchAt fencePattern (fenceMark +:+ s) = Some (rest, cs)
  | None => matchAt fencePattern (fenceMark +:+ s) = None
  end.
Proof.
  unfold matchAt. rewrite fencePattern_parts, rmatch_literal, isPrefix_app, dropStr_app.
  change (rmatch (RSeq _ _) s [] _)
    with (repeatMatcher
            (rmatch (RGroup 1 (RSeq (RQuant 0 (Some 1) true RDot) REmpty))) [1]
            false
            (fun s' cs' =>
               rmatch (RSeq (RQuant 1 None true (RSet false [CRange LF LF])) REmpty)
                 s' cs' (fun s'' cs'' => Some (s'', cs'')))
            (S (String.length s)) 0 None s []).
  apply repeat_fence_line; [|lia].
  intros s' cs'. apply rmatch_lineFeeds.
Qed.

Lemma matchAt_fence_absent (t : string) :
  isPrefix fenceMark t = false -> matchAt fencePattern t = None.
Proof.
  intros H. unfold matchAt. rewrite fencePattern_parts, rmatch_literal, H. reflexivity.
Qed.

Lemma afterLineFeeds_line (info rest : string) :
  noBreak info = true ->
  afterLineFeeds (info +:+ nl +:+ rest) = Some (dropLineFeeds rest).
Proof.
  intros H. induction info as [|c info IH]; [reflexivity|].
  cbn [noBreak] in H. apply andb_true_iff in H as [Hc H].
  rewrite sapp_cons. cbn [afterLineFeeds].
  apply negb_true_iff in Hc. rewrite Hc.
  destruct (Ascii.eqb_spec LF c) as [<-|]; [discriminate Hc|]. apply IH. exact H.
Qed.

Lemma lowerWord_noBreak (s : string) : lowerWord s = true -> noBreak s = true.
Proof.
  induction s as [|c s IH]; [reflexivity|]. cbn [lowerWord noBreak].
  intros H. apply andb_true_iff in H as [Hc H]. rewrite (IH H), andb_true_r.
  unfold isLineTerminator.
  destruct (Ascii.eqb_spec c LF) as [->|]; [discriminate Hc|].
  destruct (Ascii.eqb_spec c CR) as [->|]; [discriminate Hc|reflexivity].
Qed.

Lemma dropLineFeeds_length (s : string) :
  String.length (dropLineFeeds s) <= String.length s.
Proof.
  induction s as [|c s IH]; [reflexivity|]. cbn [dropLineFeeds].
  destruct (Ascii.eqb LF c); simpl; lia.
Qed.

Lemma dropLineFeeds_app (x : string) (d : ascii) (y : string) :
  Ascii.eqb LF d = false ->
  dropLineFeeds (x +:+ String d y) = dropLineFeeds x +:+ String d y.
Proof.
  intros Hd. induction x as [|c x IH].
  - rewrite !sapp_nil_l. cbn [dropLineFeeds]. rewrite Hd. reflexivity.
  - rewrite sapp_cons. cbn [dropLineFeeds].
    destruct (Ascii.eqb LF c); [exact IH|reflexivity].
Qed.

Lemma dropLineFeeds_lineStart (s : string) :
  endsWithBreak s = true -> atLineStart (dropLineFeeds s) = true.
Proof.
  induction s as [|c s IH]; [reflexivity|]. intros H. cbn [dropLineFeeds].
  destruct (Ascii.eqb LF c); [|exact H].
  destruct s as [|d s]; [reflexivity|]. apply IH. exact H.
Qed.

Lemma dropLineFeeds_includes (s p : string) :
  includes s p = false -> includes (dropLineFeeds s) p = false.
Proof.
  induction s as [|c s IH]; [tauto|]. intros H. cbn [dropLineFeeds].
  destruct (Ascii.eqb LF c); [|exact H].
  cbn [includes] in H. apply orb_false_iff in H as [_ H]. apply IH. exact H.
Qed.

Lemma endsWithBreak_app (a : string) : endsWithBreak (a +:+ nl) = true.
Proof.
  induction a as [|c a IH]; [reflexivity|]. rewrite sapp_cons.
  cbn [endsWithBreak]. destruct (a +:+ nl) eqn:Ha; [|exact IH].
  destruct a; discriminate Ha.
Qed.

(** A text that is not in [a] is not in [a] with a line feed added. *)
Lemma includes_lineFeed (a p : string) :
  noBreak p = true -> p <> "" ->
  includes a p = false -> includes (a +:+ nl) p = false.
Proof.
  intros Hp Hne. induction a as [|c a IH]; intros H.
  - rewrite sapp_nil_l. destruct p as [|x p]; [congruence|].
    cbn [noBreak] in Hp. apply andb_true_iff in Hp as [Hx _].
    cbn [nl includes isPrefix].
    destruct (Ascii.eqb_spec x LF) as [->|]; [discriminate Hx|reflexivity].
  - rewrite sapp_cons. cbn [includes] in *.
    apply orb_false_iff in H as [Hhere H]. rewrite (IH H), orb_false_r.
    rewrite <- sapp_cons. unfold nl. rewrite isPrefix_break by assumption.
    exact Hhere.
Qed.

Lemma replaceGo_step (fuel : nat) (r : regex) (s rep : string) :
  replaceGo (S fuel) r s rep
  = let keep :=
      match s with
      | EmptyString => EmptyString
      | String c rest => String c (replaceGo fuel r rest rep)
      end in
    match matchAt r s with
    | Some (rest, _) =>
        if String.length rest <? String.length s
        then rep +:+ replaceGo fuel r rest rep
        else rep +:+ keep
    | None => keep
    end.
Proof. reflexivity. Qed.

(** Lines without fence are kept as they are. *)
Lemma replaceGo_keeps_lines (x y : string) (fuel : nat) :
  atLineStart x = true -> includes x fenceMark = false ->
  String.length x <= fuel ->
  replaceGo fuel fencePattern (x +:+ y) ""
  = x +:+ replaceGo (fuel - String.length x) fencePattern y "".
Proof.
  revert fuel. induction x as [|c x IH]; intros fuel Hstart Hnone Hlen.
  - rewrite !sapp_nil_l. cbn [String.length]. rewrite Nat.sub_0_r. reflexivity.
  - cbn [atLineStart] in Hstart.
    assert (Hbreak : noBreak (String c x) = false)
      by (apply endsWithBreak_noBreak; exact Hstart).
    assert (Hstart' : atLineStart x = true).
    { destruct x as [|y' x]; [reflexivity|]. exact Hstart. }
    cbn [includes] in Hnone. apply orb_false_iff in Hnone as [Hhere Hnone].
    destruct fuel as [|fuel]; [simpl in Hlen; lia|].
    rewrite replaceGo_step. cbv zeta.
    rewrite matchAt_fence_absent
      by (rewrite isPrefix_cut by (reflexivity || exact Hbreak); exact Hhere).
    rewrite !sapp_cons. f_equal.
    rewrite IH by (try assumption; simpl in Hlen; lia). reflexivity.
Qed.

Lemma replaceGo_empty (fuel : nat) : replaceGo fuel fencePattern "" "" = "".
Proof. destruct fuel; reflexivity. Qed.

(** The fences of a block go, and with the opening one the line feeds the
    body starts with. *)
Lemma replace_block (lang body : string) :
  lowerWord lang = true -> includes body fenceMark = false ->
  replace (fenceMark +:+ lang +:+ nl +:+ body +:+ closingFence)
    (mkRegExp fencePattern 1 true 0) ""
  = dropLineFeeds (body +:+ nl).
Proof.
  intros Hlang Hbody. unfold replace. cbn [re_pattern].
  set (block := fenceMark +:+ lang +:+ nl +:+ body +:+ closingFence).
  assert (Hrest : dropLineFeeds (body +:+ closingFence)
                  = dropLineFeeds (body +:+ nl) +:+ fenceMark +:+ nl).
  { change closingFence with (nl +:+ String "`" ("``" +:+ nl)).
    rewrite <- app_assoc_s. apply dropLineFeeds_app. reflexivity. }
  assert (Hlen : String.length (dropLineFeeds (body +:+ nl)) + 4
                 < String.length block).
  { pose proof (dropLineFeeds_length (body +:+ nl)) as H.
    unfold block. rewrite !length_app_s in *. simpl in *. lia. }
  rewrite replaceGo_step. cbv zeta.
  pose proof (matchAt_fence (lang +:+ nl +:+ body +:+ closingFence)) as Hm.
  rewrite (afterLineFeeds_line lang _ (lowerWord_noBreak _ Hlang)) in Hm.
  destruct Hm as [cs Hm]. fold block in Hm. clearbody block. rewrite Hm, Hrest.
  replace (String.length (dropLineFeeds (body +:+ nl) +:+ fenceMark +:+ nl)
           <? String.length block) with true
    by (symmetry; apply Nat.ltb_lt; rewrite length_app_s;
        change (String.length (fenceMark +:+ nl)) with 4; lia).
  rewrite sapp_nil_l.
  rewrite replaceGo_keeps_lines;
    [|apply dropLineFeeds_lineStart, endsWithBreak_app
     |apply dropLineFeeds_includes, includes_lineFeed;
        [reflexivity|discriminate|exact Hbody]
     |lia].
  destruct (String.length block - String.length (dropLineFeeds (body +:+ nl)))
    as [|fuel] eqn:Hfuel; [lia|].
  rewrite replaceGo_step. cbv zeta.
  pose proof (matchAt_fence ("" +:+ nl +:+ "")) as Hm2.
  rewrite (afterLineFeeds_line "" "" eq_refl) in Hm2.
  destruct Hm2 as [cs2 Hm2].
  change (fenceMark +:+ "" +:+ nl +:+ "") with (fenceMark +:+ nl) in Hm2.
  rewrite Hm2. cbn [dropLineFeeds String.length Nat.ltb Nat.leb].
  rewrite sapp_nil_l, replaceGo_empty. apply sapp_nil_r.
Qed.

(** X21. The code sample of a new proposal, without patterns.  When the
    README has a first fence at the start of a line, followed by a word of
    lower-case letters (or nothing) and a line feed, and the text up to the
    next closing fence holds no fence mark, the code sample is that text
    with a line feed added and without the line feeds it starts with: the
    fences are dropped, the empty lines at the head of the sample as well,
    and whatever follows the block is left out. *)
Theorem getCodeSample_first_block {L : Libs} (w : World) (text : string)
  (prpslData : list DataRecord) (prpslId pre lang body post : string) :
  disk w !! FILE_PROPOSAL_DATA = Some text ->
  yaml_load text = Ok prpslData ->
  notNullish (scanCodeSample prpslData prpslId) = false ->
  remoteFile w "tc39" prpslId "README.md"
  = Resolves (pre +:+ fenceMark +:+ lang +:+ nl +:+ body +:+ closingFence +:+ post) ->
  atLineStart pre = true ->
  includes pre fenceMark = false ->
  lowerWord lang = true ->
  includes body fenceMark = false ->
  run w (getCodeSample prpslId)
  = (Fulfilled (JStr (dropLineFeeds (body +:+ nl))),
     [EvRead FILE_PROPOSAL_DATA; EvFetchFile "tc39" prpslId "README.md"]).
Proof.
  intros Hfile Hload Hscan Hfetch Hstart Hpre Hlang Hbody.
  rewrite (run_getCodeSample_remote w text prpslData Hfile Hload prpslId _
             Hscan Hfetch).
  rewrite (search_skip_lines codeBlockPattern fenceMark pre _ 0 eq_refl
             matchAt_codeBlockPattern Hstart Hpre).
  assert (Hm := matchAt_codeBlock lang body post Hlang Hbody).
  destruct (fenceMark +:+ lang +:+ nl +:+ body +:+ closingFence +:+ post)
    as [|d rest] eqn:Hdoc; [discriminate Hdoc|].
  cbn [search]. rewrite Hm. cbn [m_text]. rewrite <- Hdoc.
  replace (fenceMark +:+ lang +:+ nl +:+ body +:+ closingFence +:+ post)
    with ((fenceMark +:+ lang +:+ nl +:+ body +:+ closingFence) +:+ post)
    by (rewrite !app_assoc_s; reflexivity).
  rewrite consumed_app, (replace_block lang body Hlang Hbody). reflexivity.
Qed.

Lemma getCodeSample_first_block_witness :
  run Inputs.world (getCodeSample (L := Demo.libs []) "proposal-foo")
  = (Fulfilled (JStr ("first();" +:+ nl)),
     [EvRead FILE_PROPOSAL_DATA; EvFetchFile "tc39" "proposal-foo" "README.md"]).
Proof.
  exact (getCodeSample_first_block (L := Demo.libs []) Inputs.world
           Inputs.oldFile [] "proposal-foo"
           ("# Foo bar" +:+ nl +:+ nl) "js" "first();"
           (nl +:+ Demo.lines ["Some prose."; ""; "```js"; "second();"; "```"])
           eq_refl eq_refl eq_refl eq_refl eq_refl eq_refl eq_refl eq_refl).
Defined.

(** ** The run as a whole, again *)




